(** * ShopMate core: circuit breaker, response cache, A/B allocator, dispatcher

    A shallow embedding of the resilience and dispatch layer of ShopMate
    ([src/core/circuit_breaker.py], [src/core/response_cache.py],
    [src/core/ab_testing.py], [src/graphs/customer_service_graph.py]) and the
    properties of it that the specification states, followed by the retry
    decorator, the statistics of the cache and of the A/B manager, the model
    router ([src/core/llm_router.py]) and the in-memory session store
    ([src/memory/session_manager.py]) with further properties of the code.

    Conventions of the embedding.
    - Python [int] is [Z].  The weights of the A/B manager, their sums and
      the bucket are binary64 floats ([PrimFloat.float]), since rounding and
      NaN decide what the code does with them.  The other Python [float]s
      (times, delays, similarities) are exact rationals [Q].
    - [time.time()] is an explicit argument [now] of every method that reads
      the clock (or a [clock] projection of the outside world where a method
      spans a user call); [datetime.now()], which the session store reads
      several times in one call, is a sequence of readings.
    - Python [str] is [string], characters outside the ASCII range being
      carried as their UTF-8 bytes.  The cache takes [str.strip] and
      [str.lower] as parameters; the dispatcher, which looks for ASCII
      identifiers, uses the [strip] and [lower] of the ASCII range.
    - A Python [dict] whose iteration order is observable is an association
      list in insertion order; one whose order is not observable is a [gmap].
    - Objects that are shared between containers live in an explicit heap
      and the containers hold their addresses. *)

From Stdlib Require Import ZArith QArith Qabs Lqa String Ascii List Bool Lia.
From Stdlib Require Import Sorted Permutation.
From Stdlib Require PrimFloat.
From stdpp Require Import base option list gmap strings.
Import ListNotations.

Local Open Scope Z_scope.

(** ** Circuit breaker ([src/core/circuit_breaker.py]) *)

Module Breaker.

Inductive CircuitState : Type := CLOSED | OPEN | HALF_OPEN.

Definition CircuitState_eqb (a b : CircuitState) : bool :=
  match a, b with
  | CLOSED, CLOSED | OPEN, OPEN | HALF_OPEN, HALF_OPEN => true
  | _, _ => false
  end.

(** One element of [CircuitBreakerStats.state_changes]. *)
Record StateChange : Type := mkStateChange {
  sc_from : CircuitState;
  sc_to : CircuitState;
  sc_time : Q
}.

Record CircuitBreakerStats : Type := mkStats {
  total_calls : Z;
  success_count : Z;
  failure_count : Z;
  consecutive_failures : Z;
  last_failure_time : Q;
  state_changes : list StateChange
}.

(** [CircuitBreakerStats()] with the dataclass defaults. *)
Definition fresh_stats : CircuitBreakerStats :=
  mkStats 0 0 0 0 0%Q [].

(** What a call can end in: a value, or a raised exception.  The exceptions
    are the [Exception] subclasses, the only ones [call_sync] catches. *)
Inductive exn (E : Type) : Type :=
  | CircuitOpenError
  | UserError (e : E).
Arguments CircuitOpenError {E}.
Arguments UserError {E} e.

Inductive outcome (R E : Type) : Type :=
  | Returned (r : R)
  | Raised (e : exn E).
Arguments Returned {R E} r.
Arguments Raised {R E} e.

Section WithWorld.
(** [W] is the state of everything outside the breaker (what a protected
    operation or a fallback may read and change), [R] the values they
    return and [E] the exceptions they raise. *)
Context {W R E : Type}.

(** The wall clock, read from the outside world. *)
Variable clock : W -> Q.

(** A Python callable applied to fixed arguments. *)
Definition callable : Type := W -> W * outcome R E.

Record CircuitBreaker : Type := mkBreaker {
  failure_threshold : Z;
  recovery_timeout : Q;
  half_open_max_calls : Z;
  fallback : option callable;
  _state : CircuitState;
  _stats : CircuitBreakerStats;
  _half_open_calls : Z
}.

(** [CircuitBreaker.__init__]. *)
Definition init (failure_threshold : Z) (recovery_timeout : Q)
    (half_open_max_calls : Z) (fallback : option callable) : CircuitBreaker :=
  mkBreaker failure_threshold recovery_timeout half_open_max_calls fallback
    CLOSED fresh_stats 0.

Definition with_state (b : CircuitBreaker) (s : CircuitState) : CircuitBreaker :=
  mkBreaker (failure_threshold b) (recovery_timeout b) (half_open_max_calls b)
    (fallback b) s (_stats b) (_half_open_calls b).

Definition with_stats (b : CircuitBreaker) (st : CircuitBreakerStats) : CircuitBreaker :=
  mkBreaker (failure_threshold b) (recovery_timeout b) (half_open_max_calls b)
    (fallback b) (_state b) st (_half_open_calls b).

Definition with_half_open_calls (b : CircuitBreaker) (n : Z) : CircuitBreaker :=
  mkBreaker (failure_threshold b) (recovery_timeout b) (half_open_max_calls b)
    (fallback b) (_state b) (_stats b) n.

Definition log_change (st : CircuitBreakerStats) (c : StateChange) : CircuitBreakerStats :=
  mkStats (total_calls st) (success_count st) (failure_count st)
    (consecutive_failures st) (last_failure_time st) (state_changes st ++ [c]).

(** [CircuitBreaker._transition_to]. *)
Definition _transition_to (b : CircuitBreaker) (new_state : CircuitState) (now : Q)
    : CircuitBreaker :=
  if negb (CircuitState_eqb (_state b) new_state) then
    let old_state := _state b in
    let b1 := with_state b new_state in
    let b2 := with_stats b1 (log_change (_stats b1) (mkStateChange old_state new_state now)) in
    if CircuitState_eqb new_state HALF_OPEN then with_half_open_calls b2 0 else b2
  else b.

(** The [state] property: the breaker after the lazy check, and the state
    the caller observes. *)
Definition state (b : CircuitBreaker) (now : Q) : CircuitBreaker * CircuitState :=
  let b' :=
    if CircuitState_eqb (_state b) OPEN then
      if Qle_bool (recovery_timeout b) (now - last_failure_time (_stats b))
      then _transition_to b HALF_OPEN now
      else b
    else b in
  (b', _state b').

(** [CircuitBreaker._record_success]. *)
Definition _record_success (b : CircuitBreaker) (now : Q) : CircuitBreaker :=
  let st := _stats b in
  let b1 := with_stats b
    (mkStats (total_calls st + 1) (success_count st + 1) (failure_count st)
       0 (last_failure_time st) (state_changes st)) in
  if CircuitState_eqb (_state b1) HALF_OPEN then
    let b2 := with_half_open_calls b1 (_half_open_calls b1 + 1) in
    if half_open_max_calls b2 <=? _half_open_calls b2
    then _transition_to b2 CLOSED now
    else b2
  else b1.

(** [CircuitBreaker._record_failure]. *)
Definition _record_failure (b : CircuitBreaker) (now : Q) : CircuitBreaker :=
  let st := _stats b in
  let b1 := with_stats b
    (mkStats (total_calls st + 1) (success_count st) (failure_count st + 1)
       (consecutive_failures st + 1) now (state_changes st)) in
  if CircuitState_eqb (_state b1) CLOSED then
    if failure_threshold b1 <=? consecutive_failures (_stats b1)
    then _transition_to b1 OPEN now
    else b1
  else if CircuitState_eqb (_state b1) HALF_OPEN then
    _transition_to b1 OPEN now
  else b1.

(** The part of [call_sync] and [call_async] after the state check:
    [if state == OPEN: ...] followed by the [try] block. *)
Definition guarded_call (b : CircuitBreaker) (st : CircuitState)
    (func : callable) (w : W) : CircuitBreaker * W * outcome R E :=
  if CircuitState_eqb st OPEN then
    match fallback b with
    | Some fb => let '(w', o) := fb w in (b, w', o)
    | None => (b, w, Raised CircuitOpenError)
    end
  else
    let '(w1, o) := func w in
    match o with
    | Returned r => (_record_success b (clock w1), w1, Returned r)
    | Raised e =>
        let b' := _record_failure b (clock w1) in
        match fallback b' with
        | Some fb => let '(w2, o2) := fb w1 in (b', w2, o2)
        | None => (b', w1, Raised e)
        end
    end.

(** [CircuitBreaker.call_sync]. *)
Definition call_sync (b : CircuitBreaker) (func : callable) (w : W)
    : CircuitBreaker * W * outcome R E :=
  let '(b1, st) := state b (clock w) in
  guarded_call b1 st func w.

(** [CircuitBreaker.call_async], run with no other task interleaved: the
    lock only brackets the state check and the two recordings, and a
    coroutine [func] is awaited where a plain one is called. *)
Definition call_async (b : CircuitBreaker) (func : callable) (w : W)
    : CircuitBreaker * W * outcome R E :=
  let '(b1, st) := state b (clock w) in
  guarded_call b1 st func w.

(** [CircuitBreaker.reset]. *)
Definition reset (b : CircuitBreaker) : CircuitBreaker :=
  with_half_open_calls (with_stats (with_state b CLOSED) fresh_stats) 0.

(** A run of recorded failures, resp. successes, at the given clock
    readings. *)
Definition record_failures (b : CircuitBreaker) (ts : list Q) : CircuitBreaker :=
  fold_left _record_failure ts b.

Definition record_successes (b : CircuitBreaker) (ts : list Q) : CircuitBreaker :=
  fold_left _record_success ts b.

End WithWorld.

Arguments CircuitBreaker : clear implicits.
Arguments callable : clear implicits.

End Breaker.

(** ** The [str] methods the core uses *)

Module PyStr.

(** [c.isspace()] for a character of the ASCII range: TAB, LF, VT, FF, CR,
    the separators FS, GS, RS, US, and the space. *)
Definition is_space (c : ascii) : bool :=
  let n := nat_of_ascii c in
  ((9 <=? n)%nat && (n <=? 13)%nat) || ((28 <=? n)%nat && (n <=? 32)%nat).

Fixpoint lstrip (s : string) : string :=
  match s with
  | EmptyString => EmptyString
  | String c s' => if is_space c then lstrip s' else s
  end.

Fixpoint rstrip (s : string) : string :=
  match s with
  | EmptyString => EmptyString
  | String c s' =>
      match rstrip s' with
      | EmptyString => if is_space c then EmptyString else String c EmptyString
      | r => String c r
      end
  end.

(** [s.strip()] for the white space of the ASCII range. *)
Definition strip (s : string) : string := rstrip (lstrip s).

Definition lower_char (c : ascii) : ascii :=
  let n := nat_of_ascii c in
  if ((65 <=? n)%nat && (n <=? 90)%nat)%bool then ascii_of_nat (n + 32) else c.

(** [s.lower()] for the letters of the ASCII range. *)
Fixpoint lower (s : string) : string :=
  match s with
  | EmptyString => EmptyString
  | String c s' => String (lower_char c) (lower s')
  end.

(** [needle in hay]. *)
Fixpoint contains (needle hay : string) : bool :=
  String.prefix needle hay ||
  match hay with
  | EmptyString => false
  | String _ hay' => contains needle hay'
  end.

End PyStr.

(** ** Insertion-ordered [dict] with [str] keys, [sorted] and float tests *)

Module PyDict.

Definition dict (V : Type) : Type := list (string * V).

(** [d.get(k)], and [k in d] as [is_Some (dict_get k d)]. *)
Definition dict_get {V : Type} (k : string) (d : dict V) : option V :=
  match List.find (fun p => String.eqb p.1 k) d with
  | Some p => Some p.2
  | None => None
  end.

(** [d[k] = v]: an existing key keeps its position, a new one goes last. *)
Fixpoint dict_set {V : Type} (k : string) (v : V) (d : dict V) : dict V :=
  match d with
  | [] => [(k, v)]
  | (k', v') :: d' =>
      if String.eqb k' k then (k', v) :: d' else (k', v') :: dict_set k v d'
  end.

(** [del d[k]] for a key that may be absent. *)
Definition dict_del {V : Type} (k : string) (d : dict V) : dict V :=
  List.filter (fun p => negb (String.eqb p.1 k)) d.

(** [for k in ks: del d[k]]. *)
Definition del_all {V : Type} (ks : list string) (d : dict V) : dict V :=
  fold_left (fun d k => dict_del k d) ks d.

Definition keys {V : Type} (d : dict V) : list string := map fst d.
Definition values {V : Type} (d : dict V) : list V := map snd d.

(** [sorted(l, key=...)], a stable sort: [le] compares the keys, and of two
    elements with equal keys the one that came first stays first. *)
Fixpoint insert_sorted {A : Type} (le : A -> A -> bool) (x : A) (l : list A) : list A :=
  match l with
  | [] => [x]
  | y :: l' => if le x y then x :: y :: l' else y :: insert_sorted le x l'
  end.

Definition sorted {A : Type} (le : A -> A -> bool) (l : list A) : list A :=
  List.fold_right (insert_sorted le) [] l.

(** [a < b] on floats. *)
Definition Qlt_bool (a b : Q) : bool := negb (Qle_bool b a).

(** The exact sum [0 + l[0] + l[1] + ...] of rationals. *)
Definition sum (l : list Q) : Q := fold_left Qplus l 0%Q.

End PyDict.

(** ** Response cache ([src/core/response_cache.py]) *)

Module Cache.
Import PyStr PyDict.

(** The dataclass [CacheEntry]; [R] is the type of response payloads. *)
Module CacheEntry.
Record t (R : Type) : Type := mk {
  query : string;
  response : R;
  embedding : option (list Q);
  created_at : Q;
  hits : Z;
  ttl : Q
}.
Arguments mk {R}.
Arguments query {R}.
Arguments response {R}.
Arguments embedding {R}.
Arguments created_at {R}.
Arguments hits {R}.
Arguments ttl {R}.

Definition with_hits {R} (e : t R) (h : Z) : t R :=
  mk (query e) (response e) (embedding e) (created_at e) h (ttl e).
Definition with_embedding {R} (e : t R) (v : option (list Q)) : t R :=
  mk (query e) (response e) v (created_at e) (hits e) (ttl e).
End CacheEntry.

(** The [_stats] dictionary. *)
Record Stats : Type := mkStats { hits : Z; misses : Z; semantic_hits : Z }.

(** An embedding function: [None] when [embed_query] raises. *)
Definition embedder : Type := string -> option (list Q).

(** Truth value of an optional embedding: neither [None] nor empty. *)
Definition truthy (v : option (list Q)) : bool :=
  match v with
  | Some (_ :: _) => true
  | _ => false
  end.

Section WithCollaborators.
Context {R : Type}.

(** [str.strip] and [str.lower], which know the white space and the
    letter cases of all of Unicode. *)
Variable py_strip : string -> string.
Variable py_lower : string -> string.
(** [hashlib.sha256(s.encode()).hexdigest()[:16]]. *)
Variable sha256_hex16 : string -> string.
(** [x ** 0.5]. *)
Variable sqrt : Q -> Q.
(** [src.rag.embeddings.get_embeddings()]; [None] when the import or the
    construction raises. *)
Variable get_embeddings : option embedder.

(** The cache object.  [heap] holds every [CacheEntry] object created so
    far; [_exact_cache] and [_semantic_cache] hold addresses into it, so an
    entry reachable from both is one object. *)
Record ResponseCache : Type := mkCache {
  max_size : Z;
  ttl : Q;
  similarity_threshold : Q;
  enable_semantic : bool;
  heap : list (CacheEntry.t R);
  _exact_cache : dict nat;
  _semantic_cache : list nat;
  _stats : Stats;
  _embeddings : option embedder
}.

(** [ResponseCache.__init__]. *)
Definition init (max_size : Z) (ttl similarity_threshold : Q)
    (enable_semantic : bool) : ResponseCache :=
  mkCache max_size ttl similarity_threshold enable_semantic [] [] []
    (mkStats 0 0 0) None.

Definition with_enable_semantic (c : ResponseCache) (b : bool) : ResponseCache :=
  mkCache (max_size c) (ttl c) (similarity_threshold c) b (heap c)
    (_exact_cache c) (_semantic_cache c) (_stats c) (_embeddings c).
Definition with_heap (c : ResponseCache) (h : list (CacheEntry.t R)) : ResponseCache :=
  mkCache (max_size c) (ttl c) (similarity_threshold c) (enable_semantic c) h
    (_exact_cache c) (_semantic_cache c) (_stats c) (_embeddings c).
Definition with_exact (c : ResponseCache) (d : dict nat) : ResponseCache :=
  mkCache (max_size c) (ttl c) (similarity_threshold c) (enable_semantic c) (heap c)
    d (_semantic_cache c) (_stats c) (_embeddings c).
Definition with_semantic (c : ResponseCache) (l : list nat) : ResponseCache :=
  mkCache (max_size c) (ttl c) (similarity_threshold c) (enable_semantic c) (heap c)
    (_exact_cache c) l (_stats c) (_embeddings c).
Definition with_stats (c : ResponseCache) (s : Stats) : ResponseCache :=
  mkCache (max_size c) (ttl c) (similarity_threshold c) (enable_semantic c) (heap c)
    (_exact_cache c) (_semantic_cache c) s (_embeddings c).
Definition with_embeddings (c : ResponseCache) (e : option embedder) : ResponseCache :=
  mkCache (max_size c) (ttl c) (similarity_threshold c) (enable_semantic c) (heap c)
    (_exact_cache c) (_semantic_cache c) (_stats c) e.

(** [self._exact_cache.items()]: each key with the address and the
    current contents of its entry. *)
Definition items (c : ResponseCache) : dict (nat * CacheEntry.t R) :=
  omap (fun p : string * nat =>
          match heap c !! p.2 with
          | Some e => Some (p.1, (p.2, e))
          | None => None
          end) (_exact_cache c).

(** The entries of [self._semantic_cache], with their addresses. *)
Definition semantic_entries (c : ResponseCache) : list (nat * CacheEntry.t R) :=
  omap (fun a : nat =>
          match heap c !! a with
          | Some e => Some (a, e)
          | None => None
          end) (_semantic_cache c).

(** [entry.hits += 1] on the object at address [a]. *)
Definition bump_hits (c : ResponseCache) (a : nat) : ResponseCache :=
  match heap c !! a with
  | Some e => with_heap c (<[a := CacheEntry.with_hits e (CacheEntry.hits e + 1)]> (heap c))
  | None => c
  end.

(** [ResponseCache._get_hash]. *)
Definition _get_hash (query : string) : string :=
  sha256_hex16 (py_lower (py_strip query)).

(** [ResponseCache._get_embedding]. *)
Definition _get_embedding (c : ResponseCache) (query : string)
    : ResponseCache * option (list Q) :=
  if negb (enable_semantic c) then (c, None)
  else
    match _embeddings c with
    | Some emb => (c, emb query)
    | None =>
        match get_embeddings with
        | Some emb => (with_embeddings c (Some emb), emb query)
        | None => (with_enable_semantic c false, None)
        end
    end.

(** [ResponseCache._cosine_similarity]. *)
Definition _cosine_similarity (a b : list Q) : Q :=
  let dot_product := sum (map (fun xy : Q * Q => (xy.1 * xy.2)%Q) (combine a b)) in
  let norm_a := sqrt (sum (map (fun x : Q => (x * x)%Q) a)) in
  let norm_b := sqrt (sum (map (fun x : Q => (x * x)%Q) b)) in
  if Qeq_bool norm_a 0 || Qeq_bool norm_b 0 then 0%Q
  else (dot_product / (norm_a * norm_b))%Q.

(** [now - e.created_at > e.ttl]. *)
Definition expired (now : Q) (e : CacheEntry.t R) : bool :=
  Qlt_bool (CacheEntry.ttl e) (now - CacheEntry.created_at e).

(** [ResponseCache._cleanup_expired]. *)
Definition _cleanup_expired (c : ResponseCache) (now : Q) : ResponseCache :=
  let expired_keys :=
    map fst (List.filter (fun kv => expired now kv.2.2) (items c)) in
  let c1 := with_exact c (del_all expired_keys (_exact_cache c)) in
  with_semantic c1
    (map fst (List.filter
                (fun ae => Qle_bool (now - CacheEntry.created_at ae.2) (CacheEntry.ttl ae.2))
                (semantic_entries c1))).

(** The sort key [(x[1].hits, x[1].created_at)] and the order of two such
    tuples. *)
Definition lru_le (x y : string * (nat * CacheEntry.t R)) : bool :=
  let hx := CacheEntry.hits x.2.2 in
  let hy := CacheEntry.hits y.2.2 in
  (hx <? hy) ||
  ((hx =? hy) && Qle_bool (CacheEntry.created_at x.2.2) (CacheEntry.created_at y.2.2)).

(** [ResponseCache._evict_lru]. *)
Definition _evict_lru (c : ResponseCache) : ResponseCache :=
  if max_size c <=? Z.of_nat (length (_exact_cache c)) then
    let sorted_items := sorted lru_le (items c) in
    let to_remove := Z.max 1 (Z.of_nat (length sorted_items) / 10) in
    with_exact c
      (del_all (map fst (firstn (Z.to_nat to_remove) sorted_items))
         (_exact_cache c))
  else c.

(** The loop of [get] over [self._semantic_cache]: the best match so far
    and its score. *)
Definition best_match_step (query_embedding : list Q)
    (acc : option (nat * CacheEntry.t R) * Q) (ae : nat * CacheEntry.t R)
    : option (nat * CacheEntry.t R) * Q :=
  match CacheEntry.embedding ae.2 with
  | Some (x :: v) =>
      let score := _cosine_similarity query_embedding (x :: v) in
      if Qlt_bool acc.2 score then (Some ae, score) else acc
  | _ => acc
  end.

(** The semantic branch of [get], entered when [enable_semantic] holds and
    [_semantic_cache] is not empty: the cache after [_get_embedding] and
    the accepted match, if any. *)
Definition semantic_match (c : ResponseCache) (query : string)
    : ResponseCache * option (nat * CacheEntry.t R) :=
  let '(c1, query_embedding) := _get_embedding c query in
  match query_embedding with
  | Some (x :: v) =>
      let '(best_match, best_score) :=
        fold_left (best_match_step (x :: v)) (semantic_entries c1) (None, 0%Q) in
      match best_match with
      | Some ae =>
          if Qle_bool (similarity_threshold c1) best_score
          then (c1, Some ae) else (c1, None)
      | None => (c1, None)
      end
  | _ => (c1, None)
  end.

(** The guard [if self.enable_semantic and self._semantic_cache] and the
    branch it protects. *)
Definition semantic_lookup (c : ResponseCache) (query : string)
    : ResponseCache * option (nat * CacheEntry.t R) :=
  if enable_semantic c && negb (Nat.eqb (length (_semantic_cache c)) 0)
  then semantic_match c query
  else (c, None).

(** [ResponseCache.get]: the cache afterwards and the returned value,
    [None] for a miss. *)
Definition get (c : ResponseCache) (query : string) (now : Q)
    : ResponseCache * option R :=
  let c1 := _cleanup_expired c now in
  let query_hash := _get_hash query in
  match dict_get query_hash (items c1) with
  | Some (a, entry) =>
      let c2 := bump_hits c1 a in
      let st := _stats c2 in
      (with_stats c2 (mkStats (hits st + 1) (misses st) (semantic_hits st)),
       Some (CacheEntry.response entry))
  | None =>
      let '(c2, found) := semantic_lookup c1 query in
      match found with
      | Some (a, best_match) =>
          let c3 := bump_hits c2 a in
          let st := _stats c3 in
          (with_stats c3 (mkStats (hits st + 1) (misses st) (semantic_hits st + 1)),
           Some (CacheEntry.response best_match))
      | None =>
          let st := _stats c2 in
          (with_stats c2 (mkStats (hits st) (misses st + 1) (semantic_hits st)), None)
      end
  end.

(** [ttl or self.ttl]: [None] and [0.0] both select the default. *)
Definition ttl_or_default (c : ResponseCache) (ttl_arg : option Q) : Q :=
  match ttl_arg with
  | Some t => if Qeq_bool t 0 then ttl c else t
  | None => ttl c
  end.

(** [ResponseCache.set]. *)
Definition set (c : ResponseCache) (query : string) (response : R)
    (ttl_arg : option Q) (now : Q) : ResponseCache :=
  let c1 := _evict_lru c in
  let query_hash := _get_hash query in
  let entry := CacheEntry.mk query response None now 0 (ttl_or_default c1 ttl_arg) in
  let a := length (heap c1) in
  let c2 := with_heap c1 (heap c1 ++ [entry]) in
  let c3 := with_exact c2 (dict_set query_hash a (_exact_cache c2)) in
  if enable_semantic c3 then
    let '(c4, emb) := _get_embedding c3 query in
    let c5 := with_heap c4 (<[a := CacheEntry.with_embedding entry emb]> (heap c4)) in
    if truthy emb then with_semantic c5 (_semantic_cache c5 ++ [a]) else c5
  else c3.

(** [ResponseCache.invalidate]. *)
Definition invalidate (c : ResponseCache) (query : string) : ResponseCache :=
  let query_hash := _get_hash query in
  match dict_get query_hash (_exact_cache c) with
  | Some _ => with_exact c (dict_del query_hash (_exact_cache c))
  | None => c
  end.

(** [ResponseCache.clear]. *)
Definition clear (c : ResponseCache) : ResponseCache :=
  with_semantic (with_exact c []) [].

(** What the methods maintain: the keys of [_exact_cache] are distinct, as
    those of a [dict] are, and its values are addresses of allocated
    entries. *)
Definition well_formed (c : ResponseCache) : Prop :=
  List.NoDup (keys (_exact_cache c)) /\
  Forall (fun p : string * nat => (p.2 < length (heap c))%nat) (_exact_cache c).

(** A call of one of the public methods, with the clock reading it sees. *)
Inductive call : Type :=
  | CallSet (query : string) (response : R) (ttl_arg : option Q) (now : Q)
  | CallGet (query : string) (now : Q)
  | CallInvalidate (query : string)
  | CallClear.

Definition step (c : ResponseCache) (op : call) : ResponseCache :=
  match op with
  | CallSet q r t now => set c q r t now
  | CallGet q now => (get c q now).1
  | CallInvalidate q => invalidate c q
  | CallClear => clear c
  end.

Definition run (c : ResponseCache) (ops : list call) : ResponseCache :=
  fold_left step ops c.

End WithCollaborators.

Arguments ResponseCache : clear implicits.
Arguments call : clear implicits.

End Cache.

(** ** A/B test manager ([src/core/ab_testing.py]) *)

Module ABTest.
Import PyDict PrimFloat.

Local Open Scope string_scope.

(** Weights, their sums and the bucket are Python [float]s, that is IEEE 754
    binary64 numbers ([float]) with their rounding, infinities and NaN. *)

(** [float(n)] for an [int] below [2 ** 53], where the conversion is
    exact. *)
Fixpoint float_of_pos (p : positive) : float :=
  match p with
  | xH => 1%float
  | xO p' => PrimFloat.mul 2%float (float_of_pos p')
  | xI p' => PrimFloat.add (PrimFloat.mul 2%float (float_of_pos p')) 1%float
  end.

Definition float_of_Z (z : Z) : float :=
  match z with
  | Z0 => 0%float
  | Zpos p => float_of_pos p
  | Zneg p => PrimFloat.opp (float_of_pos p)
  end.

(** The dataclass [Experiment]; [variants] is a [dict] read in insertion
    order. *)
Record Experiment : Type := mkExperiment {
  name : string;
  variants : dict float;
  enabled : bool;
  created_at : Q;
  description : string
}.

(** The exceptions the manager raises: the two [ValueError]s, told apart by
    what they report, and the [IndexError] of indexing an empty list. *)
Inductive exn : Type :=
  | WeightsError (total_weight : float)
  | NoSuchExperiment (experiment_name : string)
  | IndexError.

(** [abs(total_weight - 1.0) > 0.01]; the literal [0.01] is the binary64
    number nearest to one hundredth.  The test is false for a NaN. *)
Definition weights_off (total_weight : float) : bool :=
  PrimFloat.ltb 0x1.47ae147ae147bp-7%float
    (PrimFloat.abs (PrimFloat.sub total_weight 1%float)).

(** The loop of [get_variant] over [experiment.variants.items()]:
    [cumulative += weight], then [bucket < cumulative]. *)
Fixpoint walk (bucket cumulative : float) (items : dict float) : option string :=
  match items with
  | [] => None
  | (variant, weight) :: rest =>
      let cumulative := PrimFloat.add cumulative weight in
      if PrimFloat.ltb bucket cumulative then Some variant else walk bucket cumulative rest
  end.

(** [l[0]] and [l[-1]]. *)
Definition first_item (l : list string) : exn + string :=
  match l with
  | x :: _ => inr x
  | [] => inl IndexError
  end.

Definition last_item (l : list string) : exn + string :=
  match List.rev l with
  | x :: _ => inr x
  | [] => inl IndexError
  end.

Section WithDigest.
(** [M] is the type of the [metrics] dictionaries. *)
Context {M : Type}.

(** [int(hashlib.md5(s.encode()).hexdigest(), 16)]. *)
Variable md5_int : string -> Z.

(** The builtin [sum] on a non-empty list of floats: left-to-right addition
    from 0 up to Python 3.11, with compensation of the rounding errors from
    Python 3.12. *)
Variable float_sum : list float -> float.

(** [sum(l)]; the sum of no numbers is the [int] 0. *)
Definition sum (l : list float) : float :=
  match l with
  | [] => 0%float
  | _ :: _ => float_sum l
  end.

(** The dataclass [ExperimentResult]. *)
Record ExperimentResult : Type := mkResult {
  experiment_name : string;
  variant : string;
  session_id : string;
  metrics : M;
  timestamp : Q
}.

Record ABTestManager : Type := mkManager {
  experiments : gmap string Experiment;
  results : list ExperimentResult
}.

(** [ABTestManager.create_experiment]: the manager afterwards, and the raised
    exception or the returned experiment. *)
Definition create_experiment (m : ABTestManager) (name : string)
    (variants : dict float) (description : string) (now : Q)
    : ABTestManager * (exn + Experiment) :=
  let total_weight := sum (values variants) in
  if weights_off total_weight then (m, inl (WeightsError total_weight))
  else
    let experiment := mkExperiment name variants true now description in
    (mkManager (<[name := experiment]> (experiments m)) (results m), inr experiment).

(** [ABTestManager.__init__] with [_init_default_experiments]; the three
    calls do not raise, [1.0 + 0.0] being [1.0] however it is summed. *)
Definition init (now : Q) : ABTestManager :=
  let m0 := mkManager ∅ [] in
  let m1 := (create_experiment m0 "llm_provider"
               [("dashscope", 1%float); ("openai", 0%float)] "主备模型对比" now).1 in
  let m2 := (create_experiment m1 "prompt_version"
               [("v1", 1%float); ("v2", 0%float)] "Prompt 版本对比" now).1 in
  (create_experiment m2 "cache_enabled"
     [("enabled", 1%float); ("disabled", 0%float)] "响应缓存开关" now).1.

(** [(hash_value % 10000) / 10000] for [f"{experiment_name}:{session_id}"]:
    the quotient of two [int]s below [2 ** 53], rounded once. *)
Definition bucket_of (experiment_name session_id : string) : float :=
  let hash_input := experiment_name ++ ":" ++ session_id in
  let hash_value := md5_int hash_input in
  PrimFloat.div (float_of_Z (hash_value mod 10000)) (float_of_Z 10000).

(** [ABTestManager.get_variant]. *)
Definition get_variant (m : ABTestManager) (experiment_name session_id : string)
    : exn + string :=
  match experiments m !! experiment_name with
  | None => inr "default"
  | Some experiment =>
      if negb (enabled experiment) then first_item (keys (variants experiment))
      else
        let bucket := bucket_of experiment_name session_id in
        match walk bucket 0%float (variants experiment) with
        | Some variant => inr variant
        | None => last_item (keys (variants experiment))
        end
  end.

(** [ABTestManager.record_result]. *)
Definition record_result (m : ABTestManager) (experiment_name session_id : string)
    (metrics : M) (now : Q) : ABTestManager * (exn + unit) :=
  match get_variant m experiment_name session_id with
  | inl e => (m, inl e)
  | inr variant =>
      let result := mkResult experiment_name variant session_id metrics now in
      (mkManager (experiments m) (results m ++ [result]), inr tt)
  end.

(** [ABTestManager.update_traffic]. *)
Definition update_traffic (m : ABTestManager) (experiment_name : string)
    (variants : dict float) : ABTestManager * (exn + unit) :=
  match experiments m !! experiment_name with
  | None => (m, inl (NoSuchExperiment experiment_name))
  | Some experiment =>
      let total_weight := sum (values variants) in
      if weights_off total_weight then (m, inl (WeightsError total_weight))
      else
        let experiment' :=
          mkExperiment (name experiment) variants (enabled experiment)
            (created_at experiment) (description experiment) in
        (mkManager (<[experiment_name := experiment']> (experiments m)) (results m),
         inr tt)
  end.

(** [ABTestManager.enable_experiment]. *)
Definition enable_experiment (m : ABTestManager) (experiment_name : string)
    (flag : bool) : ABTestManager :=
  match experiments m !! experiment_name with
  | None => m
  | Some experiment =>
      let experiment' :=
        mkExperiment (name experiment) (variants experiment) flag
          (created_at experiment) (description experiment) in
      mkManager (<[experiment_name := experiment']> (experiments m)) (results m)
  end.

(** *** The rules in the words of the specification *)

(** The weights sum to within 0.01 of 1.0: [abs(total_weight - 1.0) <= 0.01].
    Like every comparison, it is false for a NaN. *)
Definition sums_to_one (total_weight : float) : bool :=
  PrimFloat.leb (PrimFloat.abs (PrimFloat.sub total_weight 1%float))
    0x1.47ae147ae147bp-7%float.

(** The cumulative weight of the variants up to and including the one at
    position [i] in declared order: the weights added one after the other,
    from 0.0. *)
Definition cumulative_weight (vs : dict float) (i : nat) : float :=
  fold_left PrimFloat.add (firstn (S i) (values vs)) 0%float.

(** The first variant, in declared order, whose cumulative weight exceeds
    [bucket]. *)
Definition first_exceeding (bucket : float) (vs : dict float) : option string :=
  match List.find (fun i => PrimFloat.ltb bucket (cumulative_weight vs i))
                  (seq 0 (length vs)) with
  | Some i => nth_error (keys vs) i
  | None => None
  end.

(** [getVariant] as the specification words it: the first declared
    variant for an unknown or disabled experiment, otherwise the first
    variant whose cumulative weight exceeds the bucket, or the last
    declared one.  [None] where the specification names a variant that
    does not exist. *)
Definition getVariant_spec (m : ABTestManager) (experiment_name session_id : string)
    : option string :=
  let declared :=
    match experiments m !! experiment_name with
    | Some experiment => keys (variants experiment)
    | None => []
    end in
  match experiments m !! experiment_name with
  | Some experiment =>
      if enabled experiment then
        match first_exceeding (bucket_of experiment_name session_id)
                (variants experiment) with
        | Some v => Some v
        | None => List.last (map Some declared) None
        end
      else List.head declared
  | None => List.head declared
  end.

End WithDigest.

Arguments ABTestManager : clear implicits.
Arguments ExperimentResult : clear implicits.

End ABTest.

(** ** Intent dispatcher ([src/graphs/customer_service_graph.py]) *)

Module Supervisor.
Import PyStr.

Local Open Scope string_scope.

(** The local list [valid_agents] of [SupervisorAgent.route]. *)
Definition valid_agents : list string :=
  ["ProductAgent"; "OrderAgent"; "AfterSalesAgent"; "ChitchatAgent"].

(** [SupervisorAgent.route] from [response.content] on: the loop returns at
    the first identifier that occurs in the response. *)
Definition route_response (content : string) : string :=
  let agent_name := strip content in
  match List.find (fun valid_agent => contains (lower valid_agent) (lower agent_name))
                  valid_agents with
  | Some valid_agent => valid_agent
  | None => "ChitchatAgent"
  end.

Section WithModel.
(** [ROUTING_PROMPT.format(user_input=...)] and
    [self.llm.invoke(prompt).content]. *)
Variable routing_prompt : string -> string.
Variable invoke : string -> string.

(** [SupervisorAgent.route]. *)
Definition route (user_input : string) : string :=
  route_response (invoke (routing_prompt user_input)).
End WithModel.

(** The routing rule in the words of the specification: a response that is
    one of the identifiers, letter case aside, selects it, and any other
    response selects the fallback. *)
Definition route_spec (content : string) : string :=
  match List.find (fun valid_agent => String.eqb (lower valid_agent) (lower content))
                  valid_agents with
  | Some valid_agent => valid_agent
  | None => "ChitchatAgent"
  end.

(** [needle] occurs in [hay]. *)
Definition occurs (needle hay : string) : Prop :=
  exists pre post, hay = (pre ++ needle ++ post)%string.

End Supervisor.

(** ** Response cache: statistics *)

Module CacheMore.
Import PyDict Cache.

(** The dictionary [get_stats] returns. *)
Record StatsReport : Type := mkReport {
  size : Z;
  semantic_size : Z;
  report_max_size : Z;
  report_hits : Z;
  report_misses : Z;
  report_semantic_hits : Z;
  hit_rate : Q
}.

Section WithRound.
Context {R : Type}.

(** [round(x, 4)]. *)
Variable round4 : Q -> Q.

(** [ResponseCache.get_stats]. *)
Definition get_stats (c : ResponseCache R) : StatsReport :=
  let total := hits (_stats c) + misses (_stats c) in
  let hit_rate :=
    if 0 <? total then (inject_Z (hits (_stats c)) / inject_Z total)%Q else 0%Q in
  mkReport (Z.of_nat (length (_exact_cache c)))
    (Z.of_nat (length (_semantic_cache c)))
    (max_size c)
    (hits (_stats c)) (misses (_stats c)) (semantic_hits (_stats c))
    (round4 hit_rate).

End WithRound.

(** The number of [get] calls in a sequence of calls. *)
Definition count_gets {R : Type} (ops : list (call R)) : nat :=
  length (List.filter (fun op => match op with CallGet _ _ => true | _ => false end) ops).

(** What [_evict_lru] removes and keeps: the items of the store before it
    whose key is gone, resp. still there, afterwards. *)
Definition evicted {R : Type} (c : ResponseCache R) : dict (nat * CacheEntry.t R) :=
  List.filter (fun kv => negb (existsb (String.eqb kv.1) (keys (_exact_cache (_evict_lru c)))))
    (items c).

Definition retained {R : Type} (c : ResponseCache R) : dict (nat * CacheEntry.t R) :=
  List.filter (fun kv => existsb (String.eqb kv.1) (keys (_exact_cache (_evict_lru c))))
    (items c).

(** Every address in the semantic store is that of an entry with a
    non-empty embedding. *)
Definition semantic_ok {R : Type} (c : ResponseCache R) : Prop :=
  Forall (fun a : nat =>
            exists e, heap c !! a = Some e /\ truthy (CacheEntry.embedding e) = true)
    (_semantic_cache c).

End CacheMore.

(** ** Circuit breaker: histories and what they keep *)

Module BreakerMore.
Import Breaker.

(** The transitions the breaker makes: Closed to Open, Open to Half-Open,
    Half-Open to Open or to Closed. *)
Definition legal_change (c : StateChange) : bool :=
  match sc_from c, sc_to c with
  | CLOSED, OPEN | OPEN, HALF_OPEN | HALF_OPEN, OPEN | HALF_OPEN, CLOSED => true
  | _, _ => false
  end.

(** Reading a transition log from the state [s]: the state it ends in, when
    every entry is a legal transition that starts where the one before it
    ended. *)
Fixpoint follow_log (s : CircuitState) (log : list StateChange) : option CircuitState :=
  match log with
  | [] => Some s
  | c :: rest =>
      if CircuitState_eqb (sc_from c) s && legal_change c
      then follow_log (sc_to c) rest
      else None
  end.

Section WithWorld.
Context {W R E : Type}.
Variable clock : W -> Q.

(** What can be done to a breaker from outside: reading [state], a
    protected call, [reset()]. *)
Inductive event : Type :=
  | Check (now : Q)
  | CallSync (func : callable W R E) (w : W)
  | CallAsync (func : callable W R E) (w : W)
  | Reset.

Definition apply_event (b : CircuitBreaker W R E) (e : event) : CircuitBreaker W R E :=
  match e with
  | Check now => (state b now).1
  | CallSync func w => (call_sync clock b func w).1.1
  | CallAsync func w => (call_async clock b func w).1.1
  | Reset => reset b
  end.

Definition replay (b : CircuitBreaker W R E) (es : list event) : CircuitBreaker W R E :=
  fold_left apply_event es b.

(** The counters agree with each other and with the state. *)
Definition counters_ok (b : CircuitBreaker W R E) : Prop :=
  let st := _stats b in
  total_calls st = success_count st + failure_count st /\
  0 <= success_count st /\
  0 <= consecutive_failures st <= failure_count st /\
  0 <= _half_open_calls b /\
  (_state b = CLOSED -> consecutive_failures st < failure_threshold b) /\
  (_state b = HALF_OPEN -> _half_open_calls b < half_open_max_calls b).

(** The transition log leads from Closed to the current state. *)
Definition log_ok (b : CircuitBreaker W R E) : Prop :=
  follow_log CLOSED (state_changes (_stats b)) = Some (_state b).

(** [b'] has the configuration of [b]. *)
Definition same_config (b b' : CircuitBreaker W R E) : Prop :=
  failure_threshold b' = failure_threshold b /\
  half_open_max_calls b' = half_open_max_calls b /\
  recovery_timeout b' = recovery_timeout b /\
  fallback b' = fallback b.

End WithWorld.

Arguments event : clear implicits.

End BreakerMore.

(** ** Retry decorator ([with_retry] in [src/core/circuit_breaker.py]) *)

Module Retry.
Import PyDict.

(** What the wrapper raises: an exception of the wrapped function, the
    [TypeError] of [raise None], or the [ValueError] of [time.sleep] called
    with a negative number. *)
Inductive raised (E : Type) : Type :=
  | TypeError
  | ValueError
  | Propagated (e : E).
Arguments TypeError {E}.
Arguments ValueError {E}.
Arguments Propagated {E} e.

(** What the wrapper does besides returning: calls of the wrapped function
    and calls of [time.sleep]. *)
Inductive effect : Type :=
  | Called
  | Slept (delay : Q).



Section WithFunction.
(** [W] is the outside world, [R] the values and [E] the exceptions of the
    wrapped function. *)
Context {W R E : Type}.

(** The arguments of [with_retry]; [retryable e] is
    [isinstance(e, retryable_exceptions)]. *)
Variable max_retries : Z.
Variable retry_delay : Q.
Variable exponential_backoff : bool.
Variable retryable : E -> bool.

(** Sleeping for a non-negative time.  [time.sleep] raises [ValueError]
    for a negative one; [asyncio.sleep] returns at once for a negative one
    and for 0. *)
Variable sleep : Q -> W -> W.

(** The wrapped function, applied to fixed arguments. *)
Variable func : W -> W * (E + R).

(** [retry_delay * (2 ** attempt if exponential_backoff else 1)]. *)
Definition delay_of (attempt : Z) : Q :=
  (retry_delay * inject_Z (if exponential_backoff then 2 ^ attempt else 1))%Q.

(** The loop [for attempt in range(max_retries + 1)] with [n] iterations
    left, followed by [raise last_exception]; [blocking] tells
    [time.sleep] from [asyncio.sleep]. *)
Fixpoint retry_loop (blocking : bool) (n : nat) (attempt : Z) (last_exception : option E)
    (w : W) (trace : list effect) : W * (raised E + R) * list effect :=
  match n with
  | O =>
      (w,
       match last_exception with
       | Some e => inl (Propagated e)
       | None => inl TypeError
       end,
       trace)
  | S n' =>
      let '(w1, o) := func w in
      match o with
      | inr r => (w1, inr r, trace ++ [Called])
      | inl e =>
          if retryable e then
            if attempt <? max_retries then
              let delay := delay_of attempt in
              if Qlt_bool delay 0 then
                if blocking then (w1, inl ValueError, trace ++ [Called])
                else retry_loop blocking n' (attempt + 1) (Some e) w1
                       (trace ++ [Called; Slept delay])
              else
                retry_loop blocking n' (attempt + 1) (Some e) (sleep delay w1)
                  (trace ++ [Called; Slept delay])
            else
              retry_loop blocking n' (attempt + 1) (Some e) w1 (trace ++ [Called])
          else (w1, inl (Propagated e), trace ++ [Called])
      end
  end.

(** [sync_wrapper] of [with_retry(...)(func)]. *)
Definition sync_wrapper (w : W) : W * (raised E + R) * list effect :=
  retry_loop true (Z.to_nat (max_retries + 1)) 0 None w [].

(** [async_wrapper]: the same loop, with [await asyncio.sleep]. *)
Definition async_wrapper (w : W) : W * (raised E + R) * list effect :=
  retry_loop false (Z.to_nat (max_retries + 1)) 0 None w [].

End WithFunction.


End Retry.

(** ** A/B test manager: call sequences and statistics *)

Module ABMore.
Import PyDict ABTest.

Local Open Scope string_scope.

Section WithDigest.
Context {M : Type}.
Variable md5_int : string -> Z.
Variable float_sum : list PrimFloat.float -> PrimFloat.float.

(** A call of one of the methods that change the manager. *)
Inductive call : Type :=
  | CallCreate (name : string) (variants : dict PrimFloat.float) (description : string)
      (now : Q)
  | CallUpdate (experiment_name : string) (variants : dict PrimFloat.float)
  | CallEnable (experiment_name : string) (flag : bool)
  | CallRecord (experiment_name session_id : string) (metrics : M) (now : Q).

(** The manager after the call; a call that raises leaves it as it was. *)
Definition step (m : ABTestManager M) (op : call) : ABTestManager M :=
  match op with
  | CallCreate name variants description now =>
      (create_experiment float_sum m name variants description now).1
  | CallUpdate experiment_name variants =>
      (update_traffic float_sum m experiment_name variants).1
  | CallEnable experiment_name flag => enable_experiment m experiment_name flag
  | CallRecord experiment_name session_id metrics now =>
      (record_result md5_int m experiment_name session_id metrics now).1
  end.

Definition run (m : ABTestManager M) (ops : list call) : ABTestManager M :=
  fold_left step ops m.

(** The experiment a call writes to, if any. *)
Definition target (op : call) : option string :=
  match op with
  | CallCreate name _ _ _ => Some name
  | CallUpdate experiment_name _ => Some experiment_name
  | CallEnable experiment_name _ => Some experiment_name
  | CallRecord _ _ _ _ => None
  end.

(** The weights of an experiment pass the test of [create_experiment] and
    [update_traffic]: [abs(sum(weights) - 1.0) > 0.01] is false. *)
Definition weights_valid (e : Experiment) : Prop :=
  weights_off (sum float_sum (values (variants e))) = false.

(** Every stored experiment has weights that pass the test and is stored
    under its own name. *)
Definition experiments_ok (m : ABTestManager M) : Prop :=
  forall n e, experiments m !! n = Some e -> weights_valid e /\ name e = n.

End WithDigest.

Arguments call : clear implicits.


(** *** [get_experiment_stats] *)

(** A metric value: a number ([int], [float] or [bool]) or anything else. *)
Inductive value : Type :=
  | Num (x : Q)
  | Other.

(** The statistics of one metric key: [key_avg], [key_min], [key_max]. *)
Record MetricStats : Type := mkMetricStats {
  metric_key : string;
  metric_avg : Q;
  metric_min : Q;
  metric_max : Q
}.

(** The statistics of one variant: ["count"] and one triple per key of the
    first result that has numeric values. *)
Record VariantStats : Type := mkVariantStats {
  count : Z;
  metric_stats : list MetricStats
}.

(** The dictionary [get_experiment_stats] returns for a known experiment. *)
Record StatsReport : Type := mkStatsReport {
  report_experiment : string;
  report_description : string;
  report_enabled : bool;
  report_variants : dict VariantStats
}.

Section Stats.
(** [round(x, 3)]. *)
Variable round3 : Q -> Q.

Definition Qmin_bool (a b : Q) : Q := if Qle_bool a b then a else b.
Definition Qmax_bool (a b : Q) : Q := if Qle_bool a b then b else a.

(** [variant_results[result.variant].append(result.metrics)] over the
    results of the experiment. *)
Definition group_results (experiment_name : string)
    (results : list (ExperimentResult (dict value))) : dict (list (dict value)) :=
  fold_left
    (fun groups result =>
       if String.eqb (ABTest.experiment_name result) experiment_name then
         let sofar := match dict_get (variant result) groups with
                      | Some l => l
                      | None => []
                      end in
         dict_set (variant result) (sofar ++ [metrics result])%list groups
       else groups)
    results [].

(** [[r[key] for r in results if isinstance(r.get(key), (int, float))]]. *)
Definition numeric_values (key : string) (results : list (dict value)) : list Q :=
  omap (fun r => match dict_get key r with
                 | Some (Num x) => Some x
                 | _ => None
                 end) results.

(** The body of the loop over [variant_results.items()] for one variant. *)
Definition variant_stats (results : list (dict value)) : VariantStats :=
  let first_keys := match results with
                    | r0 :: _ => keys r0
                    | [] => []
                    end in
  mkVariantStats (Z.of_nat (length results))
    (omap (fun key =>
             match numeric_values key results with
             | [] => None
             | x :: xs =>
                 Some (mkMetricStats key
                         (round3 (PyDict.sum (x :: xs) / inject_Z (Z.of_nat (length (x :: xs)))))
                         (fold_left Qmin_bool xs x)
                         (fold_left Qmax_bool xs x))
             end) first_keys).

(** [ABTestManager.get_experiment_stats]; [None] is the dictionary
    [{"error": ...}] of an unknown experiment. *)
Definition get_experiment_stats (m : ABTestManager (dict value))
    (experiment_name : string) : option StatsReport :=
  match experiments m !! experiment_name with
  | None => None
  | Some experiment =>
      let variant_results := group_results experiment_name (results m) in
      Some (mkStatsReport experiment_name (description experiment) (enabled experiment)
              (omap (fun vr : string * list (dict value) =>
                       match vr.2 with
                       | [] => None
                       | _ => Some (vr.1, variant_stats vr.2)
                       end) variant_results))
  end.

End Stats.

End ABMore.

(** ** Model router ([src/core/llm_router.py]) *)

Module Router.
Import PyDict.

Local Open Scope string_scope.

(** The fields of [settings] the router reads. *)
Record Settings : Type := mkSettings {
  llm_provider : string;
  openai_api_key : string;
  openai_model : string;
  openai_base_url : option string;
  dashscope_api_key : string;
  dashscope_model : string
}.

Record ModelConfig : Type := mkModelConfig {
  provider : string;
  model : string;
  api_key : string;
  base_url : option string;
  temperature : Q
}.

(** [ModelConfig.is_available]: [bool(self.api_key)]. *)
Definition is_available (cfg : ModelConfig) : bool :=
  negb (String.eqb (api_key cfg) "").

(** A chat model, as the class and the arguments it was made with. *)
Inductive llm : Type :=
  | ChatOpenAI (model api_key : string) (base_url : option string) (temperature : Q)
  | ChatTongyi (model api_key : string) (temperature : Q).

(** The two [ValueError]s of [_create_llm], told apart by their message. *)
Inductive exn : Type :=
  | NotAvailable (provider : string)
  | NotSupported (provider : string).

Record LLMRouter : Type := mkRouter {
  models : dict ModelConfig;
  _active_provider : string;
  _fallback_used : bool
}.

(** The provider a chat model was made for. *)
Definition provider_of (l : llm) : string :=
  match l with
  | ChatOpenAI _ _ _ _ => "openai"
  | ChatTongyi _ _ _ => "dashscope"
  end.

Section WithSettings.
Variable settings : Settings.

(** [LLMRouter.__init__]. *)
Definition init : LLMRouter :=
  mkRouter
    [("dashscope",
      mkModelConfig "dashscope" (dashscope_model settings) (dashscope_api_key settings)
        None (7 # 10)%Q);
     ("openai",
      mkModelConfig "openai" (openai_model settings) (openai_api_key settings)
        (openai_base_url settings) (7 # 10)%Q)]
    (llm_provider settings) false.

(** [available_providers]. *)
Definition available_providers (r : LLMRouter) : list string :=
  map fst (List.filter (fun nc : string * ModelConfig => is_available nc.2) (models r)).

(** [_create_llm]. *)
Definition _create_llm (r : LLMRouter) (provider : string) : exn + llm :=
  match dict_get provider (models r) with
  | None => inl (NotAvailable provider)
  | Some config =>
      if negb (is_available config) then inl (NotAvailable provider)
      else if String.eqb provider "openai" then
        inr (ChatOpenAI (model config) (api_key config) (base_url config)
               (temperature config))
      else if String.eqb provider "dashscope" then
        inr (ChatTongyi (model config) (api_key config) (temperature config))
      else inl (NotSupported provider)
  end.

(** [get_llm]; [provider or self._active_provider] takes the active
    provider for [None] and for the empty string. *)
Definition get_llm (r : LLMRouter) (provider : option string) : exn + llm :=
  let target :=
    match provider with
    | Some p => if String.eqb p "" then _active_provider r else p
    | None => _active_provider r
    end in
  _create_llm r target.

(** [get_primary]. *)
Definition get_primary (r : LLMRouter) : exn + llm :=
  get_llm r (Some (llm_provider settings)).

(** The first item of [self.models.items()] that is not the primary and is
    available. *)
Definition first_other (r : LLMRouter) : option (string * ModelConfig) :=
  List.find (fun pc : string * ModelConfig =>
               negb (String.eqb pc.1 (llm_provider settings)) && is_available pc.2)
    (models r).

(** [get_fallback]. *)
Definition get_fallback (r : LLMRouter) : exn + option llm :=
  match first_other r with
  | Some (provider, _) =>
      match get_llm r (Some provider) with
      | inl e => inl e
      | inr l => inr (Some l)
      end
  | None => inr None
  end.

(** [switch_to_fallback]; a chat model is a true value. *)
Definition switch_to_fallback (r : LLMRouter) : LLMRouter * (exn + option llm) :=
  match get_fallback r with
  | inl e => (r, inl e)
  | inr (Some fallback) =>
      match first_other r with
      | Some (provider, _) => (mkRouter (models r) provider true, inr (Some fallback))
      | None => (r, inr None)
      end
  | inr None => (r, inr None)
  end.

(** [switch_to_primary]. *)
Definition switch_to_primary (r : LLMRouter) : LLMRouter * (exn + llm) :=
  let r' := mkRouter (models r) (llm_provider settings) false in
  (r', get_primary r').

(** [get_llm_router], on the global [_router_instance]. *)
Definition get_llm_router (instance : option LLMRouter) : option LLMRouter * LLMRouter :=
  match instance with
  | Some r => (instance, r)
  | None => (Some init, init)
  end.

(** [get_llm_with_fallback]: the global after the call and what the call
    returns or raises. *)
Definition get_llm_with_fallback (instance : option LLMRouter)
    : option LLMRouter * (exn + llm) :=
  let '(instance1, router) := get_llm_router instance in
  match get_primary router with
  | inr l => (instance1, inr l)
  | inl e =>
      let '(router', fallback) := switch_to_fallback router in
      match fallback with
      | inl e' => (Some router', inl e')
      | inr (Some l) => (Some router', inr l)
      | inr None => (Some router', inl e)
      end
  end.

End WithSettings.

End Router.

(** ** In-memory session store ([src/memory/session_manager.py]) *)

Module Session.
Import PyDict.

(** One entry of ["chat_history"]. *)
Record Message : Type := mkMessage {
  role : string;
  content : string;
  timestamp : Q
}.

(** A session dictionary with the keys the manager reads and writes,
    ["chat_history"], ["created_at"] and ["last_activity"], each present or
    not.  Times are seconds, a time stamp is the time [isoformat] and
    [fromisoformat] carry. *)
Record SessionData : Type := mkSession {
  chat_history : option (list Message);
  created_at : option Q;
  last_activity : option Q
}.

(** [bool(session)]: a dictionary is true when it has a key. *)
Definition nonempty (session : SessionData) : bool :=
  match chat_history session, created_at session, last_activity session with
  | None, None, None => false
  | _, _, _ => true
  end.

(** [KeyError], raised by [session["chat_history"]]. *)
Inductive exn : Type :=
  | KeyError (key : string).

Record InMemorySessionManager : Type := mkManager {
  _sessions : dict SessionData;
  max_history : Z;
  ttl : Q
}.

Definition set_sessions (m : InMemorySessionManager) (sessions : dict SessionData)
    : InMemorySessionManager :=
  mkManager sessions (max_history m) (ttl m).

(** [InMemorySessionManager.__init__]; [timedelta(minutes=ttl_minutes)] in
    seconds. *)
Definition init (max_history ttl_minutes : Z) : InMemorySessionManager :=
  mkManager [] max_history (inject_Z ttl_minutes * 60)%Q.

(** [l[start:]]. *)
Definition slice_from {A : Type} (start : Z) (l : list A) : list A :=
  let n := Z.of_nat (length l) in
  let i := if start <? 0 then Z.max 0 (n + start) else Z.min start n in
  List.skipn (Z.to_nat i) l.

(** What the truncation step of [add_message] leaves of a history:
    [history[-max_history:]] when it is longer than [max_history]. *)
Definition kept (max_history : Z) (history : list Message) : list Message :=
  if max_history <? Z.of_nat (length history)
  then slice_from (- max_history) history
  else history.

Section WithClock.
(** [clock i] is what the [i]-th call of [datetime.now()] returns; the
    functions below take the number of calls made so far and return the
    number after them. *)
Variable clock : nat -> Q.

(** [_is_expired]. *)
Definition _is_expired (m : InMemorySessionManager) (session : SessionData) (t : nat)
    : bool * nat :=
  match last_activity session with
  | Some last_time => (Qlt_bool (ttl m) (clock t - last_time), S t)
  | None => (true, t)
  end.

(** The list [expired] of [_clean_expired_sessions]. *)
Fixpoint expired_ids (m : InMemorySessionManager) (items : dict SessionData) (t : nat)
    : list string * nat :=
  match items with
  | [] => ([], t)
  | (sid, sess) :: rest =>
      let '(is_exp, t1) := _is_expired m sess t in
      let '(ids, t2) := expired_ids m rest t1 in
      (if is_exp then sid :: ids else ids, t2)
  end.

(** [_clean_expired_sessions]. *)
Definition _clean_expired_sessions (m : InMemorySessionManager) (t : nat)
    : InMemorySessionManager * nat :=
  let '(expired, t1) := expired_ids m (_sessions m) t in
  (set_sessions m (del_all expired (_sessions m)), t1).

(** [get_session]. *)
Definition get_session (m : InMemorySessionManager) (session_id : string) (t : nat)
    : InMemorySessionManager * option SessionData * nat :=
  let '(m1, t1) := _clean_expired_sessions m t in
  match dict_get session_id (_sessions m1) with
  | Some session =>
      if nonempty session then
        let '(is_exp, t2) := _is_expired m1 session t1 in
        (m1, if is_exp then None else Some session, t2)
      else (m1, None, t1)
  | None => (m1, None, t1)
  end.

(** [save_session], for a dictionary [data] that is not stored under another
    id. *)
Definition save_session (m : InMemorySessionManager) (session_id : string)
    (data : SessionData) (t : nat) : InMemorySessionManager * nat :=
  (set_sessions m
     (dict_set session_id (mkSession (chat_history data) (created_at data) (Some (clock t)))
        (_sessions m)),
   S t).

(** [delete_session]. *)
Definition delete_session (m : InMemorySessionManager) (session_id : string)
    : InMemorySessionManager :=
  set_sessions m (dict_del session_id (_sessions m)).

(** [add_message]. *)
Definition add_message (m : InMemorySessionManager) (session_id role content : string)
    (t : nat) : InMemorySessionManager * (exn + unit) * nat :=
  let '(m1, found, t1) := get_session m session_id t in
  let '(session, t2) :=
    match found with
    | Some session => (session, t1)
    | None => (mkSession (Some []) (Some (clock t1)) None, S t1)
    end in
  match chat_history session with
  | None => (m1, inl (KeyError "chat_history"), t2)
  | Some history =>
      let history1 := (history ++ [mkMessage role content (clock t2)])%list in
      let t3 := S t2 in
      let history2 :=
        if max_history m1 <? Z.of_nat (length history1)
        then slice_from (- max_history m1) history1
        else history1 in
      let '(m2, t4) :=
        save_session m1 session_id
          (mkSession (Some history2) (created_at session) (last_activity session)) t3 in
      (m2, inr tt, t4)
  end.

(** [get_chat_history]. *)
Definition get_chat_history (m : InMemorySessionManager) (session_id : string) (t : nat)
    : InMemorySessionManager * list Message * nat :=
  let '(m1, found, t1) := get_session m session_id t in
  (m1,
   match found with
   | Some session =>
       match chat_history session with
       | Some history => history
       | None => []
       end
   | None => []
   end,
   t1).

(** A call of a method that does not take a session dictionary from the
    caller. *)
Inductive call : Type :=
  | CallAdd (session_id role content : string)
  | CallHistory (session_id : string)
  | CallGet (session_id : string)
  | CallDelete (session_id : string).

Definition step (mt : InMemorySessionManager * nat) (op : call)
    : InMemorySessionManager * nat :=
  let '(m, t) := mt in
  match op with
  | CallAdd session_id role content =>
      let '(m1, _, t1) := add_message m session_id role content t in (m1, t1)
  | CallHistory session_id =>
      let '(m1, _, t1) := get_chat_history m session_id t in (m1, t1)
  | CallGet session_id =>
      let '(m1, _, t1) := get_session m session_id t in (m1, t1)
  | CallDelete session_id => (delete_session m session_id, t)
  end.

Definition run (mt : InMemorySessionManager * nat) (ops : list call)
    : InMemorySessionManager * nat :=
  fold_left step ops mt.

(** A store with [max_history = 0] and TTL [ttl0] that holds the messages
    [acc], as pairs of role and content, for [session_id]. *)
Definition holds (session_id : string) (ttl0 : Q) (m : InMemorySessionManager)
    (acc : list (string * string)) : Prop :=
  max_history m = 0 /\ ttl m = ttl0 /\ List.NoDup (keys (_sessions m)) /\
  ((dict_get session_id (_sessions m) = None /\ acc = []) \/
   (exists s h i,
      dict_get session_id (_sessions m) = Some s /\ chat_history s = Some h /\
      last_activity s = Some (clock i) /\
      map (fun msg => (role msg, content msg)) h = acc)).

End WithClock.

(** Every stored session has a history of at most [max_history] messages
    and a time of last activity, and no id is stored twice. *)
Definition sessions_ok (m : InMemorySessionManager) : Prop :=
  List.NoDup (keys (_sessions m)) /\
  List.Forall (fun kv : string * SessionData =>
            (exists history, chat_history kv.2 = Some history /\
                             Z.of_nat (length history) <= max_history m) /\
            is_Some (last_activity kv.2))
    (_sessions m).

End Session.

(** ** Concrete inputs used by the examples below *)

Module Examples.
Import Breaker.

(** The outside world of the breaker examples is just the wall clock; an
    operation takes one second. *)
Definition tick_ok : callable Q string string :=
  fun w => ((w + 1)%Q, Returned "ok"%string).

Definition tick_fail : callable Q string string :=
  fun w => ((w + 1)%Q, Raised (UserError "boom"%string)).

Definition wall : Q -> Q := fun w => w.

(** [CircuitBreaker(failure_threshold=3, recovery_timeout=30,
    half_open_max_calls=2)]. *)
Definition breaker3 : CircuitBreaker Q string string :=
  init 3 30%Q 2 None.

(** [breaker3] after three failed calls started at times 1, 2 and 3. *)
Definition breaker3_open : CircuitBreaker Q string string :=
  let b1 := (call_sync wall breaker3 tick_fail 1%Q).1.1 in
  let b2 := (call_sync wall b1 tick_fail 2%Q).1.1 in
  (call_sync wall b2 tick_fail 3%Q).1.1.

(** The same breaker after a state check at time 40. *)
Definition breaker3_half_open : CircuitBreaker Q string string :=
  (state breaker3_open 40%Q).1.

(** Stand-ins for the library functions in the cache examples: a digest
    that is the text itself, a square root that is exact on squares of
    fractions in lowest terms, and an embedding model that maps every text
    to the unit vector [(1, 0)].  For [str.strip] and [str.lower] the
    examples take [PyStr.strip] and [PyStr.lower], which agree with them on
    the ASCII text used there. *)
Definition toy_digest : string -> string := fun s => s.

Definition toy_sqrt (q : Q) : Q :=
  (inject_Z (Z.sqrt (Qnum q)) / inject_Z (Z.sqrt (Zpos (Qden q))))%Q.


(** [ResponseCache()] with the defaults of the constructor. *)
Definition cache_default : Cache.ResponseCache string :=
  Cache.init 1000 3600%Q (95 # 100)%Q false.

(** [ResponseCache(max_size=0)]. *)
Definition cache_zero : Cache.ResponseCache string :=
  Cache.init 0 3600%Q (95 # 100)%Q false.

(** [ResponseCache(enable_semantic=True)]. *)
Definition cache_semantic : Cache.ResponseCache string :=
  Cache.init 1000 3600%Q (95 # 100)%Q true.

(** A stand-in for the MD5 digest in the allocation examples. *)
Definition toy_md5 (s : string) : Z := Z.of_nat (String.length s) * 2503.

(** The builtin [sum] on floats as CPython computes it up to version 3.11:
    the numbers added one after the other, from 0.  On the lists of the
    examples below the compensated sum of later versions is the same. *)
Definition plain_sum (l : list PrimFloat.float) : PrimFloat.float :=
  fold_left PrimFloat.add l PrimFloat.zero.

(** [ABTestManager()] created at time 0, with metrics left out. *)
Definition manager0 : ABTest.ABTestManager unit := ABTest.init plain_sum 0%Q.

End Examples.

(** ** Further concrete inputs *)

Module ExamplesMore.
Import Examples.

Local Open Scope string_scope.

(** A function that times out on its first two calls and answers on the
    third; the outside world is the number of calls made so far. *)
Definition flaky : nat -> nat * (string + string) :=
  fun n => (S n, if (n <? 2)%nat then inl "timeout" else inr "ok").


(** [retryable_exceptions=(Exception,)]. *)
Definition any_exception : string -> bool := fun _ => true.

(** A sleep that leaves the call counter alone. *)
Definition no_sleep : Q -> nat -> nat := fun _ n => n.

(** A cache of capacity 2 holding two answers. *)
Definition cache_full : Cache.ResponseCache string :=
  Cache.run PyStr.strip PyStr.lower toy_digest toy_sqrt None (Cache.init 2 3600%Q (95 # 100)%Q false)
    [Cache.CallSet "q1" "r1" None 1%Q; Cache.CallSet "q2" "r2" None 2%Q].


(** The default manager with one more experiment, all traffic on ["B"]. *)
Definition manager_rollout : ABTest.ABTestManager unit :=
  (ABTest.create_experiment plain_sum manager0 "rollout"
     [("A", PrimFloat.zero); ("B", PrimFloat.one)] "" 5%Q).1.

(** A clock that stands still at 0, and one that stands still three hours
    later. *)
Definition frozen_clock : nat -> Q := fun _ => 0%Q.
Definition late_clock : nat -> Q := fun _ => 10800%Q.

(** [InMemorySessionManager(max_history=2)] after three messages for one
    session. *)
Definition sessions_three : Session.InMemorySessionManager * nat :=
  Session.run frozen_clock (Session.init 2 60, 0%nat)
    [Session.CallAdd "s1" "user" "a"; Session.CallAdd "s1" "assistant" "b";
     Session.CallAdd "s1" "user" "c"].

(** Settings with DashScope as the primary provider and an API key for
    OpenAI only. *)
Definition openai_only : Router.Settings :=
  Router.mkSettings "dashscope" "sk-test" "gpt-4o-mini" None "" "qwen-plus".

End ExamplesMore.

(** ** Properties of the circuit breaker *)

Module BreakerFacts.
Import Breaker.

Section Facts.
Context {W R E : Type}.
Variable clock : W -> Q.

Abbreviation breaker := (CircuitBreaker W R E).

Lemma eqb_eq (a b : CircuitState) : CircuitState_eqb a b = true <-> a = b.
Proof. destruct a, b; simpl; split; congruence. Qed.

Lemma transition_state (b : breaker) s now : _state (_transition_to b s now) = s.
Proof.
  unfold _transition_to.
  destruct (CircuitState_eqb (_state b) s) eqn:Heq; simpl.
  - now apply eqb_eq.
  - destruct (CircuitState_eqb s HALF_OPEN); reflexivity.
Qed.

Lemma transition_config (b : breaker) s now :
  failure_threshold (_transition_to b s now) = failure_threshold b /\
  half_open_max_calls (_transition_to b s now) = half_open_max_calls b /\
  recovery_timeout (_transition_to b s now) = recovery_timeout b /\
  fallback (_transition_to b s now) = fallback b /\
  consecutive_failures (_stats (_transition_to b s now)) = consecutive_failures (_stats b).
Proof.
  unfold _transition_to.
  destruct (negb (CircuitState_eqb (_state b) s)); [|tauto].
  destruct (CircuitState_eqb s HALF_OPEN); simpl; tauto.
Qed.

(** A state check that observes Open has not changed the breaker. *)
Lemma state_open_unchanged (b : breaker) now :
  (state b now).2 = OPEN -> (state b now).1 = b.
Proof.
  unfold state; simpl.
  destruct (CircuitState_eqb (_state b) OPEN); [|reflexivity].
  destruct (Qle_bool _ _); [|reflexivity].
  rewrite transition_state. discriminate.
Qed.

(** One recorded failure of a Closed breaker below the threshold. *)
Lemma failure_closed_below (b : breaker) now :
  _state b = CLOSED ->
  consecutive_failures (_stats b) + 1 < failure_threshold b ->
  _state (_record_failure b now) = CLOSED /\
  consecutive_failures (_stats (_record_failure b now)) = consecutive_failures (_stats b) + 1 /\
  failure_threshold (_record_failure b now) = failure_threshold b.
Proof.
  intros Hs Hlt. unfold _record_failure; simpl. rewrite Hs; simpl.
  destruct (Z.leb_spec (failure_threshold b) (consecutive_failures (_stats b) + 1)); [lia|].
  simpl. auto.
Qed.

(** One recorded failure of a Closed breaker that reaches the threshold. *)
Lemma failure_closed_reach (b : breaker) now :
  _state b = CLOSED ->
  failure_threshold b <= consecutive_failures (_stats b) + 1 ->
  _state (_record_failure b now) = OPEN.
Proof.
  intros Hs Hle. unfold _record_failure; simpl. rewrite Hs; simpl.
  destruct (Z.leb_spec (failure_threshold b) (consecutive_failures (_stats b) + 1)); [|lia].
  apply transition_state.
Qed.

Lemma failures_closed_below (ts : list Q) : forall b : breaker,
  _state b = CLOSED ->
  consecutive_failures (_stats b) + Z.of_nat (length ts) < failure_threshold b ->
  _state (record_failures b ts) = CLOSED /\
  consecutive_failures (_stats (record_failures b ts))
    = consecutive_failures (_stats b) + Z.of_nat (length ts) /\
  failure_threshold (record_failures b ts) = failure_threshold b.
Proof.
  induction ts as [|t ts IH]; intros b Hs Hlt.
  - simpl. repeat split; try assumption; lia.
  - cbn [length] in Hlt. rewrite Nat2Z.inj_succ in Hlt.
    assert (Hlt1 : consecutive_failures (_stats b) + 1 < failure_threshold b) by lia.
    destruct (failure_closed_below b t Hs Hlt1) as (Hs' & Hc' & Ht').
    unfold record_failures in *. cbn [fold_left].
    destruct (IH (_record_failure b t) Hs') as (H1 & H2 & H3); [lia|].
    rewrite H1, H2, H3, Hc', Ht'. cbn [length]. rewrite Nat2Z.inj_succ.
    repeat split; try reflexivity; lia.
Qed.

Lemma record_failures_snoc (b : breaker) ts t :
  record_failures b (ts ++ [t]) = _record_failure (record_failures b ts) t.
Proof. unfold record_failures. now rewrite fold_left_app. Qed.

Lemma record_successes_snoc (b : breaker) ts t :
  record_successes b (ts ++ [t]) = _record_success (record_successes b ts) t.
Proof. unfold record_successes. now rewrite fold_left_app. Qed.

Lemma success_resets_counter (b : breaker) now :
  consecutive_failures (_stats (_record_success b now)) = 0.
Proof.
  unfold _record_success; simpl.
  destruct (CircuitState_eqb (_state b) HALF_OPEN); [|reflexivity].
  destruct (_ <=? _); [|reflexivity].
  destruct (transition_config (with_half_open_calls (with_stats b
    (mkStats (total_calls (_stats b) + 1) (success_count (_stats b) + 1)
       (failure_count (_stats b)) 0 (last_failure_time (_stats b))
       (state_changes (_stats b)))) (_half_open_calls b + 1)) CLOSED now)
    as (_ & _ & _ & _ & Hc).
  exact Hc.
Qed.

(** One recorded success of a Half-Open breaker below the trial limit. *)
Lemma success_half_open_below (b : breaker) now :
  _state b = HALF_OPEN ->
  _half_open_calls b + 1 < half_open_max_calls b ->
  _state (_record_success b now) = HALF_OPEN /\
  _half_open_calls (_record_success b now) = _half_open_calls b + 1 /\
  half_open_max_calls (_record_success b now) = half_open_max_calls b.
Proof.
  intros Hs Hlt. unfold _record_success; simpl. rewrite Hs; simpl.
  destruct (Z.leb_spec (half_open_max_calls b) (_half_open_calls b + 1)); [lia|].
  simpl. auto.
Qed.

(** One recorded success of a Half-Open breaker that reaches the limit. *)
Lemma success_half_open_reach (b : breaker) now :
  _state b = HALF_OPEN ->
  half_open_max_calls b <= _half_open_calls b + 1 ->
  _state (_record_success b now) = CLOSED /\
  consecutive_failures (_stats (_record_success b now)) = 0 /\
  _half_open_calls (_record_success b now) = _half_open_calls b + 1.
Proof.
  intros Hs Hle. split; [|split]; [| apply success_resets_counter |].
  - unfold _record_success; simpl. rewrite Hs; simpl.
    destruct (Z.leb_spec (half_open_max_calls b) (_half_open_calls b + 1)); [|lia].
    apply transition_state.
  - unfold _record_success; simpl. rewrite Hs; simpl.
    destruct (Z.leb_spec (half_open_max_calls b) (_half_open_calls b + 1)); [|lia].
    unfold _transition_to; simpl. rewrite Hs. reflexivity.
Qed.

Lemma successes_half_open_below (ts : list Q) : forall b : breaker,
  _state b = HALF_OPEN ->
  _half_open_calls b + Z.of_nat (length ts) < half_open_max_calls b ->
  _state (record_successes b ts) = HALF_OPEN /\
  _half_open_calls (record_successes b ts) = _half_open_calls b + Z.of_nat (length ts) /\
  half_open_max_calls (record_successes b ts) = half_open_max_calls b.
Proof.
  induction ts as [|t ts IH]; intros b Hs Hlt.
  - simpl. repeat split; try assumption; lia.
  - cbn [length] in Hlt. rewrite Nat2Z.inj_succ in Hlt.
    assert (Hlt1 : _half_open_calls b + 1 < half_open_max_calls b) by lia.
    destruct (success_half_open_below b t Hs Hlt1) as (Hs' & Hc' & Ht').
    unfold record_successes in *. cbn [fold_left].
    destruct (IH (_record_success b t) Hs') as (H1 & H2 & H3); [lia|].
    rewrite H1, H2, H3, Hc', Ht'. cbn [length]. rewrite Nat2Z.inj_succ.
    repeat split; try reflexivity; lia.
Qed.

End Facts.
End BreakerFacts.

(** ** The claims about the circuit breaker *)

Module BreakerClaims.
Import Breaker BreakerFacts.

Section Claims.
Context {W R E : Type}.
Variable clock : W -> Q.

Abbreviation breaker := (CircuitBreaker W R E).

(** C1.  A protected call ([call_sync] or [call_async]) made while the state
    check observes Open does not invoke the operation: the result is
    [CircuitOpenError] with the world untouched when no fallback is
    configured, and is what the fallback produces when one is; the
    breaker itself is left as it was, and any other operation in place of
    [func] gives the same result. *)
Theorem open_call_skips_operation (b : breaker) (func : callable W R E) (w : W) :
  (state b (clock w)).2 = OPEN ->
  let short_circuit :=
    match fallback b with
    | Some fb => (b, (fb w).1, (fb w).2)
    | None => (b, w, Raised CircuitOpenError)
    end in
  call_sync clock b func w = short_circuit /\
  call_async clock b func w = short_circuit /\
  (forall func' : callable W R E,
     call_sync clock b func' w = call_sync clock b func w /\
     call_async clock b func' w = call_async clock b func w).
Proof.
  intros Hopen short_circuit.
  assert (Hcall : forall f : callable W R E, call_sync clock b f w = short_circuit).
  { intros f. unfold call_sync.
    pose proof (state_open_unchanged b (clock w) Hopen) as Hsame.
    destruct (state b (clock w)) as [b1 st]; simpl in *; subst.
    unfold guarded_call, short_circuit; simpl.
    destruct (fallback b) as [fb|]; [|reflexivity].
    now destruct (fb w). }
  split; [apply Hcall | split; [apply Hcall|]].
  intros func'. split.
  - now rewrite !Hcall.
  - change (call_sync clock b func' w = call_sync clock b func w). now rewrite !Hcall.
Qed.

(** C2.  From Closed with the consecutive-failure counter at 0 and a
    threshold of at least 1: fewer recorded failures than
    [failure_threshold] leave the breaker Closed, exactly
    [failure_threshold] of them open it, and one recorded success sets the
    counter to 0 in every state. *)
Theorem threshold_failures_open (b : breaker) :
  _state b = CLOSED ->
  consecutive_failures (_stats b) = 0 ->
  1 <= failure_threshold b ->
  (forall ts, Z.of_nat (length ts) < failure_threshold b ->
     _state (record_failures b ts) = CLOSED) /\
  (forall ts, Z.of_nat (length ts) = failure_threshold b ->
     _state (record_failures b ts) = OPEN) /\
  (forall (b' : breaker) now,
     consecutive_failures (_stats (_record_success b' now)) = 0).
Proof.
  intros Hs Hc Hthr. split; [|split].
  - intros ts Hlt. apply failures_closed_below; [assumption | lia].
  - intros ts Hlen.
    destruct ts as [|t0 ts0] using rev_ind; [simpl in Hlen; lia|].
    rewrite length_app, Nat2Z.inj_add in Hlen; simpl in Hlen.
    rewrite record_failures_snoc.
    destruct (failures_closed_below ts0 b Hs) as (H1 & H2 & H3); [lia|].
    apply failure_closed_reach; [assumption | lia].
  - intros b' now. apply success_resets_counter.
Qed.

(** C3, as the code has it.  An Open breaker checked before
    [recovery_timeout] has passed since the last failure stays as it is
    and is observed Open; checked at or after that time it is observed
    Half-Open with the trial counter at 0.  In Half-Open one recorded
    failure opens it again; fewer than [half_open_max_calls] recorded
    successes keep it Half-Open, and [half_open_max_calls] of them close
    it with the consecutive-failure counter at 0, while the trial counter
    keeps the value [half_open_max_calls]. *)
Theorem open_half_open_cycle (b : breaker) (now : Q) :
  (_state b = OPEN ->
   (now - last_failure_time (_stats b) < recovery_timeout b)%Q ->
   state b now = (b, OPEN)) /\
  (_state b = OPEN ->
   (recovery_timeout b <= now - last_failure_time (_stats b))%Q ->
   (state b now).2 = HALF_OPEN /\ _half_open_calls (state b now).1 = 0) /\
  (_state b = HALF_OPEN -> _state (_record_failure b now) = OPEN) /\
  (_state b = HALF_OPEN -> _half_open_calls b = 0 -> 1 <= half_open_max_calls b ->
   (forall ts, Z.of_nat (length ts) < half_open_max_calls b ->
      _state (record_successes b ts) = HALF_OPEN) /\
   (forall ts, Z.of_nat (length ts) = half_open_max_calls b ->
      _state (record_successes b ts) = CLOSED /\
      consecutive_failures (_stats (record_successes b ts)) = 0 /\
      _half_open_calls (record_successes b ts) = half_open_max_calls b)).
Proof.
  repeat split.
  - intros Hs Hlt. unfold state. rewrite Hs; simpl.
    destruct (Qle_bool _ _) eqn:Hle.
    + apply Qle_bool_iff in Hle. exfalso. revert Hle. now apply Qlt_not_le.
    + now rewrite Hs.
  - unfold state; simpl. rewrite H; simpl.
    apply Qle_bool_iff in H0. rewrite H0. apply transition_state.
  - unfold state; simpl. rewrite H; simpl.
    apply Qle_bool_iff in H0. rewrite H0.
    unfold _transition_to. rewrite H. reflexivity.
  - intros Hs. unfold _record_failure; simpl. rewrite Hs; simpl.
    apply transition_state.
  - intros ts Hlt. apply successes_half_open_below; [assumption | lia].
  - destruct ts as [|t0 ts0] using rev_ind; [simpl in *; lia|].
    rewrite length_app, Nat2Z.inj_add in H2; simpl in H2.
    rewrite record_successes_snoc.
    destruct (successes_half_open_below ts0 b H) as (H3 & H4 & H5); [lia|].
    apply success_half_open_reach; [assumption | lia].
  - destruct ts as [|t0 ts0] using rev_ind; [simpl in *; lia|].
    rewrite record_successes_snoc. apply success_resets_counter.
  - destruct ts as [|t0 ts0] using rev_ind; [simpl in *; lia|].
    rewrite length_app, Nat2Z.inj_add in H2; simpl in H2.
    rewrite record_successes_snoc.
    destruct (successes_half_open_below ts0 b H) as (H3 & H4 & H5); [lia|].
    destruct (success_half_open_reach (record_successes b ts0) t0 H3) as (_ & _ & H6); [lia|].
    rewrite H6, H4. lia.
Qed.

End Claims.

Import Examples.

(** The unit test [test_circuit_uses_fallback_when_open]: a breaker with
    threshold 1 and a fallback, after one failed call, answers the next call
    from the fallback and leaves the world alone. *)
Example fallback_when_open :
  let fb : callable Q string string := fun w => (w, Returned "fallback"%string) in
  let b0 := init 1 30%Q 3 (Some fb) in
  let r1 := call_sync wall b0 tick_fail 1%Q in
  let r2 := call_sync wall r1.1.1 tick_ok r1.1.2 in
  r1.2 = Returned "fallback"%string /\ _state r1.1.1 = OPEN /\
  r2.2 = Returned "fallback"%string /\ r2.1.2 = r1.1.2.
Proof. cbv zeta. repeat split. Qed.

(** Scenario B of the specification: three failures open [breaker3]; after
    30 seconds one success leaves it Half-Open and a second one closes it. *)
Example scenario_B :
  _state breaker3_open = OPEN /\
  let r1 := call_sync wall breaker3_open tick_ok 34%Q in
  let r2 := call_sync wall r1.1.1 tick_ok r1.1.2 in
  r1.2 = Returned "ok"%string /\ _state r1.1.1 = HALF_OPEN /\
  r2.2 = Returned "ok"%string /\ _state r2.1.1 = CLOSED.
Proof. cbv zeta. repeat split. Qed.

(** Witness of C1: [breaker3_open], opened by a failure at time 4, called
    again at time 10. *)
Lemma open_call_skips_operation_witness :
  (state breaker3_open (wall 10%Q)).2 = OPEN /\
  call_sync wall breaker3_open tick_ok 10%Q
    = (breaker3_open, 10%Q, Raised CircuitOpenError).
Proof.
  split; [reflexivity|].
  exact (proj1 (open_call_skips_operation wall breaker3_open tick_ok 10%Q eq_refl)).
Defined.

(** Witness of C2: three recorded failures open [breaker3]. *)
Lemma threshold_failures_open_witness :
  _state (record_failures breaker3 [1%Q; 2%Q; 3%Q]) = OPEN.
Proof.
  refine (proj1 (proj2 (threshold_failures_open breaker3 eq_refl eq_refl _))
            [1%Q; 2%Q; 3%Q] eq_refl).
  simpl; lia.
Defined.

(** C3 as stated fails: after the two successes that close
    [breaker3_half_open] the half-open trial counter is 2, not 0. *)
Lemma closing_keeps_trial_counter :
  let b := record_successes breaker3_half_open [41%Q; 42%Q] in
  _state breaker3_half_open = HALF_OPEN /\
  _state b = CLOSED /\
  _half_open_calls b = 2 /\
  ~ (_state b = CLOSED /\ consecutive_failures (_stats b) = 0 /\ _half_open_calls b = 0).
Proof.
  cbv zeta. repeat split. intros (_ & _ & H). vm_compute in H. discriminate H.
Defined.

(** Witness of C3 (amended): [breaker3_open], last failed at time 4, is
    still Open at time 10 and Half-Open at time 40; from there one failure
    opens it again and two successes close it. *)
Lemma open_half_open_cycle_witness :
  state breaker3_open 10%Q = (breaker3_open, OPEN) /\
  ((state breaker3_open 40%Q).2 = HALF_OPEN /\
   _half_open_calls (state breaker3_open 40%Q).1 = 0) /\
  _state (_record_failure breaker3_half_open 41%Q) = OPEN /\
  _state (record_successes breaker3_half_open [41%Q; 42%Q]) = CLOSED.
Proof.
  pose proof (open_half_open_cycle breaker3_open 10%Q) as (Hbefore & _).
  pose proof (open_half_open_cycle breaker3_open 40%Q) as (_ & Hafter & _).
  pose proof (open_half_open_cycle breaker3_half_open 41%Q) as (_ & _ & Hfail & Hclose).
  split; [|split; [|split]].
  - apply Hbefore; [reflexivity|]. vm_compute. reflexivity.
  - apply Hafter; [reflexivity|]. vm_compute. intros H; discriminate H.
  - apply Hfail. reflexivity.
  - refine (proj1 (proj2 (Hclose eq_refl eq_refl _) [41%Q; 42%Q] eq_refl)).
    simpl; lia.
Defined.

End BreakerClaims.

(** ** Properties of the string functions *)

Module PyStrFacts.
Import PyStr.

Lemma prefix_append (p s : string) :
  String.prefix p s = true <-> exists post, s = (p ++ post)%string.
Proof.
  revert s. induction p as [|c p IH]; intros s.
  - split; [intros _; now exists s | intros _; now destruct s].
  - destruct s as [|d s]; simpl.
    + split; [discriminate | intros [post H]; discriminate].
    + destruct (Ascii.ascii_dec c d) as [->|Hne].
      * rewrite IH. split; intros [post H]; exists post.
        -- now rewrite H.
        -- change (String d s = String d (p ++ post)%string) in H. congruence.
      * split; [discriminate|]. intros [post H].
        change (String d s = String c (p ++ post)%string) in H. congruence.
Qed.

(** [contains] decides the substring relation. *)
Lemma contains_substring (needle hay : string) :
  contains needle hay = true <->
  exists pre post, hay = (pre ++ needle ++ post)%string.
Proof.
  induction hay as [|c hay IH].
  - cbn [contains]. rewrite orb_false_r, prefix_append. split.
    + intros [post H]. now exists ""%string, post.
    + intros (pre & post & H). destruct pre; [now exists post | discriminate].
  - cbn [contains]. rewrite orb_true_iff, prefix_append, IH. split.
    + intros [[post H] | (pre & post & H)].
      * now exists ""%string, post.
      * exists (String c pre), post. simpl. now rewrite H.
    + intros (pre & post & H). destruct pre as [|d pre].
      * left. now exists post.
      * right. exists pre, post.
        change (String c hay = String d (pre ++ needle ++ post)%string) in H.
        congruence.
Qed.

Lemma lower_char_idem (c : ascii) : lower_char (lower_char c) = lower_char c.
Proof. destruct c as [[] [] [] [] [] [] [] []]; reflexivity. Qed.

Lemma lower_idem (s : string) : lower (lower s) = lower s.
Proof. induction s; simpl; [reflexivity|]. now rewrite lower_char_idem, IHs. Qed.

End PyStrFacts.

(** ** Properties of the dictionary operations *)

Module PyDictFacts.
Import PyDict.

Section Dict.
Context {V : Type}.
Implicit Types (d : dict V) (k : string) (v : V).

Lemma dict_get_set_eq k v d : dict_get k (dict_set k v d) = Some v.
Proof.
  unfold dict_get. induction d as [|[k' v'] d IH]; simpl.
  - now rewrite String.eqb_refl.
  - destruct (String.eqb k' k) eqn:Hk; simpl; rewrite Hk; [reflexivity | exact IH].
Qed.

Lemma dict_get_In k v d : dict_get k d = Some v -> In (k, v) d.
Proof.
  unfold dict_get. destruct (List.find _ d) as [[k' v']|] eqn:Hf; [|discriminate].
  apply List.find_some in Hf as [Hin Hk]. apply String.eqb_eq in Hk.
  simpl in *. intros [= <-]. now subst.
Qed.

Lemma dict_get_None k d : dict_get k d = None <-> ~ In k (keys d).
Proof.
  unfold dict_get, keys. induction d as [|[k' v'] d IH]; simpl.
  - tauto.
  - destruct (String.eqb_spec k' k) as [->|Hne].
    + split; [discriminate | intros H; exfalso; apply H; now left].
    + rewrite IH. tauto.
Qed.

Lemma dict_get_NoDup k v d : List.NoDup (keys d) -> In (k, v) d -> dict_get k d = Some v.
Proof.
  unfold dict_get, keys. induction d as [|[k' v'] d IH]; simpl; [tauto|].
  intros Hnd [Heq | Hin]; apply List.NoDup_cons_iff in Hnd as [Hnotin Hnd'].
  - injection Heq as -> ->. now rewrite String.eqb_refl.
  - destruct (String.eqb_spec k' k) as [->|Hne].
    + exfalso. apply Hnotin. apply in_map_iff. now exists (k, v).
    + now apply IH.
Qed.

Lemma keys_dict_set k v d :
  keys (dict_set k v d)
    = match dict_get k d with Some _ => keys d | None => keys d ++ [k] end.
Proof.
  unfold dict_get, keys. induction d as [|[k' v'] d IH]; simpl; [reflexivity|].
  destruct (String.eqb_spec k' k) as [->|Hne]; simpl; [reflexivity|].
  rewrite IH. now destruct (List.find _ d).
Qed.

Lemma length_dict_set k v d : (length (dict_set k v d) <= S (length d))%nat.
Proof.
  induction d as [|[k' v'] d IH]; simpl; [lia|].
  destruct (String.eqb k' k); simpl; lia.
Qed.

Lemma NoDup_dict_set k v d : List.NoDup (keys d) -> List.NoDup (keys (dict_set k v d)).
Proof.
  intros Hnd. rewrite keys_dict_set.
  destruct (dict_get k d) eqn:Hg; [assumption|].
  apply dict_get_None in Hg. apply List.NoDup_app; [assumption | |].
  - constructor; [intros [] | constructor].
  - intros x Hx [<-|[]]. contradiction.
Qed.

Lemma In_dict_set k v d p : In p (dict_set k v d) -> p = (k, v) \/ In p d.
Proof.
  induction d as [|[k' v'] d IH]; simpl; [intuition congruence|].
  destruct (String.eqb_spec k' k) as [->|Hne]; simpl; intuition congruence.
Qed.

Lemma In_dict_del k d p : In p (dict_del k d) <-> In p d /\ p.1 <> k.
Proof.
  unfold dict_del. rewrite filter_In.
  destruct (String.eqb_spec p.1 k); simpl; intuition congruence.
Qed.

Lemma length_dict_del k d : (length (dict_del k d) <= length d)%nat.
Proof. unfold dict_del. apply List.filter_length_le. Qed.

Lemma length_dict_del_In k d :
  In k (keys d) -> (length (dict_del k d) < length d)%nat.
Proof.
  unfold dict_del, keys. induction d as [|[k' v'] d IH]; simpl; [tauto|].
  intros [->|Hin].
  - rewrite String.eqb_refl; simpl.
    pose proof (List.filter_length_le (fun p => negb (String.eqb p.1 k)) d). lia.
  - specialize (IH Hin). destruct (String.eqb k' k); simpl; lia.
Qed.

Lemma keys_dict_del k d : keys (dict_del k d) = List.filter (fun x => negb (String.eqb x k)) (keys d).
Proof.
  unfold dict_del, keys. induction d as [|[k' v'] d IH]; simpl; [reflexivity|].
  destruct (String.eqb k' k); simpl; now rewrite IH.
Qed.

Lemma NoDup_dict_del k d : List.NoDup (keys d) -> List.NoDup (keys (dict_del k d)).
Proof. rewrite keys_dict_del. apply List.NoDup_filter. Qed.


Lemma dict_get_del_ne k k' d : k <> k' -> dict_get k (dict_del k' d) = dict_get k d.
Proof.
  intros Hne. unfold dict_get, dict_del. induction d as [|[k0 v0] d IH]; simpl; [reflexivity|].
  destruct (String.eqb_spec k0 k') as [->|Hne0]; simpl.
  - destruct (String.eqb_spec k' k); [congruence | exact IH].
  - destruct (String.eqb k0 k); [reflexivity | exact IH].
Qed.

Lemma In_del_all ks : forall d p, In p (del_all ks d) <-> In p d /\ ~ In p.1 ks.
Proof.
  unfold del_all. induction ks as [|k ks IH]; intros d p; simpl; [tauto|].
  rewrite IH, In_dict_del. intuition.
Qed.

Lemma length_del_all ks : forall d, (length (del_all ks d) <= length d)%nat.
Proof.
  unfold del_all. induction ks as [|k ks IH]; intros d; simpl; [lia|].
  specialize (IH (dict_del k d)). pose proof (length_dict_del k d). lia.
Qed.

Lemma length_del_all_In k ks d :
  In k ks -> In k (keys d) -> (length (del_all ks d) < length d)%nat.
Proof.
  unfold del_all. revert d. induction ks as [|k0 ks IH]; intros d; simpl; [tauto|].
  intros [->|Hin] Hk.
  - pose proof (length_del_all ks (dict_del k d)) as H1. unfold del_all in H1.
    pose proof (length_dict_del_In k d Hk). lia.
  - destruct (String.eqb_spec k0 k) as [->|Hne].
    + pose proof (length_del_all ks (dict_del k d)) as H1. unfold del_all in H1.
      pose proof (length_dict_del_In k d Hk). lia.
    + assert (Hk' : In k (keys (dict_del k0 d))).
      { rewrite keys_dict_del, filter_In. split; [assumption|].
        destruct (String.eqb_spec k k0); [congruence | reflexivity]. }
      specialize (IH (dict_del k0 d) Hin Hk'). pose proof (length_dict_del k0 d). lia.
Qed.

Lemma NoDup_del_all ks : forall d, List.NoDup (keys d) -> List.NoDup (keys (del_all ks d)).
Proof.
  unfold del_all. induction ks as [|k ks IH]; intros d Hnd; simpl; [assumption|].
  apply IH. now apply NoDup_dict_del.
Qed.

Lemma dict_get_del_all k ks : forall d,
  ~ In k ks -> dict_get k (del_all ks d) = dict_get k d.
Proof.
  unfold del_all. induction ks as [|k0 ks IH]; intros d Hnotin; simpl; [reflexivity|].
  rewrite IH by (intros H; apply Hnotin; now right).
  apply dict_get_del_ne. intros ->. apply Hnotin. now left.
Qed.

Lemma keys_del_all_incl ks d k : In k (keys (del_all ks d)) -> In k (keys d).
Proof.
  unfold keys. rewrite !in_map_iff. intros (p & <- & Hin).
  apply In_del_all in Hin as [Hin _]. now exists p.
Qed.

End Dict.

(** [sorted] keeps the elements. *)
Lemma insert_sorted_length {A} (le : A -> A -> bool) x l :
  length (insert_sorted le x l) = S (length l).
Proof. induction l as [|y l IH]; simpl; [reflexivity|]. destruct (le x y); simpl; lia. Qed.

Lemma sorted_length {A} (le : A -> A -> bool) (l : list A) :
  length (sorted le l) = length l.
Proof.
  unfold sorted. induction l as [|x l IH]; simpl; [reflexivity|].
  now rewrite insert_sorted_length, IH.
Qed.

Lemma insert_sorted_In {A} (le : A -> A -> bool) x y l :
  In y (insert_sorted le x l) <-> y = x \/ In y l.
Proof.
  induction l as [|z l IH]; simpl; [intuition|].
  destruct (le x z); simpl; rewrite ?IH; intuition.
Qed.

Lemma sorted_In {A} (le : A -> A -> bool) (l : list A) y :
  In y (sorted le l) <-> In y l.
Proof.
  unfold sorted. induction l as [|x l IH]; simpl; [tauto|].
  rewrite insert_sorted_In, IH. intuition.
Qed.

Lemma Qlt_bool_iff (a b : Q) : Qlt_bool a b = true <-> (a < b)%Q.
Proof.
  unfold Qlt_bool. rewrite negb_true_iff. split.
  - intros H. apply Qnot_le_lt. intros Hle. apply Qle_bool_iff in Hle. congruence.
  - intros H. destruct (Qle_bool b a) eqn:Hle; [|reflexivity].
    apply Qle_bool_iff in Hle. exfalso. revert Hle. now apply Qlt_not_le.
Qed.

Lemma Qlt_bool_false_iff (a b : Q) : Qlt_bool a b = false <-> (b <= a)%Q.
Proof.
  unfold Qlt_bool. rewrite negb_false_iff. apply Qle_bool_iff.
Qed.

End PyDictFacts.

(** ** Properties of the response cache *)

Module CacheFacts.
Import PyStr PyDict PyDictFacts Cache.

Section Facts.
Context {R : Type}.
Variable py_strip : string -> string.
Variable py_lower : string -> string.
Variable sha256_hex16 : string -> string.
Variable sqrt : Q -> Q.
Variable get_embeddings : option embedder.

Abbreviation cache := (ResponseCache R).
Abbreviation entry := (CacheEntry.t R).

(** *** The view [items] *)

Lemma items_In (c : cache) k a e :
  In (k, (a, e)) (items c) <-> In (k, a) (_exact_cache c) /\ heap c !! a = Some e.
Proof.
  unfold items. rewrite <- list_elem_of_In, list_elem_of_omap. split.
  - intros ([k' a'] & Hin & Hf). simpl in Hf.
    destruct (heap c !! a') as [e'|] eqn:Hh; [|discriminate].
    injection Hf as -> -> ->. split; [now apply list_elem_of_In | assumption].
  - intros [Hin Hh]. exists (k, a). split; [now apply list_elem_of_In|].
    simpl. now rewrite Hh.
Qed.

Lemma items_keys_incl (c : cache) k :
  In k (keys (items c)) -> In k (keys (_exact_cache c)).
Proof.
  unfold keys. rewrite !in_map_iff. intros ([k' [a e]] & <- & Hin).
  apply items_In in Hin as [Hin _]. now exists (k', a).
Qed.

Lemma items_NoDup (c : cache) :
  List.NoDup (keys (_exact_cache c)) -> List.NoDup (keys (items c)).
Proof.
  unfold items. generalize (heap c) as hp. intros hp.
  induction (_exact_cache c) as [|[k a] d IH]; simpl; intros Hnd; [constructor|].
  apply List.NoDup_cons_iff in Hnd as [Hnotin Hnd].
  destruct (hp !! a) as [e|]; simpl; [|now apply IH].
  constructor; [|now apply IH].
  intros Hin. apply Hnotin. unfold keys in *.
  apply in_map_iff in Hin as ([k' [a' e']] & Hk & Hin). simpl in Hk; subst k'.
  apply list_elem_of_In, list_elem_of_omap in Hin as ([k'' a''] & Hin & Hf).
  simpl in Hf. destruct (hp !! a''); [|discriminate]. injection Hf as -> _ _.
  apply in_map_iff. exists (k, a''). split; [reflexivity | now apply list_elem_of_In].
Qed.


Lemma items_get_inv (c : cache) k a e :
  List.NoDup (keys (_exact_cache c)) ->
  dict_get k (items c) = Some (a, e) ->
  dict_get k (_exact_cache c) = Some a /\ heap c !! a = Some e.
Proof.
  intros Hnd Hg. apply dict_get_In, items_In in Hg as [Hin Hh].
  split; [now apply dict_get_NoDup | assumption].
Qed.

Lemma items_get_None (c : cache) k :
  dict_get k (_exact_cache c) = None -> dict_get k (items c) = None.
Proof.
  rewrite !dict_get_None. intros Hnotin Hin. apply Hnotin. now apply items_keys_incl.
Qed.

Lemma items_length (c : cache) :
  well_formed c -> length (items c) = length (_exact_cache c).
Proof.
  intros [_ Hwf]. unfold items. revert Hwf.
  generalize (heap c) as hp. intros hp.
  induction (_exact_cache c) as [|[k a] d IH]; intros Hwf; [reflexivity|].
  apply Forall_cons in Hwf as [Ha Hwf]. simpl in Ha.
  destruct (lookup_lt_is_Some_2 hp a Ha) as [e He].
  cbn [omap list_omap]. simpl. rewrite He. simpl. f_equal. now apply IH.
Qed.

(** *** Frame conditions of the internal steps *)

Lemma get_embedding_frame (c : cache) q :
  let c' := (_get_embedding get_embeddings c q).1 in
  heap c' = heap c /\ _exact_cache c' = _exact_cache c /\
  _semantic_cache c' = _semantic_cache c /\ _stats c' = _stats c /\
  max_size c' = max_size c /\ ttl c' = ttl c /\
  similarity_threshold c' = similarity_threshold c.
Proof.
  unfold _get_embedding.
  destruct (enable_semantic c); simpl; [|tauto].
  destruct (_embeddings c); simpl; [tauto|].
  destruct get_embeddings; simpl; tauto.
Qed.

Lemma cleanup_frame (c : cache) now :
  let c' := _cleanup_expired c now in
  heap c' = heap c /\ _stats c' = _stats c /\ max_size c' = max_size c /\
  ttl c' = ttl c /\ similarity_threshold c' = similarity_threshold c /\
  enable_semantic c' = enable_semantic c /\ _embeddings c' = _embeddings c.
Proof. unfold _cleanup_expired; simpl. tauto. Qed.

Lemma cleanup_exact (c : cache) now :
  _exact_cache (_cleanup_expired c now)
  = del_all (map fst (List.filter (fun kv => expired now kv.2.2) (items c)))
      (_exact_cache c).
Proof. reflexivity. Qed.

Lemma evict_frame (c : cache) :
  let c' := _evict_lru c in
  heap c' = heap c /\ _stats c' = _stats c /\ max_size c' = max_size c /\
  ttl c' = ttl c /\ similarity_threshold c' = similarity_threshold c /\
  enable_semantic c' = enable_semantic c /\ _embeddings c' = _embeddings c /\
  _semantic_cache c' = _semantic_cache c.
Proof. unfold _evict_lru. destruct (_ <=? _); simpl; tauto. Qed.

Lemma evict_exact (c : cache) :
  exists ks, _exact_cache (_evict_lru c) = del_all ks (_exact_cache c).
Proof.
  unfold _evict_lru. destruct (_ <=? _); simpl.
  - eexists; reflexivity.
  - now exists [].
Qed.

(** *** Well-formedness is maintained *)

Lemma well_formed_del_all (c : cache) ks hp :
  length hp = length (heap c) ->
  well_formed c -> well_formed (with_heap (with_exact c (del_all ks (_exact_cache c))) hp).
Proof.
  intros Hlen [Hnd Hwf]. split; simpl.
  - now apply NoDup_del_all.
  - apply List.Forall_forall. intros p Hin. apply In_del_all in Hin as [Hin _].
    rewrite Hlen. revert p Hin. now apply List.Forall_forall.
Qed.

Lemma well_formed_ext (c c' : cache) :
  _exact_cache c' = _exact_cache c -> length (heap c') = length (heap c) ->
  well_formed c -> well_formed c'.
Proof. unfold well_formed. intros -> ->. tauto. Qed.

Lemma well_formed_cleanup (c : cache) now :
  well_formed c -> well_formed (_cleanup_expired c now).
Proof.
  intros Hwf.
  apply (well_formed_ext
           (with_heap (with_exact c (del_all
              (map fst (List.filter (fun kv => expired now kv.2.2) (items c)))
              (_exact_cache c))) (heap c))); [reflexivity | reflexivity |].
  now apply well_formed_del_all.
Qed.

Lemma well_formed_evict (c : cache) :
  well_formed c -> well_formed (_evict_lru c).
Proof.
  intros Hwf. destruct (evict_exact c) as [ks Hks].
  destruct (evict_frame c) as (Hh & _).
  apply (well_formed_ext (with_heap (with_exact c (del_all ks (_exact_cache c))) (heap c)));
    [exact Hks | simpl; now rewrite Hh |].
  now apply well_formed_del_all.
Qed.

Lemma bump_hits_frame (c : cache) a :
  let c' := bump_hits c a in
  length (heap c') = length (heap c) /\ _exact_cache c' = _exact_cache c /\
  _semantic_cache c' = _semantic_cache c /\ _stats c' = _stats c /\
  max_size c' = max_size c.
Proof.
  unfold bump_hits. destruct (heap c !! a); simpl; [|tauto].
  rewrite length_insert. tauto.
Qed.

(** *** What [set] does *)

Lemma set_spec (c : cache) q r t now :
  let c' := set py_strip py_lower sha256_hex16 get_embeddings c q r t now in
  let a := length (heap c) in
  (exists ks, _exact_cache c'
     = dict_set (_get_hash py_strip py_lower sha256_hex16 q) a (del_all ks (_exact_cache c))) /\
  (exists e, heap c' !! a = Some e /\ CacheEntry.response e = r /\
     CacheEntry.created_at e = now /\ CacheEntry.ttl e = ttl_or_default c t) /\
  length (heap c') = S (length (heap c)) /\
  max_size c' = max_size c.
Proof.
  intros c' a. subst c' a. unfold set. cbv zeta.
  destruct (evict_exact c) as [ks Hks].
  destruct (evict_frame c) as (Hh & _ & Hm & Ht & _).
  set (c1 := _evict_lru c) in *.
  assert (Httl : ttl_or_default c1 t = ttl_or_default c t)
    by (unfold ttl_or_default; now rewrite Ht).
  rewrite Httl, Hh. clear Httl.
  set (e0 := CacheEntry.mk q r None now 0 (ttl_or_default c t)).
  set (c3 := with_exact _ _).
  assert (Hc3 : heap c3 = heap c ++ [e0] /\ max_size c3 = max_size c /\
                _exact_cache c3 = dict_set (_get_hash py_strip py_lower sha256_hex16 q) (length (heap c))
                                    (del_all ks (_exact_cache c))).
  { subst c3; simpl. now rewrite Hks, Hm. }
  destruct Hc3 as (Hh3 & Hm3 & He3). clearbody c3.
  assert (Hlook : (heap c ++ [e0]) !! length (heap c) = Some e0)
    by (rewrite lookup_app_r by lia; now rewrite Nat.sub_diag).
  destruct (enable_semantic c3) eqn:Hsem.
  - destruct (get_embedding_frame c3 q) as (Hh4 & He4 & _ & _ & Hm4 & _).
    destruct (_get_embedding get_embeddings c3 q) as [c4 emb]. simpl in Hh4, He4, Hm4.
    assert (Hres :
      let c5 := with_heap c4
        (<[length (heap c) := CacheEntry.with_embedding e0 emb]> (heap c4)) in
      (exists ks0, _exact_cache c5
         = dict_set (_get_hash py_strip py_lower sha256_hex16 q) (length (heap c)) (del_all ks0 (_exact_cache c))) /\
      (exists e, heap c5 !! length (heap c) = Some e /\ CacheEntry.response e = r /\
         CacheEntry.created_at e = now /\ CacheEntry.ttl e = ttl_or_default c t) /\
      length (heap c5) = S (length (heap c)) /\ max_size c5 = max_size c).
    { simpl. rewrite He4, Hh4, Hm4, Hh3, He3, Hm3. repeat split.
      - now exists ks.
      - exists (CacheEntry.with_embedding e0 emb). split; [|now simpl].
        apply list_lookup_insert_eq. rewrite length_app; simpl; lia.
      - rewrite length_insert, length_app; simpl; lia. }
    destruct (truthy emb); exact Hres.
  - rewrite Hh3, He3, Hm3. repeat split.
    + now exists ks.
    + now exists e0.
    + rewrite length_app; simpl; lia.
Qed.

Lemma well_formed_set (c : cache) q r t now :
  well_formed c -> well_formed (set py_strip py_lower sha256_hex16 get_embeddings c q r t now).
Proof.
  intros [Hnd Hwf].
  destruct (set_spec c q r t now) as ([ks Hex] & _ & Hlen & _).
  split.
  - rewrite Hex. apply NoDup_dict_set. now apply NoDup_del_all.
  - rewrite Hex, Hlen. apply List.Forall_forall. intros p Hin.
    apply In_dict_set in Hin as [-> | Hin]; [simpl; lia|].
    apply In_del_all in Hin as [Hin _].
    pose proof (proj1 (List.Forall_forall _ _) Hwf p Hin). simpl in *. lia.
Qed.

(** *** What [get] does to the store *)

Lemma semantic_lookup_frame (c : cache) q :
  let c' := (semantic_lookup sqrt get_embeddings c q).1 in
  heap c' = heap c /\ _exact_cache c' = _exact_cache c /\
  _semantic_cache c' = _semantic_cache c /\ _stats c' = _stats c /\
  max_size c' = max_size c.
Proof.
  unfold semantic_lookup.
  destruct (enable_semantic c && _); simpl; [|tauto].
  unfold semantic_match.
  destruct (get_embedding_frame c q) as (H1 & H2 & H3 & H4 & H5 & _).
  destruct (_get_embedding get_embeddings c q) as [c1 [[|x v]|]]; simpl in *; try tauto.
  destruct (fold_left _ _ _) as [[ae|] bs]; simpl; try tauto.
  destruct (Qle_bool _ _); simpl; tauto.
Qed.

Lemma get_frame (c : cache) q now :
  let c' := (get py_strip py_lower sha256_hex16 sqrt get_embeddings c q now).1 in
  _exact_cache c' = _exact_cache (_cleanup_expired c now) /\
  length (heap c') = length (heap c) /\
  max_size c' = max_size c.
Proof.
  unfold get. set (c1 := _cleanup_expired c now).
  destruct (dict_get _ (items c1)) as [[a e]|].
  - destruct (bump_hits_frame c1 a) as (H1 & H2 & _ & _ & H3). simpl. tauto.
  - destruct (semantic_lookup_frame c1 q) as (H1 & H2 & _ & _ & H3).
    destruct (semantic_lookup sqrt get_embeddings c1 q) as [c2 [[a e]|]]; simpl in *.
    + destruct (bump_hits_frame c2 a) as (G1 & G2 & _ & _ & G3).
      rewrite G1, G2, G3, H1, H2, H3. tauto.
    + rewrite H1, H2, H3. tauto.
Qed.

Lemma well_formed_get (c : cache) q now :
  well_formed c -> well_formed (get py_strip py_lower sha256_hex16 sqrt get_embeddings c q now).1.
Proof.
  intros Hwf. destruct (get_frame c q now) as (H1 & H2 & _).
  apply (well_formed_ext (_cleanup_expired c now)); [assumption | now rewrite H2 |].
  now apply well_formed_cleanup.
Qed.

Lemma invalidate_exact (c : cache) q :
  _exact_cache (invalidate py_strip py_lower sha256_hex16 c q)
  = dict_del (_get_hash py_strip py_lower sha256_hex16 q) (_exact_cache c).
Proof.
  unfold invalidate.
  destruct (dict_get _ _) eqn:Hg; simpl; [reflexivity|].
  apply dict_get_None in Hg. unfold dict_del. symmetry.
  apply List.forallb_filter_id, forallb_forall. intros [k a] Hin. simpl.
  destruct (String.eqb_spec k (_get_hash py_strip py_lower sha256_hex16 q)) as [->|]; [|reflexivity].
  exfalso. apply Hg. unfold keys. apply in_map_iff. now exists (_get_hash py_strip py_lower sha256_hex16 q, a).
Qed.

Lemma invalidate_frame (c : cache) q :
  let c' := invalidate py_strip py_lower sha256_hex16 c q in
  heap c' = heap c /\ _semantic_cache c' = _semantic_cache c /\
  _stats c' = _stats c /\ max_size c' = max_size c /\
  enable_semantic c' = enable_semantic c /\ _embeddings c' = _embeddings c /\
  similarity_threshold c' = similarity_threshold c /\ ttl c' = ttl c.
Proof. unfold invalidate. destruct (dict_get _ _); simpl; tauto. Qed.

Lemma well_formed_invalidate (c : cache) q :
  well_formed c -> well_formed (invalidate py_strip py_lower sha256_hex16 c q).
Proof.
  intros Hwf. destruct (invalidate_frame c q) as (Hh & _).
  apply (well_formed_ext
           (with_heap (with_exact c (del_all [_get_hash py_strip py_lower sha256_hex16 q] (_exact_cache c)))
              (heap c))).
  - now rewrite invalidate_exact.
  - simpl. now rewrite Hh.
  - now apply well_formed_del_all.
Qed.

Lemma well_formed_step (c : cache) op :
  well_formed c -> well_formed (step py_strip py_lower sha256_hex16 sqrt get_embeddings c op).
Proof.
  destruct op; simpl.
  - apply well_formed_set.
  - apply well_formed_get.
  - apply well_formed_invalidate.
  - intros _. split; simpl; constructor.
Qed.

Lemma well_formed_run ops : forall c : cache,
  well_formed c -> well_formed (run py_strip py_lower sha256_hex16 sqrt get_embeddings c ops).
Proof.
  unfold run. induction ops as [|op ops IH]; intros c Hwf; simpl; [assumption|].
  apply IH. now apply well_formed_step.
Qed.

Lemma well_formed_init ms t thr sem : well_formed (init (R := R) ms t thr sem).
Proof. split; simpl; constructor. Qed.

(** *** Hits and misses of [get] *)



Lemma cleanup_keys_incl (c : cache) now k :
  In k (keys (_exact_cache (_cleanup_expired c now))) -> In k (keys (_exact_cache c)).
Proof. rewrite cleanup_exact. apply keys_del_all_incl. Qed.

Lemma get_miss (c : cache) q now :
  ~ In (_get_hash py_strip py_lower sha256_hex16 q) (keys (_exact_cache c)) ->
  (semantic_lookup sqrt get_embeddings (_cleanup_expired c now) q).2 = None ->
  (get py_strip py_lower sha256_hex16 sqrt get_embeddings c q now).2 = None.
Proof.
  intros Hnotin Hsem. unfold get.
  rewrite items_get_None.
  - destruct (semantic_lookup _ _ _ _) as [c2 found]. simpl in Hsem. now subst found.
  - apply dict_get_None. intros Hin. apply Hnotin. now apply cleanup_keys_incl in Hin.
Qed.



(** *** Size of the store *)

Lemma evict_makes_room (c : cache) :
  well_formed c -> 1 <= max_size c ->
  Z.of_nat (length (_exact_cache c)) <= max_size c ->
  Z.of_nat (length (_exact_cache (_evict_lru c))) < max_size c.
Proof.
  intros Hwf Hpos Hle. unfold _evict_lru.
  destruct (Z.leb_spec (max_size c) (Z.of_nat (length (_exact_cache c)))) as [Hfull|Hroom];
    [|exact Hroom].
  simpl.
  pose proof (items_length c Hwf) as Hlen.
  pose proof (sorted_length (lru_le (R := R)) (items c)) as Hslen.
  set (srt := sorted lru_le (items c)) in *.
  set (n := Z.to_nat (Z.max 1 (Z.of_nat (length srt) / 10))).
  assert (Hn : (1 <= n)%nat) by (subst n; lia).
  destruct srt as [|x srt'] eqn:Hsrt; [simpl in Hslen; lia|].
  destruct n as [|n']; [lia|]. cbn [firstn map].
  assert (Hx : In x.1 (keys (_exact_cache c))).
  { apply items_keys_incl. unfold keys. apply in_map.
    apply (sorted_In lru_le). fold srt. rewrite Hsrt. now left. }
  pose proof (length_del_all_In x.1 (x.1 :: map fst (firstn n' srt')) (_exact_cache c)
                (or_introl eq_refl) Hx).
  lia.
Qed.

Lemma set_size (c : cache) q r t now :
  well_formed c -> 1 <= max_size c ->
  Z.of_nat (length (_exact_cache c)) <= max_size c ->
  Z.of_nat (length (_exact_cache (set py_strip py_lower sha256_hex16 get_embeddings c q r t now)))
    <= max_size c.
Proof.
  intros Hwf Hpos Hle.
  pose proof (evict_makes_room c Hwf Hpos Hle) as Hroom.
  unfold set. cbv zeta.
  set (c1 := _evict_lru c) in *.
  set (c3 := with_exact _ _).
  assert (H3 : Z.of_nat (length (_exact_cache c3)) <= max_size c).
  { subst c3; simpl.
    pose proof (length_dict_set (_get_hash py_strip py_lower sha256_hex16 q) (length (heap c1)) (_exact_cache c1)).
    lia. }
  clearbody c3.
  destruct (enable_semantic c3); [|exact H3].
  destruct (get_embedding_frame c3 q) as (_ & He4 & _).
  destruct (_get_embedding get_embeddings c3 q) as [c4 emb]. simpl in He4.
  destruct (truthy emb); simpl; now rewrite He4.
Qed.

Lemma step_size (c : cache) op :
  well_formed c -> 1 <= max_size c ->
  Z.of_nat (length (_exact_cache c)) <= max_size c ->
  let c' := step py_strip py_lower sha256_hex16 sqrt get_embeddings c op in
  max_size c' = max_size c /\
  Z.of_nat (length (_exact_cache c')) <= max_size c.
Proof.
  intros Hwf Hpos Hle. destruct op as [q r t now | q now | q |]; simpl.
  - split; [apply set_spec | now apply set_size].
  - destruct (get_frame c q now) as (-> & _ & ->). split; [reflexivity|].
    rewrite cleanup_exact.
    pose proof (length_del_all
      (map fst (List.filter (fun kv => expired now kv.2.2) (items c))) (_exact_cache c)).
    lia.
  - split; [apply invalidate_frame|]. rewrite invalidate_exact.
    pose proof (length_dict_del (_get_hash py_strip py_lower sha256_hex16 q) (_exact_cache c)). lia.
  - split; [reflexivity | lia].
Qed.

Lemma run_size ops : forall c : cache,
  well_formed c -> 1 <= max_size c ->
  Z.of_nat (length (_exact_cache c)) <= max_size c ->
  Z.of_nat (length (_exact_cache (run py_strip py_lower sha256_hex16 sqrt get_embeddings c ops)))
    <= max_size c.
Proof.
  unfold run. induction ops as [|op ops IH]; intros c Hwf Hpos Hle; simpl; [exact Hle|].
  destruct (step_size c op Hwf Hpos Hle) as [Hm Hs].
  rewrite <- Hm. apply IH; [now apply well_formed_step | now rewrite Hm | now rewrite Hm].
Qed.

End Facts.
End CacheFacts.

(** ** The claims about the response cache *)

Module CacheClaims.
Import PyStr PyDict PyDictFacts Cache CacheFacts.

Section Claims.
Context {R : Type}.
Variable py_strip : string -> string.
Variable py_lower : string -> string.
Variable sha256_hex16 : string -> string.
Variable sqrt : Q -> Q.
Variable get_embeddings : option embedder.

Abbreviation run' := (run (R := R) py_strip py_lower sha256_hex16 sqrt get_embeddings).
Abbreviation get' := (get (R := R) py_strip py_lower sha256_hex16 sqrt get_embeddings).
Abbreviation set' := (set (R := R) py_strip py_lower sha256_hex16 get_embeddings).


(** C5, as the code has it.  With [max_size >= 1], the store of a cache
    built from a fresh one by any calls ([set] with distinct or repeated
    queries, and the other methods) holds at most [max_size] entries. *)
Theorem store_size_bounded (max_size : Z) (ttl thr : Q) (sem : bool)
    (ops : list (call R)) :
  1 <= max_size ->
  Z.of_nat (length (_exact_cache (run' (init max_size ttl thr sem) ops))) <= max_size.
Proof.
  intros Hpos.
  apply (run_size py_strip py_lower sha256_hex16 sqrt get_embeddings ops (init max_size ttl thr sem)).
  - apply well_formed_init.
  - exact Hpos.
  - simpl. lia.
Qed.


End Claims.

Import Examples.

Local Open Scope string_scope.

(** The unit test [test_cache_stats]: one hit, one miss, one entry. *)
Example cache_stats :
  let c1 := set strip lower toy_digest None cache_default "q1" "r1" None 1%Q in
  let g1 := get strip lower toy_digest toy_sqrt None c1 "q1" 2%Q in
  let g2 := get strip lower toy_digest toy_sqrt None g1.1 "q2" 3%Q in
  g1.2 = Some "r1" /\ g2.2 = None /\
  _stats g2.1 = mkStats 1 1 0 /\ length (_exact_cache g2.1) = 1%nat.
Proof. cbv zeta. repeat split. Qed.

(** An entry stored with [ttl = 10] is a miss once more than 10 seconds have
    passed, and a hit until then. *)
Example ttl_expiry :
  let c1 := set strip lower toy_digest None cache_default "q1" "r1" (Some 10%Q) 100%Q in
  (get strip lower toy_digest toy_sqrt None c1 "q1" 110%Q).2 = Some "r1" /\
  (get strip lower toy_digest toy_sqrt None c1 "q1" 111%Q).2 = None.
Proof. cbv zeta. split; reflexivity. Qed.

(** Scenario C of the specification at capacity 3: the fourth distinct query
    evicts the least-hit, oldest entry. *)
Example scenario_C :
  let c := run strip lower toy_digest toy_sqrt None (init 3 3600%Q (95 # 100)%Q false)
             [CallSet "q1" "r1" None 1%Q; CallSet "q2" "r2" None 2%Q;
              CallGet "q1" 3%Q; CallSet "q3" "r3" None 4%Q;
              CallSet "q4" "r4" None 5%Q] in
  keys (_exact_cache c) = ["q1"; "q3"; "q4"].
Proof. reflexivity. Qed.


(** C5 as stated fails for [max_size = 0]: the first [set] leaves one entry
    in the store. *)
Lemma zero_capacity_overflow :
  let c := run strip lower toy_digest toy_sqrt None cache_zero [CallSet "q1" "r1" None 1%Q] in
  max_size c = 0 /\
  length (_exact_cache c) = 1%nat /\
  ~ (Z.of_nat (length (_exact_cache c)) <= max_size c).
Proof.
  cbv zeta. repeat split. vm_compute. intros H. now apply H.
Defined.

(** Witness of C5 (amended): three distinct queries into a cache of
    capacity 2. *)
Lemma store_size_bounded_witness :
  Z.of_nat (length (_exact_cache
    (run strip lower toy_digest toy_sqrt None (init 2 3600%Q (95 # 100)%Q false)
       [CallSet "q1" "r1" None 1%Q; CallSet "q2" "r2" None 2%Q;
        CallSet "q3" "r3" None 3%Q]))) <= 2.
Proof.
  apply (store_size_bounded strip lower toy_digest toy_sqrt None 2 3600%Q (95 # 100)%Q false). lia.
Defined.


End CacheClaims.

(** ** Properties of the A/B test manager *)

Module ABTestFacts.
Import PyDict PyDictFacts ABTest PrimFloat.


Lemma firstn_prefix_next {A} (a b : list A) (w : A) :
  firstn (S (length a)) (a ++ w :: b) = a ++ [w].
Proof. induction a as [|x a IH]; simpl; [reflexivity|]. now rewrite IH. Qed.

(** The loop, started after the prefix [pre] with its weights accumulated,
    finds the first position of the whole list whose cumulative weight
    exceeds the bucket. *)
Lemma walk_from_prefix (bucket : float) (rest : dict float) :
  forall pre : dict float,
  walk bucket (fold_left add (values pre) 0%float) rest
  = match List.find (fun i => ltb bucket (cumulative_weight (pre ++ rest) i))
                    (seq (length pre) (length rest)) with
    | Some i => nth_error (keys (pre ++ rest)) i
    | None => None
    end.
Proof.
  induction rest as [|[variant weight] rest IH]; intros pre; [reflexivity|].
  cbn [walk length seq List.find].
  assert (Hcum : cumulative_weight (pre ++ (variant, weight) :: rest) (length pre)
                 = add (fold_left add (values pre) 0%float)
                     weight).
  { unfold cumulative_weight, values. rewrite map_app. cbn [map snd].
    rewrite <- (length_map snd pre), firstn_prefix_next, fold_left_app. reflexivity. }
  rewrite Hcum.
  destruct (ltb bucket _) eqn:Hlt.
  - unfold keys. rewrite map_app, nth_error_app2 by (rewrite length_map; lia).
    rewrite length_map, Nat.sub_diag. reflexivity.
  - assert (Hs : add (fold_left add (values pre) 0%float) weight
                 = fold_left add (values (pre ++ [(variant, weight)]))
                     0%float)
      by (unfold values; rewrite map_app, fold_left_app; reflexivity).
    rewrite Hs, IH, length_app, <- app_assoc. cbn [length app].
    rewrite Nat.add_1_r. reflexivity.
Qed.

Lemma walk_first_exceeding (bucket : float) (vs : dict float) :
  walk bucket 0%float vs = first_exceeding bucket vs.
Proof. exact (walk_from_prefix bucket vs []). Qed.

Lemma last_item_last (l : list string) :
  last_item l = match List.last (map Some l) None with
                | Some x => inr x
                | None => inl IndexError
                end.
Proof.
  unfold last_item. destruct l as [|x l] using rev_ind; [reflexivity|].
  rewrite rev_app_distr, map_app. cbn [map]. rewrite last_last. reflexivity.
Qed.

(** A NaN total passes the test of the code, and is not within 0.01 of 1.0
    as the specification words it. *)
Lemma sums_to_one_nan :
  weights_off nan = false /\ sums_to_one nan = false.
Proof. split; reflexivity. Qed.

End ABTestFacts.

(** ** The claims about the A/B test manager *)

Module ABTestClaims.
Import PyDict PyDictFacts ABTest ABTestFacts PrimFloat.

Local Open Scope string_scope.

Section Claims.
Context {M : Type}.
Variable md5_int : string -> Z.
Variable float_sum : list float -> float.

Abbreviation manager := (ABTestManager M).

(** C6, as the code has it.  For an unknown experiment [get_variant]
    returns the literal ["default"]; for a disabled one, its first
    declared variant; for an enabled one, with
    [bucket = (md5(name + ":" + session_id) mod 10000) / 10000], the first
    variant in declared order whose cumulative weight, the weights added
    one after the other in binary64 arithmetic, exceeds the bucket, and
    the last declared variant if there is none.  Where the variant named
    does not exist (no variants declared) the call raises [IndexError]. *)
Theorem get_variant_allocation (m : manager) (experiment_name session_id : string) :
  get_variant md5_int m experiment_name session_id =
  match experiments m !! experiment_name with
  | None => inr "default"
  | Some experiment =>
      let declared := keys (variants experiment) in
      let chosen :=
        if enabled experiment then
          match first_exceeding (bucket_of md5_int experiment_name session_id)
                  (variants experiment) with
          | Some v => Some v
          | None => List.last (map Some declared) None
          end
        else List.head declared in
      match chosen with
      | Some v => inr v
      | None => inl IndexError
      end
  end.
Proof.
  unfold get_variant.
  destruct (experiments m !! experiment_name) as [experiment|]; [|reflexivity].
  cbv zeta. destruct (enabled experiment); cbn [negb].
  - rewrite walk_first_exceeding.
    destruct (first_exceeding _ _); [reflexivity | apply last_item_last].
  - now destruct (keys (variants experiment)).
Qed.

(** C7, as the code has it.  [create_experiment] does not look at whether
    the name is taken: with weights that pass its test, that is with
    [abs(sum(weights) - 1.0) > 0.01] false in binary64 arithmetic, it
    succeeds for every name, binds the name to the new experiment
    (enabled, created now) in place of any earlier one, and leaves the
    other experiments and the results as they were. *)
Theorem create_experiment_replaces (m : manager) (name : string)
    (variants : dict float) (description : string) (now : Q) :
  weights_off (sum float_sum (values variants)) = false ->
  let experiment := mkExperiment name variants true now description in
  let m' := (create_experiment float_sum m name variants description now).1 in
  (create_experiment float_sum m name variants description now).2 = inr experiment /\
  experiments m' !! name = Some experiment /\
  (forall other, other <> name -> experiments m' !! other = experiments m !! other) /\
  results m' = results m.
Proof.
  intros Hok experiment m'. subst m'. unfold create_experiment. rewrite Hok.
  cbn [fst snd experiments results]. repeat split.
  - apply lookup_insert_eq.
  - intros other Hne. now apply lookup_insert_ne.
Qed.

(** C8, as the code has it.  When [abs(sum(weights) - 1.0) > 0.01] holds in
    binary64 arithmetic, both [create_experiment] and [update_traffic]
    raise and leave the manager as it was. *)
Theorem bad_weights_rejected (m : manager) (name : string)
    (variants : dict float) (description : string) (now : Q) :
  weights_off (sum float_sum (values variants)) = true ->
  create_experiment float_sum m name variants description now
    = (m, inl (WeightsError (sum float_sum (values variants)))) /\
  (exists e, update_traffic float_sum m name variants = (m, inl e)).
Proof.
  intros Hbad.
  unfold create_experiment, update_traffic. rewrite Hbad. split; [reflexivity|].
  destruct (experiments m !! name); eexists; reflexivity.
Qed.

End Claims.

Import Examples.
#[local] Set Warnings "-inexact-float".

(** With weights 0.3 and 0.7, bucket 0.006 goes to the first variant and
    bucket 0.503 to the second; a disabled experiment answers with its
    first variant. *)
Example rollout_allocation :
  let m := (create_experiment plain_sum manager0 "rollout"
              [("A", 0.3%float); ("B", 0.7%float)] "" 1%Q).1 in
  get_variant toy_md5 m "rollout" "session-0001" = inr "A" /\
  get_variant toy_md5 m "rollout" "s1" = inr "B" /\
  get_variant toy_md5 (enable_experiment m "rollout" false) "rollout" "s1" = inr "A".
Proof. vm_compute. repeat split. Qed.

(** Rounding decides: with weights 0.303, 0.376, 0.014 and 0.307 the
    cumulative weight after the third variant is 0.69300000000000006, so
    bucket 0.693 goes to the third variant; and three weights of 0.33,
    which add up to 0.98999999999999999, are refused. *)
Example rounding_decides :
  walk (float_of_Z 6930 / float_of_Z 10000) 0
    [("a", 0.303); ("b", 0.376); ("c", 0.014); ("d", 0.307)]%float = Some "c" /\
  weights_off (sum plain_sum [0.33; 0.33; 0.33]%float) = true.
Proof. vm_compute. split; reflexivity. Qed.

(** C6 as stated fails for an unknown experiment: there is no declared
    variant to return, and the code returns ["default"]. *)
Lemma unknown_experiment_default :
  experiments manager0 !! "no_such_experiment" = None /\
  get_variant toy_md5 manager0 "no_such_experiment" "session-1" = inr "default" /\
  getVariant_spec toy_md5 manager0 "no_such_experiment" "session-1" = None /\
  ~ (forall v, get_variant toy_md5 manager0 "no_such_experiment" "session-1" = inr v ->
               getVariant_spec toy_md5 manager0 "no_such_experiment" "session-1" = Some v).
Proof.
  assert (Hno : experiments manager0 !! "no_such_experiment" = None)
    by (vm_compute; reflexivity).
  assert (Hget : get_variant toy_md5 manager0 "no_such_experiment" "session-1" = inr "default")
    by (unfold get_variant; now rewrite Hno).
  assert (Hspec : getVariant_spec toy_md5 manager0 "no_such_experiment" "session-1" = None)
    by (unfold getVariant_spec; now rewrite Hno).
  repeat split; try assumption.
  intros H. specialize (H "default" Hget). rewrite Hspec in H. discriminate H.
Defined.

(** C7 as stated fails: ["llm_provider"] exists in a new manager, and
    creating it again succeeds and replaces its configuration. *)
Lemma existing_name_not_rejected :
  let before := experiments manager0 !! "llm_provider" in
  let call := create_experiment plain_sum manager0 "llm_provider"
                [("treatment", 1%float)] "" 5%Q in
  before = Some (mkExperiment "llm_provider" [("dashscope", 1%float); ("openai", 0%float)]
                   true 0%Q "主备模型对比") /\
  call.2 = inr (mkExperiment "llm_provider" [("treatment", 1%float)] true 5%Q "") /\
  experiments call.1 !! "llm_provider" <> before.
Proof.
  cbv zeta.
  assert (Hbefore : experiments manager0 !! "llm_provider"
            = Some (mkExperiment "llm_provider"
                      [("dashscope", 1%float); ("openai", 0%float)]
                      true 0%Q "主备模型对比")) by (vm_compute; reflexivity).
  split; [exact Hbefore | split; [vm_compute; reflexivity|]].
  rewrite Hbefore.
  assert (Hafter : experiments (create_experiment plain_sum manager0 "llm_provider"
                                  [("treatment", 1%float)] "" 5%Q).1 !! "llm_provider"
            = Some (mkExperiment "llm_provider" [("treatment", 1%float)] true 5%Q ""))
    by (vm_compute; reflexivity).
  rewrite Hafter. intros H; discriminate H.
Defined.

(** Witness of C7 (amended): the same call, seen through the theorem. *)
Lemma create_experiment_replaces_witness :
  experiments (create_experiment plain_sum manager0 "llm_provider"
                 [("treatment", 1%float)] "" 5%Q).1
    !! "llm_provider"
  = Some (mkExperiment "llm_provider" [("treatment", 1%float)] true 5%Q "").
Proof.
  refine (proj1 (proj2 (create_experiment_replaces plain_sum manager0 "llm_provider"
                          [("treatment", 1%float)] "" 5%Q _))).
  vm_compute. reflexivity.
Defined.

(** C8 as stated fails for weights whose sum is a NaN: it is not within
    0.01 of 1.0, yet the test [abs(nan - 1.0) > 0.01] is false, so
    [create_experiment] stores the experiment and [update_traffic] the
    weights. *)
Lemma nan_weights_accepted :
  let variants := [("A", nan)] in
  let created := create_experiment plain_sum manager0 "rollout" variants "" 5%Q in
  let updated := update_traffic plain_sum manager0 "llm_provider" variants in
  sums_to_one (sum plain_sum (values variants)) = false /\
  created.2 = inr (mkExperiment "rollout" variants true 5%Q "") /\
  experiments created.1 !! "rollout" = Some (mkExperiment "rollout" variants true 5%Q "") /\
  updated.2 = inr tt /\
  experiments updated.1 !! "llm_provider"
  = Some (mkExperiment "llm_provider" variants true 0%Q "主备模型对比") /\
  ~ (exists e, created = (manager0, inl e)) /\
  ~ (exists e, updated = (manager0, inl e)).
Proof.
  cbv zeta. repeat split; try (vm_compute; reflexivity).
  - intros [e He]. apply (f_equal snd) in He. vm_compute in He. discriminate He.
  - intros [e He]. apply (f_equal snd) in He. vm_compute in He. discriminate He.
Defined.

(** Witness of C8 (amended): weights 0.3 and 0.3 are refused by both
    operations. *)
Lemma bad_weights_rejected_witness :
  create_experiment plain_sum manager0 "rollout" [("A", 0.3%float); ("B", 0.3%float)] "" 5%Q
    = (manager0, inl (WeightsError (sum plain_sum [0.3%float; 0.3%float]))) /\
  (exists e, update_traffic plain_sum manager0 "rollout"
               [("A", 0.3%float); ("B", 0.3%float)]
             = (manager0, inl e)).
Proof.
  apply (bad_weights_rejected plain_sum manager0 "rollout"
           [("A", 0.3%float); ("B", 0.3%float)] "" 5%Q).
  vm_compute. reflexivity.
Defined.

End ABTestClaims.

(** ** The claim about the intent dispatcher *)

Module SupervisorClaims.
Import PyStr PyStrFacts Supervisor.

Local Open Scope string_scope.

Lemma find_first {A} (f : A -> bool) (l1 l2 : list A) (a : A) :
  (forall b, In b l1 -> f b = false) -> f a = true ->
  List.find f (l1 ++ a :: l2)%list = Some a.
Proof.
  intros Hl1 Ha. induction l1 as [|b l1 IH]; simpl.
  - now rewrite Ha.
  - rewrite (Hl1 b) by now left. apply IH. intros b' Hb'. apply Hl1. now right.
Qed.

Lemma find_none {A} (f : A -> bool) (l : list A) :
  (forall b, In b l -> f b = false) -> List.find f l = None.
Proof.
  intros Hl. induction l as [|b l IH]; simpl; [reflexivity|].
  rewrite (Hl b) by now left. apply IH. intros b' Hb'. apply Hl. now right.
Qed.

Lemma occurs_contains (needle hay : string) :
  contains needle hay = true <-> occurs needle hay.
Proof. apply contains_substring. Qed.

(** C9, as the code has it.  Writing [name] for the lower-cased, stripped
    response: the dispatcher always returns one of the four identifiers; it
    returns the first of them, in the order Product, Order, AfterSales,
    Chitchat, whose lower-cased form occurs in [name], and ChitchatAgent
    when none occurs; so a response that is an identifier, letter case and
    surrounding white space aside, selects that identifier, and a response
    that selects another handler than ChitchatAgent contains its
    identifier. *)
Theorem route_first_occurrence (content : string) :
  let name := lower (strip content) in
  In (route_response content) valid_agents /\
  (forall earlier a later,
     valid_agents = (earlier ++ a :: later)%list ->
     (forall b, In b earlier -> ~ occurs (lower b) name) ->
     occurs (lower a) name ->
     route_response content = a) /\
  ((forall b, In b valid_agents -> ~ occurs (lower b) name) ->
   route_response content = "ChitchatAgent") /\
  (forall a, In a valid_agents -> lower a = name -> route_response content = a) /\
  (route_response content <> "ChitchatAgent" ->
   occurs (lower (route_response content)) name).
Proof.
  intros name. unfold route_response. fold name.
  set (f := fun valid_agent => contains (lower valid_agent) name).
  repeat split.
  - destruct (List.find f valid_agents) as [a|] eqn:Hf.
    + now apply List.find_some in Hf as [Hin _].
    + simpl; tauto.
  - intros earlier a later Hsplit Hearlier Ha. rewrite Hsplit, find_first; [reflexivity| |].
    + intros b Hb. destruct (f b) eqn:Hfb; [|reflexivity].
      exfalso. apply (Hearlier b Hb). now apply occurs_contains.
    + now apply occurs_contains.
  - intros Hnone. rewrite find_none; [reflexivity|].
    intros b Hb. destruct (f b) eqn:Hfb; [|reflexivity].
    exfalso. apply (Hnone b Hb). now apply occurs_contains.
  - intros a Hin Hname. subst f. cbv beta. rewrite <- Hname.
    simpl in Hin. destruct Hin as [<- | [<- | [<- | [<- | []]]]]; reflexivity.
  - destruct (List.find f valid_agents) as [a|] eqn:Hf; [|congruence].
    intros _. apply List.find_some in Hf as [_ Hfa]. now apply occurs_contains.
Qed.

(** C9 as stated fails: a response that is no identifier but contains one is
    routed to that handler, not to the fallback. *)
Lemma sentence_response_not_fallback :
  let content := "I think OrderAgent should take this." in
  (forall a, In a valid_agents -> lower a <> lower content) /\
  route_spec content = "ChitchatAgent" /\
  route_response content = "OrderAgent" /\
  route_response content <> route_spec content.
Proof.
  cbv zeta. repeat split.
  - intros a [<- | [<- | [<- | [<- | []]]]]; vm_compute; intros H; discriminate H.
  - vm_compute. intros H; discriminate H.
Defined.

(** Witness of C9 (amended): an identifier in capitals between spaces,
    and the sentence above. *)
Lemma route_first_occurrence_witness :
  route_response "  ORDERAGENT  " = "OrderAgent" /\
  route_response "I think OrderAgent should take this." = "OrderAgent".
Proof.
  split.
  - refine (proj1 (proj2 (proj2 (proj2 (route_first_occurrence "  ORDERAGENT  "))))
              "OrderAgent" _ eq_refl).
    simpl; tauto.
  - refine (proj1 (proj2 (route_first_occurrence "I think OrderAgent should take this."))
              ["ProductAgent"] "OrderAgent" ["AfterSalesAgent"; "ChitchatAgent"]
              eq_refl _ _).
    + intros b [<- | []] Hocc. apply occurs_contains in Hocc. vm_compute in Hocc.
      discriminate Hocc.
    + apply occurs_contains. reflexivity.
Defined.

End SupervisorClaims.

(** ** More properties of the response cache *)

Module CacheMoreFacts.
Import PyStr PyDict PyDictFacts Cache CacheFacts CacheMore.

Section Facts.
Context {R : Type}.
Variable py_strip : string -> string.
Variable py_lower : string -> string.
Variable sha256_hex16 : string -> string.
Variable sqrt : Q -> Q.
Variable get_embeddings : option embedder.

Abbreviation cache := (ResponseCache R).
Abbreviation run' := (run (R := R) py_strip py_lower sha256_hex16 sqrt get_embeddings).
Abbreviation step' := (step (R := R) py_strip py_lower sha256_hex16 sqrt get_embeddings).
Abbreviation get' := (get (R := R) py_strip py_lower sha256_hex16 sqrt get_embeddings).
Abbreviation set' := (set (R := R) py_strip py_lower sha256_hex16 get_embeddings).

Lemma semantic_lookup_off (c : cache) q :
  enable_semantic c = false -> semantic_lookup sqrt get_embeddings c q = (c, None).
Proof. intros H. unfold semantic_lookup. now rewrite H. Qed.

Lemma semantic_lookup_empty (c : cache) q :
  _semantic_cache c = [] -> semantic_lookup sqrt get_embeddings c q = (c, None).
Proof.
  intros H. unfold semantic_lookup. rewrite H. simpl. now rewrite andb_false_r.
Qed.

Lemma get_miss_cleaned (c : cache) q now :
  dict_get (_get_hash py_strip py_lower sha256_hex16 q) (_exact_cache (_cleanup_expired c now)) = None ->
  (semantic_lookup sqrt get_embeddings (_cleanup_expired c now) q).2 = None ->
  (get' c q now).2 = None.
Proof.
  intros Hg Hsem. unfold get. rewrite (items_get_None _ _ Hg).
  destruct (semantic_lookup _ _ _ _) as [c2 found]. simpl in Hsem. now subst found.
Qed.

Lemma dict_get_del_all_In {V} k ks : forall d : dict V,
  In k ks -> dict_get k (del_all ks d) = None.
Proof.
  intros d Hin. apply dict_get_None. intros Hk.
  unfold keys in Hk. apply in_map_iff in Hk as (p & <- & Hp).
  apply In_del_all in Hp as [_ Hnot]. contradiction.
Qed.

(** X1.  After [clear()] every [get] is a miss, in exact and in semantic
    mode alike, and is counted as one: [clear] empties both stores but
    keeps the hit and miss counters. *)
Theorem clear_then_get_misses (c : cache) (q : string) (now : Q) :
  let res := get' (clear c) q now in
  res.2 = None /\
  _exact_cache res.1 = [] /\ _semantic_cache res.1 = [] /\
  _stats res.1 = mkStats (hits (_stats c)) (misses (_stats c) + 1) (semantic_hits (_stats c)).
Proof.
  unfold get, _cleanup_expired, semantic_lookup, clear, items, semantic_entries. simpl.
  rewrite andb_false_r. simpl. repeat split.
Qed.

(** *** Semantic mode switched off, or an embedding model that does not load *)

Lemma bump_hits_config (c : cache) a :
  let c' := bump_hits c a in
  enable_semantic c' = enable_semantic c /\ _embeddings c' = _embeddings c /\
  _semantic_cache c' = _semantic_cache c /\ _stats c' = _stats c /\
  similarity_threshold c' = similarity_threshold c /\ ttl c' = ttl c.
Proof. unfold bump_hits. destruct (heap c !! a); simpl; tauto. Qed.

(** What the invariant below says of a cache. *)
Lemma set_no_semantic (c : cache) q r t now :
  _semantic_cache c = [] -> _embeddings c = None ->
  enable_semantic c = false \/ get_embeddings = None ->
  let c' := set' c q r t now in
  _semantic_cache c' = [] /\ _embeddings c' = None /\
  (enable_semantic c' = false \/ get_embeddings = None).
Proof.
  intros Hs He Hoff. unfold set. cbv zeta.
  destruct (evict_frame c) as (_ & _ & _ & _ & _ & Hen & Hemb & Hsem).
  set (c1 := _evict_lru c) in *.
  set (e0 := CacheEntry.mk _ _ _ _ _ _).
  set (c3 := with_exact _ _).
  assert (H3 : enable_semantic c3 = enable_semantic c /\ _embeddings c3 = None /\
               _semantic_cache c3 = []).
  { subst c3; simpl. rewrite Hen, Hemb, Hsem. auto. }
  destruct H3 as (Hen3 & Hemb3 & Hsem3). clearbody c3.
  destruct (enable_semantic c3) eqn:Hon.
  - destruct Hoff as [Hoff | Hload]; [congruence|].
    unfold _get_embedding. rewrite Hon, Hemb3, Hload. simpl. rewrite Hsem3, Hemb3. auto.
  - rewrite Hsem3, Hemb3. auto.
Qed.

Lemma get_no_semantic (c : cache) q now :
  _semantic_cache c = [] -> _embeddings c = None ->
  enable_semantic c = false \/ get_embeddings = None ->
  let c' := (get' c q now).1 in
  _semantic_cache c' = [] /\ _embeddings c' = None /\
  (enable_semantic c' = false \/ get_embeddings = None).
Proof.
  intros Hs He Hoff. unfold get.
  set (c1 := _cleanup_expired c now).
  assert (H1 : _semantic_cache c1 = [] /\ _embeddings c1 = None /\
               enable_semantic c1 = enable_semantic c).
  { subst c1. unfold _cleanup_expired, semantic_entries; simpl. rewrite Hs. simpl. auto. }
  destruct H1 as (Hs1 & He1 & Hen1). clearbody c1.
  destruct (dict_get _ (items c1)) as [[a e]|].
  - destruct (bump_hits_config c1 a) as (G1 & G2 & G3 & _). simpl.
    rewrite G1, G2, G3, Hs1, He1, Hen1. auto.
  - rewrite (semantic_lookup_empty c1 q Hs1). simpl. rewrite Hs1, He1, Hen1. auto.
Qed.

Lemma step_no_semantic (c : cache) op :
  _semantic_cache c = [] -> _embeddings c = None ->
  enable_semantic c = false \/ get_embeddings = None ->
  let c' := step' c op in
  _semantic_cache c' = [] /\ _embeddings c' = None /\
  (enable_semantic c' = false \/ get_embeddings = None).
Proof.
  intros Hs He Hoff. destruct op as [q r t now | q now | q |]; simpl.
  - now apply set_no_semantic.
  - now apply get_no_semantic.
  - destruct (invalidate_frame py_strip py_lower sha256_hex16 c q) as (_ & G1 & _ & _ & G2 & G3 & _).
    rewrite G1, G2, G3. auto.
  - auto.
Qed.

Lemma set_keeps_off (c : cache) q r t now :
  enable_semantic c = false -> enable_semantic (set' c q r t now) = false.
Proof.
  intros Hoff. unfold set. cbv zeta.
  destruct (evict_frame c) as (_ & _ & _ & _ & _ & Hen & _).
  set (c3 := with_exact _ _).
  assert (Hen3 : enable_semantic c3 = false) by (subst c3; simpl; congruence).
  clearbody c3. now rewrite Hen3.
Qed.

(** X2.  A cache created with semantic mode off, or one whose embedding
    model cannot be loaded, never stores a semantic entry and never holds
    an embedding model, whatever is called on it. *)
Theorem semantic_store_stays_empty (max_size : Z) (ttl thr : Q) (sem : bool)
    (ops : list (call R)) :
  sem = false \/ get_embeddings = None ->
  let c := run' (init max_size ttl thr sem) ops in
  _semantic_cache c = [] /\ _embeddings c = None /\
  (sem = false -> enable_semantic c = false).
Proof.
  intros Hoff c. subst c.
  assert (Hinv : forall c0 : cache,
            _semantic_cache c0 = [] -> _embeddings c0 = None ->
            enable_semantic c0 = false \/ get_embeddings = None ->
            (sem = false -> enable_semantic c0 = false) ->
            _semantic_cache (run' c0 ops) = [] /\ _embeddings (run' c0 ops) = None /\
            (sem = false -> enable_semantic (run' c0 ops) = false)).
  { unfold run. induction ops as [|op ops' IH]; intros c0 Hs He Hor Hsem; simpl; [auto|].
    destruct (step_no_semantic c0 op Hs He Hor) as (Hs' & He' & Hor').
    apply IH; try assumption.
    intros Hf. specialize (Hsem Hf).
    destruct op as [q r t now | q now | q |]; simpl.
    - now apply set_keeps_off.
    - unfold get. set (c1 := _cleanup_expired c0 now).
      assert (Hen1 : enable_semantic c1 = false) by exact Hsem.
      assert (Hs1 : _semantic_cache c1 = [])
        by (subst c1; unfold _cleanup_expired, semantic_entries; simpl; now rewrite Hs).
      clearbody c1.
      destruct (dict_get _ (items c1)) as [[a e]|].
      + destruct (bump_hits_config c1 a) as (G1 & _). simpl. congruence.
      + rewrite (semantic_lookup_empty c1 q Hs1). simpl. exact Hen1.
    - destruct (invalidate_frame py_strip py_lower sha256_hex16 c0 q) as (_ & _ & _ & _ & G2 & _). congruence.
    - exact Hsem. }
  apply Hinv; simpl; auto.
Qed.

(** *** Expiry and invalidation in exact mode *)

(** X3.  In exact mode an entry is gone once its own TTL has elapsed: after
    [set(q, r, ttl)] at time [now], a [get] of the same normalized query at
    a time [now'] with [now' - now > ttl] (the default TTL for [ttl] of
    [None] or 0) is a miss. *)
Theorem expired_entry_is_miss (c : cache) (q q' : string) (r : R)
    (ttl_arg : option Q) (now now' : Q) :
  well_formed c ->
  enable_semantic c = false ->
  py_lower (py_strip q') = py_lower (py_strip q) ->
  (ttl_or_default c ttl_arg < now' - now)%Q ->
  (get' (set' c q r ttl_arg now) q' now').2 = None.
Proof.
  intros Hwf Hoff Hnorm Hlate.
  pose proof (well_formed_set py_strip py_lower sha256_hex16 get_embeddings c q r ttl_arg now Hwf) as [Hnd' _].
  destruct (set_spec py_strip py_lower sha256_hex16 get_embeddings c q r ttl_arg now)
    as ([ks Hex] & (e & Hh & _ & Hc & Ht) & _).
  set (c' := set' c q r ttl_arg now) in *.
  assert (Hkey : _get_hash py_strip py_lower sha256_hex16 q' = _get_hash py_strip py_lower sha256_hex16 q)
    by (unfold _get_hash; now rewrite Hnorm).
  apply get_miss_cleaned.
  - rewrite cleanup_exact. apply dict_get_del_all_In.
    apply in_map_iff. exists (_get_hash py_strip py_lower sha256_hex16 q, (length (heap c), e)).
    split; [now rewrite Hkey|]. apply filter_In. split.
    + apply items_In. split; [|exact Hh]. apply dict_get_In. rewrite Hex.
      apply dict_get_set_eq.
    + simpl. unfold expired. rewrite Hc, Ht. now apply Qlt_bool_iff.
  - rewrite semantic_lookup_off; [reflexivity|].
    destruct (cleanup_frame sqrt c' now') as (_ & _ & _ & _ & _ & -> & _).
    now apply set_keeps_off.
Qed.

(** X4.  In exact mode [invalidate(q)] makes the next [get] of the same
    normalized query a miss. *)
Theorem invalidate_then_get_misses (c : cache) (q q' : string) (now : Q) :
  enable_semantic c = false ->
  py_lower (py_strip q') = py_lower (py_strip q) ->
  (get' (invalidate py_strip py_lower sha256_hex16 c q) q' now).2 = None.
Proof.
  intros Hoff Hnorm.
  assert (Hkey : _get_hash py_strip py_lower sha256_hex16 q' = _get_hash py_strip py_lower sha256_hex16 q)
    by (unfold _get_hash; now rewrite Hnorm).
  apply get_miss.
  - rewrite invalidate_exact, Hkey, keys_dict_del, filter_In, String.eqb_refl.
    now intros [_ H].
  - rewrite semantic_lookup_off; [reflexivity|].
    destruct (cleanup_frame sqrt (invalidate py_strip py_lower sha256_hex16 c q) now) as (_ & _ & _ & _ & _ & -> & _).
    destruct (invalidate_frame py_strip py_lower sha256_hex16 c q) as (_ & _ & _ & _ & -> & _). exact Hoff.
Qed.

(** *** The hit and miss counters *)

Lemma set_keeps_stats (c : cache) q r t now : _stats (set' c q r t now) = _stats c.
Proof.
  unfold set. cbv zeta.
  destruct (evict_frame c) as (_ & Hst & _).
  set (c3 := with_exact _ _).
  assert (H3 : _stats c3 = _stats c) by (subst c3; simpl; exact Hst).
  clearbody c3.
  destruct (enable_semantic c3); [|exact H3].
  destruct (get_embedding_frame py_strip py_lower sha256_hex16 get_embeddings c3 q) as (_ & _ & _ & Hs4 & _).
  destruct (_get_embedding get_embeddings c3 q) as [c4 emb]. simpl in Hs4.
  destruct (truthy emb); simpl; congruence.
Qed.

(** A [get] adds one to [hits] or one to [misses], and one to
    [semantic_hits] only together with [hits]. *)
Lemma get_counts_once (c : cache) q now :
  let s := _stats c in
  let s' := _stats (get' c q now).1 in
  hits s' + misses s' = hits s + misses s + 1 /\
  hits s <= hits s' /\ misses s <= misses s' /\
  0 <= semantic_hits s' - semantic_hits s <= hits s' - hits s.
Proof.
  unfold get. set (c1 := _cleanup_expired c now).
  assert (H1 : _stats c1 = _stats c) by reflexivity. clearbody c1.
  destruct (dict_get _ (items c1)) as [[a e]|].
  - destruct (bump_hits_config c1 a) as (_ & _ & _ & G & _). simpl.
    rewrite G, H1. lia.
  - destruct (semantic_lookup_frame py_strip py_lower sha256_hex16 sqrt get_embeddings c1 q) as (_ & _ & _ & G2 & _).
    destruct (semantic_lookup sqrt get_embeddings c1 q) as [c2 [[a e]|]]; simpl in *.
    + destruct (bump_hits_config c2 a) as (_ & _ & _ & G & _).
      rewrite G, G2, H1. lia.
    + rewrite G2, H1. lia.
Qed.

Lemma run_counts (ops : list (call R)) : forall c : cache,
  let s := _stats c in
  let s' := _stats (run' c ops) in
  hits s' + misses s' = hits s + misses s + Z.of_nat (count_gets ops) /\
  hits s <= hits s' /\ misses s <= misses s' /\
  0 <= semantic_hits s' - semantic_hits s <= hits s' - hits s.
Proof.
  unfold run. induction ops as [|op ops IH]; intros c; cbv zeta.
  - unfold count_gets. simpl. lia.
  - cbn [fold_left]. specialize (IH (step' c op)). cbv zeta in IH.
    assert (Hstep :
      hits (_stats (step' c op)) + misses (_stats (step' c op))
        = hits (_stats c) + misses (_stats c)
          + Z.of_nat (count_gets [op]) /\
      hits (_stats c) <= hits (_stats (step' c op)) /\
      misses (_stats c) <= misses (_stats (step' c op)) /\
      0 <= semantic_hits (_stats (step' c op)) - semantic_hits (_stats c)
        <= hits (_stats (step' c op)) - hits (_stats c)).
    { destruct op as [q r t now | q now | q |]; cbn [step count_gets List.filter length].
      - rewrite set_keeps_stats. simpl. lia.
      - pose proof (get_counts_once c q now) as H. cbv zeta in H. simpl. lia.
      - destruct (invalidate_frame py_strip py_lower sha256_hex16 c q) as (_ & _ & -> & _). simpl. lia.
      - simpl. lia. }
    assert (Hcnt : count_gets (op :: ops) = (count_gets [op] + count_gets ops)%nat).
    { unfold count_gets. cbn [List.filter]. destruct op; simpl; reflexivity. }
    rewrite Hcnt. lia.
Qed.

(** X5.  What [get_stats] reports of a cache built from a fresh one: [hits]
    and [misses] add up to the number of [get] calls made, [semantic_hits]
    lies between 0 and [hits], and [size] is the length of the exact
    store. *)
Theorem stats_count_gets (round4 : Q -> Q) (max_size : Z) (ttl thr : Q) (sem : bool)
    (ops : list (call R)) :
  let report := get_stats round4 (run' (init max_size ttl thr sem) ops) in
  report_hits report + report_misses report = Z.of_nat (count_gets ops) /\
  0 <= report_semantic_hits report <= report_hits report /\
  0 <= report_misses report /\
  size report
    = Z.of_nat (length (_exact_cache (run' (init max_size ttl thr sem) ops))).
Proof.
  pose proof (run_counts ops (init max_size ttl thr sem)) as H.
  cbv zeta in *. unfold get_stats. simpl in *. repeat split; try lia.
Qed.

(** *** Entries of the semantic store *)

Lemma semantic_ok_ext (c c' : cache) :
  _semantic_cache c' = _semantic_cache c -> heap c' = heap c ->
  semantic_ok c -> semantic_ok c'.
Proof. unfold semantic_ok. intros -> ->. tauto. Qed.

Lemma semantic_ok_bump (c : cache) a : semantic_ok c -> semantic_ok (bump_hits c a).
Proof.
  unfold semantic_ok, bump_hits. intros Hok.
  destruct (heap c !! a) as [e0|] eqn:Ha; [|exact Hok]. simpl.
  apply List.Forall_forall. intros b Hb.
  destruct (proj1 (List.Forall_forall _ _) Hok b Hb) as (e & He & Ht).
  destruct (Nat.eq_dec a b) as [->|Hne].
  - exists (CacheEntry.with_hits e0 (CacheEntry.hits e0 + 1)). split.
    + apply list_lookup_insert_eq. now apply lookup_lt_Some in Ha.
    + simpl. congruence.
  - exists e. split; [|exact Ht]. now rewrite list_lookup_insert_ne.
Qed.

Lemma semantic_ok_cleanup (c : cache) now :
  semantic_ok c -> semantic_ok (_cleanup_expired c now).
Proof.
  unfold semantic_ok, _cleanup_expired; simpl. intros Hok.
  apply List.Forall_forall. intros a Ha.
  apply in_map_iff in Ha as ([a' e] & Heq & Hin). simpl in Heq; subst a'.
  apply filter_In in Hin as [Hin _].
  unfold semantic_entries in Hin. simpl in Hin.
  apply list_elem_of_In, list_elem_of_omap in Hin as (b & Hb & Hf).
  destruct (heap c !! b) as [e'|] eqn:Hh; [|discriminate]. injection Hf as <- <-.
  apply list_elem_of_In in Hb. exact (proj1 (List.Forall_forall _ _) Hok b Hb).
Qed.

Lemma semantic_ok_set (c : cache) q r t now :
  semantic_ok c -> semantic_ok (set' c q r t now).
Proof.
  intros Hok. unfold set. cbv zeta.
  destruct (evict_frame c) as (Hh & _ & _ & _ & _ & _ & _ & Hsem).
  set (c1 := _evict_lru c) in *.
  set (e0 := CacheEntry.mk _ _ _ _ _ _).
  set (c3 := with_exact _ _).
  assert (H3 : heap c3 = heap c ++ [e0] /\ _semantic_cache c3 = _semantic_cache c).
  { subst c3; simpl. now rewrite Hh, Hsem. }
  destruct H3 as (Hh3 & Hs3).
  assert (Hok3 : semantic_ok c3).
  { unfold semantic_ok. rewrite Hs3, Hh3. apply List.Forall_forall. intros a Ha.
    destruct (proj1 (List.Forall_forall _ _) Hok a Ha) as (e & He & Ht).
    exists e. split; [|exact Ht]. rewrite lookup_app_l; [exact He|].
    now apply lookup_lt_Some in He. }
  rewrite Hh. clearbody c3.
  destruct (enable_semantic c3); [|exact Hok3].
  destruct (get_embedding_frame py_strip py_lower sha256_hex16 get_embeddings c3 q) as (Hh4 & _ & Hs4 & _).
  destruct (_get_embedding get_embeddings c3 q) as [c4 emb]. simpl in Hh4, Hs4.
  assert (Hnew : forall a, In a (_semantic_cache c) ->
            exists e, <[length (heap c) := CacheEntry.with_embedding e0 emb]> (heap c4) !! a
                      = Some e /\ truthy (CacheEntry.embedding e) = true).
  { intros a Ha.
    destruct (proj1 (List.Forall_forall _ _) Hok a Ha) as (e & He & Ht).
    exists e. split; [|exact Ht].
    pose proof (lookup_lt_Some _ _ _ He) as Hlt.
    rewrite list_lookup_insert_ne by lia. rewrite Hh4, Hh3.
    now rewrite lookup_app_l. }
  destruct (truthy emb) eqn:Hemb; unfold semantic_ok; simpl; rewrite Hs4, Hs3.
  - apply Forall_app. split; [now apply List.Forall_forall|].
    constructor; [|constructor].
    exists (CacheEntry.with_embedding e0 emb). split; [|exact Hemb].
    apply list_lookup_insert_eq. rewrite Hh4, Hh3, length_app. simpl. lia.
  - now apply List.Forall_forall.
Qed.

Lemma semantic_ok_get (c : cache) q now :
  semantic_ok c -> semantic_ok (get' c q now).1.
Proof.
  intros Hok. apply (semantic_ok_cleanup c now) in Hok. unfold get.
  set (c1 := _cleanup_expired c now) in *. clearbody c1.
  destruct (dict_get _ (items c1)) as [[a e]|].
  - simpl. apply (semantic_ok_ext (bump_hits c1 a)); [reflexivity | reflexivity |].
    now apply semantic_ok_bump.
  - destruct (semantic_lookup_frame py_strip py_lower sha256_hex16 sqrt get_embeddings c1 q)
      as (H1 & _ & H3 & _).
    destruct (semantic_lookup sqrt get_embeddings c1 q) as [c2 [[a e]|]]; simpl in *.
    + apply (semantic_ok_ext (bump_hits c2 a)); [reflexivity | reflexivity |].
      apply semantic_ok_bump. now apply (semantic_ok_ext c1).
    + now apply (semantic_ok_ext c1).
Qed.

(** X7.  Only entries whose embedding was computed are in the semantic
    store: in a cache built from a fresh one by any calls, every address in
    [_semantic_cache] is that of a stored entry with a non-empty
    embedding. *)
Theorem semantic_entries_have_embeddings (max_size : Z) (ttl thr : Q) (sem : bool)
    (ops : list (call R)) :
  semantic_ok (run' (init max_size ttl thr sem) ops).
Proof.
  assert (Hinv : forall c : cache, semantic_ok c -> semantic_ok (run' c ops)).
  { unfold run. induction ops as [|op ops' IH]; intros c Hok; simpl; [exact Hok|].
    apply IH. destruct op as [q r t now | q now | q |]; simpl.
    - now apply semantic_ok_set.
    - now apply semantic_ok_get.
    - destruct (invalidate_frame py_strip py_lower sha256_hex16 c q) as (Hh & Hs & _).
      now apply (semantic_ok_ext c).
    - constructor. }
  apply Hinv. constructor.
Qed.

End Facts.

(** *** [sorted] sorts *)

Section Sorting.
Context {A : Type}.
Variable le : A -> A -> bool.
Hypothesis le_total : forall x y, le x y = true \/ le y x = true.
Hypothesis le_trans : forall x y z, le x y = true -> le y z = true -> le x z = true.

Lemma insert_sorted_perm (x : A) (l : list A) :
  Permutation (insert_sorted le x l) (x :: l).
Proof.
  induction l as [|y l IH]; simpl; [reflexivity|].
  destruct (le x y); [reflexivity|].
  rewrite IH. apply perm_swap.
Qed.

Lemma sorted_perm (l : list A) : Permutation (sorted le l) l.
Proof.
  unfold sorted. induction l as [|x l IH]; simpl; [reflexivity|].
  rewrite insert_sorted_perm. now apply perm_skip.
Qed.

Lemma insert_sorted_sorted (x : A) (l : list A) :
  StronglySorted (fun a b => le a b = true) l ->
  StronglySorted (fun a b => le a b = true) (insert_sorted le x l).
Proof.
  induction l as [|y l IH]; intros Hs; simpl.
  - constructor; constructor.
  - apply StronglySorted_inv in Hs as [Hs Hy].
    destruct (le x y) eqn:Hxy.
    + constructor; [now constructor|]. constructor; [exact Hxy|].
      apply List.Forall_forall. intros z Hz. apply (le_trans x y z Hxy).
      revert z Hz. now apply List.Forall_forall.
    + constructor; [now apply IH|].
      apply List.Forall_forall. intros z Hz. apply insert_sorted_In in Hz as [-> | Hz].
      * destruct (le_total x y) as [H | H]; [congruence | exact H].
      * revert z Hz. now apply List.Forall_forall.
Qed.

Lemma sorted_sorted (l : list A) :
  StronglySorted (fun a b => le a b = true) (sorted le l).
Proof.
  unfold sorted. induction l as [|x l IH]; simpl; [constructor|].
  now apply insert_sorted_sorted.
Qed.

Lemma sorted_split (l1 l2 : list A) :
  StronglySorted (fun a b => le a b = true) (l1 ++ l2) ->
  forall x y, In x l1 -> In y l2 -> le x y = true.
Proof.
  induction l1 as [|a l1 IH]; intros Hs x y Hx Hy; [destruct Hx|].
  simpl in Hs. apply StronglySorted_inv in Hs as [Hs Ha].
  destruct Hx as [<- | Hx].
  - apply (proj1 (List.Forall_forall _ _) Ha). apply in_or_app. now right.
  - now apply IH.
Qed.

End Sorting.

Section Eviction.
Context {R : Type}.

Abbreviation item := (string * (nat * CacheEntry.t R))%type.

Lemma lru_le_total (x y : item) : lru_le x y = true \/ lru_le y x = true.
Proof.
  unfold lru_le.
  destruct (Z.ltb_spec (CacheEntry.hits x.2.2) (CacheEntry.hits y.2.2)); [now left|].
  destruct (Z.ltb_spec (CacheEntry.hits y.2.2) (CacheEntry.hits x.2.2)); [now right|].
  assert (Heq : CacheEntry.hits x.2.2 = CacheEntry.hits y.2.2) by lia.
  rewrite Heq, Z.eqb_refl. simpl.
  destruct (Qle_bool (CacheEntry.created_at x.2.2) (CacheEntry.created_at y.2.2)) eqn:Hc;
    [now left | right].
  apply Qle_bool_iff. apply Qlt_le_weak, Qnot_le_lt. intros Hle.
  apply Qle_bool_iff in Hle. congruence.
Qed.

Lemma lru_le_trans (x y z : item) :
  lru_le x y = true -> lru_le y z = true -> lru_le x z = true.
Proof.
  unfold lru_le. rewrite !orb_true_iff, !andb_true_iff, !Z.ltb_lt, !Z.eqb_eq, !Qle_bool_iff.
  intros [H1 | [H1 C1]] [H2 | [H2 C2]]; try (left; lia).
  right. split; [lia|]. now apply (Qle_trans _ _ _ C1).
Qed.

Lemma existsb_eqb_In (k : string) (l : list string) :
  existsb (String.eqb k) l = true <-> In k l.
Proof.
  rewrite existsb_exists. split.
  - intros (x & Hx & Heq). apply String.eqb_eq in Heq. now subst.
  - intros Hin. exists k. split; [assumption | apply String.eqb_refl].
Qed.

Lemma length_dict_del_NoDup {V} (k : string) (d : dict V) :
  List.NoDup (keys d) -> In k (keys d) -> S (length (dict_del k d)) = length d.
Proof.
  unfold dict_del, keys. induction d as [|[k' v'] d IH]; simpl; [tauto|].
  intros Hnd Hin. apply List.NoDup_cons_iff in Hnd as [Hnotin Hnd].
  destruct (String.eqb_spec k' k) as [->|Hne]; simpl.
  - rewrite List.forallb_filter_id; [reflexivity|].
    apply forallb_forall. intros [k0 v0] H0. simpl.
    destruct (String.eqb_spec k0 k) as [->|]; [|reflexivity].
    exfalso. apply Hnotin. apply in_map_iff. now exists (k, v0).
  - destruct Hin as [Heq | Hin]; [congruence|]. f_equal. now apply IH.
Qed.

Lemma length_del_all_NoDup {V} (ks : list string) : forall d : dict V,
  List.NoDup (keys d) -> List.NoDup ks -> (forall k, In k ks -> In k (keys d)) ->
  (length (del_all ks d) + length ks)%nat = length d.
Proof.
  unfold del_all. induction ks as [|k ks IH]; intros d Hnd Hks Hin; simpl; [lia|].
  apply List.NoDup_cons_iff in Hks as [Hk Hks].
  pose proof (length_dict_del_NoDup k d Hnd (Hin k (or_introl eq_refl))) as Hlen.
  rewrite <- Hlen, <- (IH (dict_del k d)); [lia | now apply NoDup_dict_del | exact Hks |].
  intros k' Hk'. rewrite keys_dict_del, filter_In. split; [apply Hin; now right|].
  destruct (String.eqb_spec k' k) as [->|]; [contradiction | reflexivity].
Qed.

Lemma NoDup_keys_inj {V} (d : dict V) (x y : string * V) :
  List.NoDup (keys d) -> In x d -> In y d -> x.1 = y.1 -> x = y.
Proof.
  intros Hnd Hx Hy Hk. destruct x as [k v], y as [k' v']. simpl in Hk. subst k'.
  pose proof (dict_get_NoDup k v d Hnd Hx). pose proof (dict_get_NoDup k v' d Hnd Hy).
  congruence.
Qed.

(** X6.  When the store is full, [_evict_lru] removes exactly
    [max(1, n // 10)] of its [n >= 1] entries, and they are the least used:
    every evicted entry comes no later than every retained one in the
    order by [(hits, created_at)]. *)
Theorem eviction_takes_least_used (c : ResponseCache R) :
  well_formed c ->
  max_size c <= Z.of_nat (length (_exact_cache c)) ->
  (1 <= length (_exact_cache c))%nat ->
  let n := length (_exact_cache c) in
  (length (_exact_cache (_evict_lru c)) + Z.to_nat (Z.max 1 (Z.of_nat n / 10)))%nat = n /\
  (forall x y, In x (evicted c) -> In y (retained c) -> lru_le x y = true).
Proof.
  intros Hwf Hfull Hne n.
  pose proof (items_length c Hwf) as Hlen.
  destruct Hwf as [Hnd Hwf].
  pose proof (items_NoDup c Hnd) as Hndi.
  pose proof (sorted_perm lru_le (items c)) as Hperm.
  pose proof (sorted_sorted lru_le lru_le_total lru_le_trans (items c)) as Hsorted.
  pose proof (sorted_length (lru_le (R := R)) (items c)) as Hslen.
  assert (Hev : _exact_cache (_evict_lru c)
            = del_all (map fst (firstn (Z.to_nat (Z.max 1 (Z.of_nat n / 10)))
                                  (sorted lru_le (items c))))
                (_exact_cache c)).
  { unfold _evict_lru.
    destruct (Z.leb_spec (max_size c) (Z.of_nat (length (_exact_cache c)))); [|lia].
    simpl. rewrite Hslen, Hlen. reflexivity. }
  set (srt := sorted lru_le (items c)) in *.
  set (m := Z.to_nat (Z.max 1 (Z.of_nat n / 10))) in *.
  assert (Hm : (m <= n)%nat).
  { subst m n. pose proof (Z.div_le_upper_bound (Z.of_nat (length (_exact_cache c))) 10
                             (Z.of_nat (length (_exact_cache c)))). lia. }
  assert (Hfirst : forall x, In x (firstn m srt) -> In x (items c)).
  { intros x Hx. apply (Permutation_in _ Hperm). rewrite <- (firstn_skipn m srt).
    apply in_or_app. now left. }
  assert (Hsplit : forall x y, In x (firstn m srt) -> In y (skipn m srt) -> lru_le x y = true).
  { apply (sorted_split lru_le). now rewrite firstn_skipn. }
  assert (Hkeys : forall k, In k (keys (_exact_cache (_evict_lru c)))
                    <-> In k (keys (_exact_cache c)) /\ ~ In k (map fst (firstn m srt))).
  { intros k. rewrite Hev. unfold keys. split.
    - intros Hk. apply in_map_iff in Hk as ([k' a] & <- & Hin).
      apply In_del_all in Hin as [Hin Hnot].
      split; [apply in_map_iff; now exists (k', a) | exact Hnot].
    - intros [Hk Hnot]. apply in_map_iff in Hk as ([k' a] & <- & Hin).
      apply in_map_iff. exists (k', a). split; [reflexivity|].
      apply In_del_all. now split. }
  split.
  - rewrite Hev. unfold n.
    rewrite <- (length_del_all_NoDup (map fst (firstn m srt)) (_exact_cache c) Hnd).
    + rewrite length_map, length_firstn. f_equal. subst srt n. rewrite Hslen, Hlen. lia.
    + apply (List.NoDup_map_inv fst) in Hndi as Hnditems.
      assert (Hnds : List.NoDup (map fst srt)).
      { apply (Permutation_NoDup (l := map fst (items c))); [|exact Hndi].
        apply Permutation_map. now symmetry. }
      rewrite <- (firstn_skipn m srt), map_app in Hnds.
      now apply NoDup_app_remove_r in Hnds.
    + intros k Hk. apply in_map_iff in Hk as (x & <- & Hx).
      apply items_keys_incl. unfold keys. apply in_map. now apply Hfirst.
  - intros x y Hx Hy. unfold evicted in Hx. unfold retained in Hy.
    apply filter_In in Hx as [Hx Hxk]. apply filter_In in Hy as [Hy Hyk].
    apply negb_true_iff in Hxk.
    assert (Hxgone : ~ In x.1 (keys (_exact_cache (_evict_lru c)))).
    { intros H. apply existsb_eqb_In in H. congruence. }
    apply existsb_eqb_In in Hyk.
    apply Hsplit.
    + assert (Hxin : In x.1 (map fst (firstn m srt))).
      { destruct (in_dec string_dec x.1 (map fst (firstn m srt))) as [H|H]; [exact H|].
        exfalso. apply Hxgone. apply Hkeys. split; [|exact H].
        apply items_keys_incl. unfold keys. now apply in_map. }
      apply in_map_iff in Hxin as (x' & Hk & Hx').
      replace x with x'; [exact Hx'|].
      apply (NoDup_keys_inj (items c)); auto.
    + assert (Hysrt : In y srt) by (apply (Permutation_in _ (Permutation_sym Hperm)); exact Hy).
      rewrite <- (firstn_skipn m srt) in Hysrt. apply in_app_or in Hysrt as [Hy1 | Hy2];
        [|exact Hy2].
      exfalso. apply Hkeys in Hyk as [_ Hnot]. apply Hnot. now apply in_map.
Qed.

End Eviction.

(** *** Cosine similarity *)

Lemma fold_plus_shift (l : list Q) (a : Q) :
  (fold_left Qplus l a == a + fold_left Qplus l 0)%Q.
Proof.
  revert a. induction l as [|x l IH]; intros a; simpl.
  - ring.
  - rewrite (IH (a + x)%Q), (IH (0 + x)%Q). ring.
Qed.

Lemma dot_product_comm (a : list Q) : forall b : list Q,
  (sum (map (fun xy : Q * Q => (xy.1 * xy.2)%Q) (combine a b))
   == sum (map (fun xy : Q * Q => (xy.1 * xy.2)%Q) (combine b a)))%Q.
Proof.
  unfold sum. induction a as [|x a IH]; intros [|y b]; simpl; try reflexivity.
  rewrite (fold_plus_shift _ (0 + x * y)%Q), (fold_plus_shift _ (0 + y * x)%Q), (IH b).
  ring.
Qed.

(** X8.  [_cosine_similarity] is symmetric in its two vectors (as numbers;
    vectors of different lengths included). *)
Theorem cosine_similarity_symmetric (sqrt : Q -> Q) (a b : list Q) :
  (_cosine_similarity sqrt a b == _cosine_similarity sqrt b a)%Q.
Proof.
  unfold _cosine_similarity. cbv zeta.
  rewrite (orb_comm (Qeq_bool (sqrt (sum (map (fun x : Q => (x * x)%Q) b))) 0)).
  destruct (Qeq_bool (sqrt (sum (map (fun x : Q => (x * x)%Q) a))) 0
            || Qeq_bool (sqrt (sum (map (fun x : Q => (x * x)%Q) b))) 0); [reflexivity|].
  rewrite (dot_product_comm a b).
  rewrite (Qmult_comm (sqrt (sum (map (fun x : Q => (x * x)%Q) a)))). reflexivity.
Qed.

(** *** The semantic branch picks the best match *)

Section BestMatch.
Context {R : Type}.
Variable sqrt : Q -> Q.
Variable get_embeddings : option embedder.




End BestMatch.

(** *** Instances *)

Import Examples ExamplesMore.
Local Open Scope string_scope.

(** X2 at a cache asked for semantic mode without an embedding model. *)
Lemma semantic_store_stays_empty_witness :
  let c := run strip lower toy_digest toy_sqrt None cache_semantic
             [CallSet "refund policy" "30 days" None 1%Q; CallGet "money back" 2%Q] in
  _semantic_cache c = [] /\ _embeddings c = None /\
  (true = false -> enable_semantic c = false).
Proof.
  apply (semantic_store_stays_empty (R := string) strip lower toy_digest toy_sqrt None
           1000 3600%Q (95 # 100)%Q true). now right.
Defined.

(** X3: an answer stored for 60 seconds at time 100 is gone at time 200. *)
Lemma expired_entry_is_miss_witness :
  (get strip lower toy_digest toy_sqrt None
     (set strip lower toy_digest None cache_default "  Refund Policy " "30 days" (Some 60%Q) 100%Q)
     "refund policy" 200%Q).2 = None.
Proof.
  apply expired_entry_is_miss.
  - apply well_formed_init.
  - reflexivity.
  - vm_compute. reflexivity.
  - vm_compute. reflexivity.
Defined.

(** X4: an answer stored and invalidated is not found. *)
Lemma invalidate_then_get_misses_witness :
  (get strip lower toy_digest toy_sqrt None
     (invalidate strip lower toy_digest
        (set strip lower toy_digest None cache_default "refund policy" "30 days" None 100%Q)
        " Refund Policy ")
     "refund policy" 200%Q).2 = None.
Proof.
  apply invalidate_then_get_misses.
  - reflexivity.
  - vm_compute. reflexivity.
Defined.

(** X6 at a full cache of capacity 2: one entry goes. *)
Lemma eviction_takes_least_used_witness :
  (length (_exact_cache (_evict_lru cache_full))
   + Z.to_nat (Z.max 1 (Z.of_nat (length (_exact_cache cache_full)) / 10)))%nat
  = length (_exact_cache cache_full) /\
  (forall x y, In x (evicted cache_full) -> In y (retained cache_full) ->
               lru_le x y = true).
Proof.
  apply eviction_takes_least_used.
  - apply well_formed_run, well_formed_init.
  - vm_compute. intros H; discriminate H.
  - vm_compute. lia.
Defined.


End CacheMoreFacts.

(** ** More properties of the circuit breaker *)

Module BreakerMoreFacts.
Import Breaker BreakerFacts BreakerMore.

Section Facts.
Context {W R E : Type}.
Variable clock : W -> Q.

Abbreviation breaker := (CircuitBreaker W R E).

Ltac break_breaker b :=
  destruct b as [thr rt hmc fb st [tc sc fc cf lft log] hoc]; destruct st.

Ltac crunch :=
  unfold counters_ok, same_config, state, _record_success, _record_failure,
    _transition_to, reset, with_state, with_stats, with_half_open_calls, log_change in *;
  cbn in *;
  repeat match goal with
         | H : _ /\ _ |- _ => destruct H
         | H : ?x = ?x -> _ |- _ => specialize (H eq_refl)
         | H : CLOSED = OPEN -> _ |- _ => clear H
         | H : CLOSED = HALF_OPEN -> _ |- _ => clear H
         | H : OPEN = CLOSED -> _ |- _ => clear H
         | H : OPEN = HALF_OPEN -> _ |- _ => clear H
         | H : HALF_OPEN = CLOSED -> _ |- _ => clear H
         | H : HALF_OPEN = OPEN -> _ |- _ => clear H
         end;
  repeat match goal with
         | |- context [Qle_bool ?a ?b] => destruct (Qle_bool a b); cbn in *
         | |- context [?a <=? ?b] => destruct (Z.leb_spec a b); cbn in *
         end;
  repeat split; intros; try discriminate; try lia.

Lemma state_keeps (b : breaker) now :
  1 <= half_open_max_calls b -> counters_ok b ->
  counters_ok (state b now).1 /\ same_config b (state b now).1.
Proof. intros Hh Hok. break_breaker b; crunch. Qed.

Lemma record_success_keeps (b : breaker) now :
  1 <= failure_threshold b -> counters_ok b ->
  counters_ok (_record_success b now) /\ same_config b (_record_success b now).
Proof. intros Ht Hok. break_breaker b; crunch. Qed.

Lemma record_failure_keeps (b : breaker) now :
  counters_ok b ->
  counters_ok (_record_failure b now) /\ same_config b (_record_failure b now).
Proof. intros Hok. break_breaker b; crunch. Qed.

Lemma reset_keeps (b : breaker) :
  1 <= failure_threshold b -> counters_ok (reset b) /\ same_config b (reset b).
Proof. intros Ht. break_breaker b; crunch. Qed.

Lemma guarded_call_cases (b : breaker) st func w :
  let b' := (guarded_call clock b st func w).1.1 in
  b' = b \/ (exists now, b' = _record_success b now) \/
  (exists now, b' = _record_failure b now).
Proof.
  unfold guarded_call. destruct (CircuitState_eqb st OPEN).
  - destruct (fallback b) as [fb|]; [destruct (fb w)|]; now left.
  - destruct (func w) as [w1 [r|e]]; simpl.
    + right; left. now eexists.
    + right; right. destruct (fallback _) as [fb|]; [destruct (fb w1)|]; now eexists.
Qed.

Lemma call_sync_cases (b : breaker) func w :
  let b1 := (state b (clock w)).1 in
  let b' := (call_sync clock b func w).1.1 in
  b' = b1 \/ (exists now, b' = _record_success b1 now) \/
  (exists now, b' = _record_failure b1 now).
Proof.
  unfold call_sync. cbv zeta.
  destruct (state b (clock w)) as [b1 st] eqn:Hs. simpl.
  apply guarded_call_cases.
Qed.

Lemma same_config_trans (b1 b2 b3 : breaker) :
  same_config b1 b2 -> same_config b2 b3 -> same_config b1 b3.
Proof. unfold same_config. intros (-> & -> & -> & ->) (-> & -> & -> & ->). auto. Qed.

Lemma call_sync_keeps (b : breaker) func w :
  1 <= failure_threshold b -> 1 <= half_open_max_calls b -> counters_ok b ->
  counters_ok (call_sync clock b func w).1.1 /\
  same_config b (call_sync clock b func w).1.1.
Proof.
  intros Ht Hh Hok.
  destruct (state_keeps b (clock w) Hh Hok) as [Hok1 Hc1].
  assert (Ht1 : 1 <= failure_threshold (state b (clock w)).1)
    by (destruct Hc1 as (-> & _); exact Ht).
  destruct (call_sync_cases b func w) as [-> | [[now ->] | [now ->]]].
  - now split.
  - destruct (record_success_keeps _ now Ht1 Hok1) as [H1 H2].
    split; [exact H1 | now apply (same_config_trans _ _ _ Hc1)].
  - destruct (record_failure_keeps _ now Hok1) as [H1 H2].
    split; [exact H1 | now apply (same_config_trans _ _ _ Hc1)].
Qed.

Lemma apply_event_keeps (b : breaker) (e : event W R E) :
  1 <= failure_threshold b -> 1 <= half_open_max_calls b -> counters_ok b ->
  counters_ok (apply_event clock b e) /\ same_config b (apply_event clock b e).
Proof.
  intros Ht Hh Hok. destruct e as [now | func w | func w |]; simpl.
  - now apply state_keeps.
  - now apply call_sync_keeps.
  - now apply call_sync_keeps.
  - now apply reset_keeps.
Qed.

(** X10.  The counters of a breaker with thresholds of at least 1 stay
    consistent under every history of state checks, protected calls and
    resets: [total_calls = success_count + failure_count],
    [0 <= consecutive_failures <= failure_count], a Closed breaker has fewer
    consecutive failures than [failure_threshold], a Half-Open one fewer
    trial successes than [half_open_max_calls]; and the configuration is
    never changed. *)
Theorem counters_stay_consistent (failure_threshold0 : Z) (recovery_timeout0 : Q)
    (half_open_max_calls0 : Z) (fallback0 : option (callable W R E))
    (es : list (event W R E)) :
  1 <= failure_threshold0 -> 1 <= half_open_max_calls0 ->
  let b0 := init failure_threshold0 recovery_timeout0 half_open_max_calls0 fallback0 in
  counters_ok (replay clock b0 es) /\ same_config b0 (replay clock b0 es).
Proof.
  intros Ht Hh b0.
  assert (Hinv : forall b : breaker,
            counters_ok b -> same_config b0 b ->
            counters_ok (replay clock b es) /\ same_config b0 (replay clock b es)).
  { unfold replay. induction es as [|e es' IH]; intros b Hok Hc; simpl; [now split|].
    assert (Ht' : 1 <= failure_threshold b) by (destruct Hc as (-> & _); exact Ht).
    assert (Hh' : 1 <= half_open_max_calls b) by (destruct Hc as (_ & -> & _); exact Hh).
    destruct (apply_event_keeps b e Ht' Hh' Hok) as [Hok' Hc'].
    apply IH; [exact Hok' | now apply (same_config_trans _ _ _ Hc)]. }
  apply Hinv.
  - subst b0. unfold counters_ok; simpl. repeat split; intros; try discriminate; lia.
  - unfold same_config; auto.
Qed.

(** *** The transition log *)

Lemma follow_log_snoc (log : list StateChange) (c : StateChange) : forall s,
  follow_log s (log ++ [c])
  = match follow_log s log with
    | Some s' =>
        if CircuitState_eqb (sc_from c) s' && legal_change c then Some (sc_to c) else None
    | None => None
    end.
Proof.
  induction log as [|c0 log IH]; intros s; simpl; [reflexivity|].
  destruct (CircuitState_eqb (sc_from c0) s && legal_change c0); [apply IH | reflexivity].
Qed.

Ltac crunch_log :=
  unfold log_ok, state, _record_success, _record_failure,
    _transition_to, reset, with_state, with_stats, with_half_open_calls, log_change in *;
  cbn in *;
  repeat match goal with
         | |- context [Qle_bool ?a ?b] => destruct (Qle_bool a b); cbn in *
         | |- context [?a <=? ?b] => destruct (Z.leb_spec a b); cbn in *
         end;
  try assumption; try reflexivity;
  try (rewrite follow_log_snoc;
       match goal with H : follow_log _ _ = _ |- _ => rewrite H end; reflexivity).

Lemma state_keeps_log (b : breaker) now : log_ok b -> log_ok (state b now).1.
Proof. intros Hok. break_breaker b; crunch_log. Qed.

Lemma record_success_keeps_log (b : breaker) now : log_ok b -> log_ok (_record_success b now).
Proof. intros Hok. break_breaker b; crunch_log. Qed.

Lemma record_failure_keeps_log (b : breaker) now : log_ok b -> log_ok (_record_failure b now).
Proof. intros Hok. break_breaker b; crunch_log. Qed.

Lemma apply_event_keeps_log (b : breaker) (e : event W R E) :
  log_ok b -> log_ok (apply_event clock b e).
Proof.
  intros Hok.
  assert (Hcall : forall func w, log_ok (call_sync clock b func w).1.1).
  { intros func w. pose proof (state_keeps_log b (clock w) Hok) as H1.
    destruct (call_sync_cases b func w) as [-> | [[now ->] | [now ->]]].
    - exact H1.
    - now apply record_success_keeps_log.
    - now apply record_failure_keeps_log. }
  destruct e as [now | func w | func w |]; simpl.
  - now apply state_keeps_log.
  - apply Hcall.
  - apply Hcall.
  - reflexivity.
Qed.

(** X11.  The transition log of a breaker is a path of the state machine:
    after every history of state checks, protected calls and resets, each
    logged transition is one of Closed to Open, Open to Half-Open, Half-Open
    to Open and Half-Open to Closed, each starts in the state the previous
    one ended in (the first in Closed), and the last ends in the current
    state. *)
Theorem transition_log_is_a_path (failure_threshold0 : Z) (recovery_timeout0 : Q)
    (half_open_max_calls0 : Z) (fallback0 : option (callable W R E))
    (es : list (event W R E)) :
  let b := replay clock
             (init failure_threshold0 recovery_timeout0 half_open_max_calls0 fallback0) es in
  follow_log CLOSED (state_changes (_stats b)) = Some (_state b).
Proof.
  cbv zeta.
  assert (Hinv : forall b : breaker, log_ok b -> log_ok (replay clock b es)).
  { unfold replay. induction es as [|e es' IH]; intros b Hok; simpl; [exact Hok|].
    apply IH. now apply apply_event_keeps_log. }
  apply Hinv. reflexivity.
Qed.

End Facts.

(** *** Instances *)

Import Examples.

(** X10 at a breaker that is opened by three failures, tried again after
    the timeout, and reset. *)
Lemma counters_stay_consistent_witness :
  let es := [CallSync tick_fail 1%Q; CallSync tick_fail 2%Q; CallSync tick_fail 3%Q;
             Check 40%Q; CallSync tick_ok 41%Q; Reset] in
  counters_ok (replay wall breaker3 es) /\ same_config breaker3 (replay wall breaker3 es).
Proof.
  apply (counters_stay_consistent wall 3 30%Q 2 None); lia.
Defined.

End BreakerMoreFacts.

(** ** Properties of the retry decorator *)

Module RetryFacts.
Import PyDict PyDictFacts Retry.

Section Facts.
Context {W R E : Type}.
Variable max_retries : Z.
Variable retry_delay : Q.
Variable exponential_backoff : bool.
Variable retryable : E -> bool.
Variable sleep : Q -> W -> W.
Variable func : W -> W * (E + R).

Abbreviation loop :=
  (retry_loop max_retries retry_delay exponential_backoff retryable sleep func).
Abbreviation wrapper :=
  (sync_wrapper max_retries retry_delay exponential_backoff retryable sleep func).
Abbreviation attempt_effects :=
  (fun i : nat => [Called; Slept (delay_of retry_delay exponential_backoff (Z.of_nat i))]).





Lemma loop_step (b : bool) (n : nat) (a : Z) (last : option E) (w : W) (tr : list effect) :
  loop b (S n) a last w tr
  = match func w with
    | (w1, inr r) => (w1, inr r, tr ++ [Called])
    | (w1, inl e) =>
        if retryable e then
          if a <? max_retries then
            if Qlt_bool (delay_of retry_delay exponential_backoff a) 0 then
              if b then (w1, inl ValueError, tr ++ [Called])
              else loop b n (a + 1) (Some e) w1
                     (tr ++ [Called; Slept (delay_of retry_delay exponential_backoff a)])
            else
              loop b n (a + 1) (Some e)
                (sleep (delay_of retry_delay exponential_backoff a) w1)
                (tr ++ [Called; Slept (delay_of retry_delay exponential_backoff a)])
          else loop b n (a + 1) (Some e) w1 (tr ++ [Called])
        else (w1, inl (Propagated e), tr ++ [Called])
    end.
Proof. cbn [retry_loop]. now destruct (func w) as [w1 [e|r]]. Qed.

(** A delay computed from a non-negative [retry_delay] is not negative. *)
Lemma delay_nonneg (a : Z) :
  (0 <= retry_delay)%Q -> Qlt_bool (delay_of retry_delay exponential_backoff a) 0 = false.
Proof.
  intros H. apply Qlt_bool_false_iff. unfold delay_of.
  apply Qmult_le_0_compat; [exact H|].
  change 0%Q with (inject_Z 0). rewrite <- Zle_Qle.
  destruct exponential_backoff; [apply Z.pow_nonneg|]; lia.
Qed.



(** X13.  With a negative [max_retries] the wrapper never calls the
    function: the loop is empty and [raise last_exception] raises
    [TypeError], since [last_exception] is still [None]. *)
Theorem negative_retries_never_call (w : W) :
  max_retries < 0 ->
  sync_wrapper max_retries retry_delay exponential_backoff retryable sleep func w
  = (w, inl TypeError, []).
Proof.
  intros Hneg. unfold sync_wrapper.
  replace (Z.to_nat (max_retries + 1)) with 0%nat by lia. reflexivity.
Qed.




(** With a non-negative [retry_delay] the two loops are the same. *)
Lemma loops_agree (n : nat) :
  (0 <= retry_delay)%Q ->
  forall (a : Z) (last : option E) (w : W) (tr : list effect),
  loop false n a last w tr = loop true n a last w tr.
Proof.
  intros Hdelay. induction n as [|n IH]; intros a last w tr; [reflexivity|].
  rewrite !loop_step. destruct (func w) as [w1 [e|r]]; [|reflexivity].
  destruct (retryable e); [|reflexivity].
  destruct (a <? max_retries); [|apply IH].
  rewrite delay_nonneg by exact Hdelay. apply IH.
Qed.

(** X22.  With a non-negative [retry_delay] the wrapper of a coroutine
    function behaves as that of a plain function: the same calls and sleeps,
    the same result. *)
Theorem async_wrapper_as_sync (w : W) :
  (0 <= retry_delay)%Q ->
  async_wrapper max_retries retry_delay exponential_backoff retryable sleep func w
  = sync_wrapper max_retries retry_delay exponential_backoff retryable sleep func w.
Proof. intros Hdelay. unfold async_wrapper, sync_wrapper. now apply loops_agree. Qed.

(** X23.  With a negative [retry_delay] the wrapper of a plain function does
    not retry: when the first call fails with a retryable exception and
    [max_retries >= 1], [time.sleep] is given a negative number and its
    [ValueError] is what the wrapper raises, after that one call. *)
Theorem negative_delay_stops_retrying (w w1 : W) (e : E) :
  1 <= max_retries -> (retry_delay < 0)%Q ->
  func w = (w1, inl e) -> retryable e = true ->
  sync_wrapper max_retries retry_delay exponential_backoff retryable sleep func w
  = (w1, inl ValueError, [Called]).
Proof.
  intros Hmax Hneg Hf Hre. unfold sync_wrapper.
  assert (Hn : Z.to_nat (max_retries + 1) = S (Z.to_nat max_retries)) by lia.
  rewrite Hn, loop_step, Hf, Hre.
  destruct (Z.ltb_spec 0 max_retries); [|lia].
  assert (Hlt : Qlt_bool (delay_of retry_delay exponential_backoff 0) 0 = true).
  { apply Qlt_bool_iff. unfold delay_of.
    assert (Hone : (inject_Z (if exponential_backoff then 2 ^ 0 else 1) == 1)%Q)
      by now destruct exponential_backoff.
    rewrite Hone, Qmult_1_r. exact Hneg. }
  rewrite Hlt. reflexivity.
Qed.

End Facts.

(** *** Instances *)

Import ExamplesMore.
Local Open Scope string_scope.


(** X13 at [max_retries = -1]. *)
Lemma negative_retries_never_call_witness :
  sync_wrapper (-1) 1%Q true any_exception no_sleep flaky 0%nat
  = (0%nat, inl TypeError, []).
Proof. apply negative_retries_never_call. lia. Defined.


(** X22 at the same function. *)
Lemma async_wrapper_as_sync_witness :
  async_wrapper 3 1%Q true any_exception no_sleep flaky 0%nat
  = sync_wrapper 3 1%Q true any_exception no_sleep flaky 0%nat.
Proof. apply async_wrapper_as_sync. vm_compute. intros H; discriminate H. Defined.

(** X23 at a delay of -1 second. *)
Lemma negative_delay_stops_retrying_witness :
  sync_wrapper 3 (-1)%Q true any_exception no_sleep flaky 0%nat
  = (1%nat, inl ValueError, [Called]).
Proof.
  apply (negative_delay_stops_retrying 3 (-1)%Q true any_exception no_sleep flaky
           0%nat 1%nat "timeout").
  - lia.
  - vm_compute. reflexivity.
  - reflexivity.
  - reflexivity.
Defined.

End RetryFacts.

(** ** More properties of the A/B test manager *)

Module ABMoreFacts.
Import PyDict PyDictFacts ABTest ABTestFacts ABMore.

Local Open Scope string_scope.

Lemma walk_In (bucket : PrimFloat.float) (vs : dict PrimFloat.float) :
  forall (acc : PrimFloat.float) (v : string),
  walk bucket acc vs = Some v -> In v (keys vs).
Proof.
  induction vs as [|[variant weight] vs IH]; intros acc v; cbn [walk]; [discriminate|].
  destruct (PrimFloat.ltb bucket _).
  - intros [= <-]. now left.
  - intros H. right. now apply (IH _ _ H).
Qed.

Lemma first_item_In (l : list string) :
  l <> [] -> exists v, first_item l = inr v /\ In v l.
Proof. destruct l as [|x l]; [congruence|]. intros _. exists x. simpl. auto. Qed.

Lemma last_item_In (l : list string) :
  l <> [] -> exists v, last_item l = inr v /\ In v l.
Proof.
  destruct l as [|x l] using rev_ind; [congruence|]. intros _.
  exists x. unfold last_item. rewrite rev_app_distr. simpl. split; [reflexivity|].
  apply in_or_app. right. now left.
Qed.

Section Facts.
Context {M : Type}.
Variable md5_int : string -> Z.
Variable float_sum : list PrimFloat.float -> PrimFloat.float.

Abbreviation manager := (ABTestManager M).
Abbreviation run' := (run (M := M) md5_int float_sum).
Abbreviation step' := (step (M := M) md5_int float_sum).
Abbreviation experiments_ok' := (experiments_ok (M := M) float_sum).

(** An experiment whose weights pass the test has a variant: the sum of no
    weights is 0. *)
Lemma weights_valid_nonempty (e : Experiment) :
  weights_valid float_sum e -> variants e <> [].
Proof.
  unfold weights_valid. intros Hv Hnil. rewrite Hnil in Hv. vm_compute in Hv.
  discriminate Hv.
Qed.

Lemma step_experiments_ok (m : manager) (op : call M) :
  experiments_ok' m -> experiments_ok' (step' m op).
Proof.
  unfold experiments_ok.
  intros Hok. destruct op as [nm vs d now | nm vs | nm flag | nm sid mt now]; simpl.
  - unfold create_experiment. destruct (weights_off _) eqn:Hoff; [exact Hok|].
    simpl. intros n e. destruct (decide (nm = n)) as [->|Hne].
    + rewrite lookup_insert_eq. intros [= <-]. split; [exact Hoff | reflexivity].
    + rewrite lookup_insert_ne by exact Hne. apply Hok.
  - unfold update_traffic. destruct (experiments m !! nm) as [e0|] eqn:Hl; [|exact Hok].
    destruct (weights_off _) eqn:Hoff; [exact Hok|].
    simpl. intros n e. destruct (decide (nm = n)) as [->|Hne].
    + rewrite lookup_insert_eq. intros [= <-]. split.
      * exact Hoff.
      * simpl. now apply (Hok n e0).
    + rewrite lookup_insert_ne by exact Hne. apply Hok.
  - unfold enable_experiment. destruct (experiments m !! nm) as [e0|] eqn:Hl; [|exact Hok].
    simpl. intros n e. destruct (decide (nm = n)) as [->|Hne].
    + rewrite lookup_insert_eq. intros [= <-]. split.
      * now apply (Hok n e0).
      * simpl. now apply (Hok n e0).
    + rewrite lookup_insert_ne by exact Hne. apply Hok.
  - unfold record_result. destruct (get_variant _ _ _ _); exact Hok.
Qed.

Lemma run_experiments_ok (ops : list (call M)) : forall m : manager,
  experiments_ok' m -> experiments_ok' (run' m ops).
Proof.
  unfold run. induction ops as [|op ops IH]; intros m Hok; simpl; [exact Hok|].
  apply IH. now apply step_experiments_ok.
Qed.

(** The constructor makes its experiments by [create_experiment]. *)
Lemma init_experiments_ok (now : Q) : experiments_ok' (init (M := M) float_sum now).
Proof.
  change (init float_sum now)
    with (run' (mkManager ∅ [])
            [CallCreate "llm_provider"
               [("dashscope", PrimFloat.one); ("openai", PrimFloat.zero)]
               "主备模型对比" now;
             CallCreate "prompt_version" [("v1", PrimFloat.one); ("v2", PrimFloat.zero)]
               "Prompt 版本对比" now;
             CallCreate "cache_enabled"
               [("enabled", PrimFloat.one); ("disabled", PrimFloat.zero)]
               "响应缓存开关" now]).
  apply run_experiments_ok. intros n e Hl. cbn [experiments] in Hl.
  rewrite lookup_empty in Hl. discriminate Hl.
Qed.

(** X15.  Whatever sequence of create, update, enable and record calls is
    made on a new manager, every stored experiment has weights that passed
    the test of the code ([abs(sum(weights) - 1.0) > 0.01] is false in
    binary64 arithmetic), has at least one variant, and carries the name it
    is stored under. *)
Theorem stored_weights_always_valid (now : Q) (ops : list (call M))
    (n : string) (e : Experiment) :
  experiments (run' (init float_sum now) ops) !! n = Some e ->
  weights_off (sum float_sum (values (variants e))) = false /\
  variants e <> [] /\ name e = n.
Proof.
  intros Hl.
  destruct (run_experiments_ok ops (init float_sum now) (init_experiments_ok now) n e Hl)
    as [Hv Hn].
  split; [exact Hv|]. split; [now apply weights_valid_nonempty | exact Hn].
Qed.

(** X16.  On such a manager [get_variant] never raises: it returns
    ["default"] for an unknown experiment and one of the declared variants
    of a known one. *)
Theorem get_variant_returns_declared (now : Q) (ops : list (call M))
    (experiment_name session_id : string) :
  let m := run' (init float_sum now) ops in
  exists v, get_variant md5_int m experiment_name session_id = inr v /\
    match experiments m !! experiment_name with
    | None => v = "default"
    | Some e => In v (keys (variants e))
    end.
Proof.
  cbv zeta. set (m := run' (init float_sum now) ops).
  pose proof (run_experiments_ok ops (init float_sum now) (init_experiments_ok now)) as Hok.
  fold m in Hok. unfold get_variant.
  destruct (experiments m !! experiment_name) as [e|] eqn:Hl; [|now exists "default"].
  destruct (Hok _ _ Hl) as [Hv _]. apply weights_valid_nonempty in Hv.
  assert (Hkeys : keys (variants e) <> []).
  { unfold keys. destruct (variants e); [congruence | discriminate]. }
  destruct (enabled e); simpl.
  - destruct (walk _ _ (variants e)) as [v|] eqn:Hw.
    + exists v. split; [reflexivity|]. now apply walk_In in Hw.
    + now apply last_item_In.
  - now apply first_item_In.
Qed.

(** *** Enabling and disabling *)

(** X18.  Disabling an enabled experiment and enabling it again gives
    back the manager as it was; while it is disabled every session gets its
    first declared variant; and [enable_experiment] on an unknown name does
    nothing. *)
Theorem disable_enable_round_trip (m : manager) (experiment_name : string) :
  (forall e, experiments m !! experiment_name = Some e -> enabled e = true ->
     enable_experiment (enable_experiment m experiment_name false) experiment_name true = m /\
     forall session_id,
       get_variant md5_int (enable_experiment m experiment_name false)
         experiment_name session_id
       = first_item (keys (variants e))) /\
  (experiments m !! experiment_name = None ->
   forall flag, enable_experiment m experiment_name flag = m).
Proof.
  split.
  - intros e Hl Hen. split.
    + unfold enable_experiment. rewrite Hl. simpl. rewrite lookup_insert_eq. simpl.
      rewrite insert_insert_eq. destruct m as [exps res]. simpl in *. f_equal.
      apply insert_id. rewrite Hl. f_equal. destruct e; simpl in *. now subst.
    + intros session_id. unfold get_variant, enable_experiment. rewrite Hl. simpl.
      rewrite lookup_insert_eq. reflexivity.
  - intros Hl flag. unfold enable_experiment. now rewrite Hl.
Qed.

(** *** The results log and the other experiments *)

Lemma step_results (m : manager) (op : call M) :
  exists suffix, results (step' m op) = (results m ++ suffix)%list /\
    (length suffix <= 1)%nat /\
    (forall r, In r suffix ->
       exists nm sid mt now,
         op = CallRecord nm sid mt now /\
         experiment_name r = nm /\ session_id r = sid /\ metrics r = mt /\
         timestamp r = now /\ get_variant md5_int m nm sid = inr (variant r)).
Proof.
  assert (Hnone : results (step' m op) = results m ->
            exists suffix, results (step' m op) = (results m ++ suffix)%list /\
              (length suffix <= 1)%nat /\
              (forall r, In r suffix ->
                 exists nm sid mt now,
                   op = CallRecord nm sid mt now /\
                   experiment_name r = nm /\ session_id r = sid /\ metrics r = mt /\
                   timestamp r = now /\ get_variant md5_int m nm sid = inr (variant r))).
  { intros Heq. exists []. rewrite app_nil_r. split; [exact Heq|]. split; [simpl; lia|].
    intros r []. }
  destruct op as [nm vs d now | nm vs | nm flag | nm sid mt now].
  - apply Hnone. simpl. unfold create_experiment. now destruct (weights_off _).
  - apply Hnone. simpl. unfold update_traffic.
    destruct (experiments m !! nm); [destruct (weights_off _)|]; reflexivity.
  - apply Hnone. simpl. unfold enable_experiment. now destruct (experiments m !! nm).
  - destruct (get_variant md5_int m nm sid) as [err|v] eqn:Hg.
    + apply Hnone. simpl. unfold record_result. now rewrite Hg.
    + exists [mkResult nm v sid mt now]. simpl. unfold record_result. rewrite Hg. simpl.
      split; [reflexivity|]. split; [lia|].
      intros r [<- | []]. exists nm, sid, mt, now. simpl. auto 10.
Qed.

(** X19.  The results log is append-only: no call removes or changes a
    recorded result, only [record_result] adds one, and the variant it
    records is the one [get_variant] gives at the moment of the call. *)
Theorem results_append_only (m : manager) (ops : list (call M)) :
  exists suffix, results (run' m ops) = (results m ++ suffix)%list /\
    (length suffix <= length ops)%nat /\
    (forall r, In r suffix ->
       exists before after,
         ops = (before
                ++ CallRecord (experiment_name r) (session_id r) (metrics r) (timestamp r)
                   :: after)%list /\
         get_variant md5_int (run' m before) (experiment_name r) (session_id r)
         = inr (variant r)).
Proof.
  unfold run. revert m. induction ops as [|op ops IH]; intros m; simpl.
  - exists []. rewrite app_nil_r. repeat split; auto. intros r [].
  - destruct (step_results m op) as (s1 & H1 & L1 & R1).
    destruct (IH (step' m op)) as (s2 & H2 & L2 & R2).
    exists (s1 ++ s2)%list. rewrite H2, H1, <- app_assoc. split; [reflexivity|]. split.
    + rewrite length_app. lia.
    + intros r Hin. apply in_app_or in Hin as [Hin | Hin].
      * destruct (R1 r Hin) as (nm & sid & mt & now & -> & <- & <- & <- & <- & Hg).
        exists [], ops. split; [reflexivity | exact Hg].
      * destruct (R2 r Hin) as (before & after & -> & Hg).
        exists (op :: before), after. split; [reflexivity | exact Hg].
Qed.

(** X20.  A call leaves the allocation of every experiment but its own
    alone: [get_variant] for a name other than the one created, updated or
    switched is the same before and after, and [record_result] changes no
    allocation at all. *)
Theorem other_experiments_untouched (m : manager) (op : call M)
    (experiment_name session_id : string) :
  target op <> Some experiment_name ->
  get_variant md5_int (step' m op) experiment_name session_id
  = get_variant md5_int m experiment_name session_id.
Proof.
  intros Hother.
  assert (Hexp : experiments (step' m op) !! experiment_name
                 = experiments m !! experiment_name).
  { destruct op as [nm vs d now | nm vs | nm flag | nm sid mt now]; simpl in *.
    - unfold create_experiment. destruct (weights_off _); simpl; [reflexivity|].
      apply lookup_insert_ne. congruence.
    - unfold update_traffic.
      destruct (experiments m !! nm); [destruct (weights_off _)|]; simpl; try reflexivity.
      apply lookup_insert_ne. congruence.
    - unfold enable_experiment. destruct (experiments m !! nm); simpl; [|reflexivity].
      apply lookup_insert_ne. congruence.
    - unfold record_result. now destruct (get_variant _ _ _ _). }
  unfold get_variant. now rewrite Hexp.
Qed.

End Facts.

(** *** [get_experiment_stats] *)

Section StatsFacts.
Variable round3 : Q -> Q.

Abbreviation group_total :=
  (fun groups : dict (list (dict value)) =>
     fold_right Nat.add 0%nat (map (fun g : string * list (dict value) => length g.2) groups)).

Lemma group_add (k : string) (x : dict value) (groups : dict (list (dict value))) :
  let sofar := match dict_get k groups with Some l => l | None => [] end in
  let groups' := dict_set k (sofar ++ [x])%list groups in
  group_total groups' = S (group_total groups) /\
  (Forall (fun g : string * list (dict value) => g.2 <> []) groups ->
   Forall (fun g : string * list (dict value) => g.2 <> []) groups').
Proof.
  unfold dict_get. induction groups as [|[k' l] groups IH]; cbv zeta.
  - simpl. split; [reflexivity|]. intros _. repeat constructor. discriminate.
  - cbn [List.find dict_set fst snd].
    destruct (String.eqb_spec k' k) as [->|Hne].
    + cbn [map fold_right snd]. rewrite length_app. simpl. split; [lia|].
      intros H. apply Forall_cons in H as [_ H]. constructor; [|exact H].
      simpl. destruct l; discriminate.
    + cbv zeta in IH. destruct IH as [IH1 IH2]. cbn [map fold_right snd].
      rewrite IH1. split; [lia|].
      intros H. apply Forall_cons in H as [H0 H]. constructor; [exact H0 | now apply IH2].
Qed.

Lemma group_results_total (experiment_name : string)
    (results : list (ExperimentResult (dict value))) :
  let groups := group_results experiment_name results in
  group_total groups
  = length (List.filter (fun r => String.eqb (ABTest.experiment_name r) experiment_name)
              results) /\
  Forall (fun g : string * list (dict value) => g.2 <> []) groups.
Proof.
  unfold group_results.
  assert (Hgen : forall (groups0 : dict (list (dict value))),
            Forall (fun g : string * list (dict value) => g.2 <> []) groups0 ->
            let groups := fold_left
              (fun groups result =>
                 if String.eqb (ABTest.experiment_name result) experiment_name then
                   dict_set (variant result)
                     (match dict_get (variant result) groups with
                      | Some l => l | None => [] end ++ [metrics result])%list groups
                 else groups) results groups0 in
            group_total groups
            = (group_total groups0
               + length (List.filter
                           (fun r => String.eqb (ABTest.experiment_name r) experiment_name)
                           results))%nat /\
            Forall (fun g : string * list (dict value) => g.2 <> []) groups).
  { induction results as [|r results IH]; intros groups0 H0; cbv zeta.
    - simpl. split; [lia | exact H0].
    - cbn [fold_left List.filter].
      destruct (String.eqb (ABTest.experiment_name r) experiment_name).
      + destruct (group_add (variant r) (metrics r) groups0) as [Ht Hf].
        cbv zeta in Ht, Hf.
        destruct (IH _ (Hf H0)) as [IH1 IH2]. cbv zeta in IH1.
        split; [|exact IH2]. rewrite IH1, Ht. simpl. lia.
      + now apply IH. }
  destruct (Hgen [] (List.Forall_nil _)) as [H1 H2]. cbv zeta in H1. split; [|exact H2].
  rewrite H1. reflexivity.
Qed.

(** X21.  [get_experiment_stats] reports an error for an unknown
    experiment and a report for a known one; in the report every variant
    listed has a count of at least 1, and the counts add up to the number of
    results recorded for that experiment. *)
Theorem stats_counts_add_up (m : ABTestManager (dict value)) (experiment_name : string) :
  match get_experiment_stats round3 m experiment_name with
  | None => experiments m !! experiment_name = None
  | Some report =>
      is_Some (experiments m !! experiment_name) /\
      Forall (fun vs : string * VariantStats => 1 <= count vs.2) (report_variants report) /\
      fold_right Z.add 0 (map (fun vs : string * VariantStats => count vs.2)
                            (report_variants report))
      = Z.of_nat (length (List.filter
                            (fun r => String.eqb (ABTest.experiment_name r) experiment_name)
                            (results m)))
  end.
Proof.
  unfold get_experiment_stats.
  destruct (experiments m !! experiment_name) as [e|]; [|reflexivity].
  split; [now eexists|]. cbn [report_variants].
  destruct (group_results_total experiment_name (results m)) as [Htot Hne].
  cbv zeta in Htot, Hne. rewrite <- Htot. clear Htot.
  induction (group_results experiment_name (results m)) as [|[v l] groups IH].
  - split; [constructor | reflexivity].
  - apply Forall_cons in Hne as [Hl Hne]. simpl in Hl.
    destruct l as [|x l]; [congruence|].
    destruct (IH Hne) as [IH1 IH2].
    cbn [omap list_omap]. cbn [snd fst map fold_right]. split.
    + constructor; [|exact IH1]. unfold variant_stats. simpl. lia.
    + unfold variant_stats at 1. cbn [count]. rewrite IH2. simpl length. lia.
Qed.

End StatsFacts.

(** *** Instances *)

Import Examples ExamplesMore PrimFloat.

(** X15 at a manager with one experiment added. *)
Lemma stored_weights_always_valid_witness :
  let e := mkExperiment "rollout" [("A", 0.5%float); ("B", 0.5%float)] true 5%Q "" in
  weights_off (sum plain_sum (values (variants e))) = false /\
  variants e <> [] /\ name e = "rollout".
Proof.
  apply (stored_weights_always_valid (M := unit) toy_md5 plain_sum 0%Q
           [CallCreate "rollout" [("A", 0.5%float); ("B", 0.5%float)] "" 5%Q] "rollout").
  vm_compute. reflexivity.
Defined.

(** X18 at the added experiment. *)
Lemma disable_enable_round_trip_witness :
  enable_experiment (enable_experiment manager_rollout "rollout" false) "rollout" true
  = manager_rollout /\
  get_variant toy_md5 (enable_experiment manager_rollout "rollout" false)
    "rollout" "session-1" = inr "A".
Proof.
  destruct (proj1 (disable_enable_round_trip toy_md5 manager_rollout "rollout")
              (mkExperiment "rollout" [("A", 0%float); ("B", 1%float)] true 5%Q ""))
    as [Hback Hfirst].
  - vm_compute. reflexivity.
  - reflexivity.
  - split; [exact Hback | apply Hfirst].
Defined.

(** X20: new weights for one experiment leave another alone. *)
Lemma other_experiments_untouched_witness :
  get_variant toy_md5
    (step toy_md5 plain_sum manager_rollout
       (CallUpdate "prompt_version" [("v1", 0.5%float); ("v2", 0.5%float)]))
    "rollout" "session-1"
  = get_variant toy_md5 manager_rollout "rollout" "session-1".
Proof.
  apply other_experiments_untouched. simpl. intros H; discriminate H.
Defined.

End ABMoreFacts.

(** ** Properties of the model router *)

Module RouterFacts.
Import PyDict PyDictFacts Router.

Local Open Scope string_scope.

Ltac split_eqb :=
  repeat match goal with
         | |- context [String.eqb ?a ?b] =>
             destruct (String.eqb_spec a b); subst; cbn -[String.eqb] in *; try discriminate;
             try congruence
         | H : context [String.eqb ?a ?b] |- _ =>
             destruct (String.eqb_spec a b); subst; cbn -[String.eqb] in *; try discriminate;
             try congruence
         end.

Section Facts.
Variable settings : Settings.

(** X28.  On a router that has not been created yet,
    [get_llm_with_fallback] raises only when no provider has an API key, and
    then leaves the new router as it was made.  When it returns a chat
    model, the provider of that model has a key, and the model is the one
    the router gives from then on. *)
Theorem llm_with_fallback_iff_available :
  let res := get_llm_with_fallback settings None in
  match res.2 with
  | inr l =>
      In (provider_of l) (available_providers (init settings)) /\
      exists r, res.1 = Some r /\ models r = models (init settings) /\
                get_llm r None = inr l
  | inl _ => available_providers (init settings) = [] /\ res.1 = Some (init settings)
  end.
Proof.
  destruct settings as [lp okey omodel ourl dkey dmodel].
  unfold get_llm_with_fallback, get_llm_router, switch_to_fallback, get_fallback,
    first_other, get_primary, get_llm, _create_llm, available_providers, init,
    dict_get, is_available.
  cbn -[String.eqb]. split_eqb; cbn -[String.eqb]; split_eqb; try tauto;
    repeat split; auto;
    try (eexists; split; [reflexivity|]; split; [reflexivity|];
         cbn -[String.eqb]; split_eqb; reflexivity).
Qed.

(** X29.  [switch_to_fallback] on a new router never raises.  When it
    returns a chat model, the router's active provider is the provider of
    that model, is not the primary and has an API key, the fallback flag is
    set, and [get_llm()] gives that model from then on.  When it returns
    [None], the router is unchanged and no provider but the primary has a
    key. *)
Theorem switch_to_fallback_picks_other :
  let res := switch_to_fallback settings (init settings) in
  match res.2 with
  | inl _ => False
  | inr (Some l) =>
      _active_provider res.1 = provider_of l /\
      _active_provider res.1 <> llm_provider settings /\
      In (_active_provider res.1) (available_providers (init settings)) /\
      _fallback_used res.1 = true /\
      models res.1 = models (init settings) /\
      get_llm res.1 None = inr l
  | inr None =>
      res.1 = init settings /\
      forall p, In p (available_providers (init settings)) -> p = llm_provider settings
  end.
Proof.
  destruct settings as [lp okey omodel ourl dkey dmodel].
  unfold switch_to_fallback, get_fallback, first_other, get_llm, _create_llm,
    available_providers, init, dict_get, is_available.
  cbn -[String.eqb]. split_eqb; cbn -[String.eqb]; split_eqb;
    repeat split; auto; try congruence;
    try (cbn -[String.eqb]; split_eqb; reflexivity);
    try (intros p Hp; cbn in Hp; intuition congruence).
Qed.

(** X30.  [switch_to_primary] makes the primary the active provider before
    it tries to create its model: when it raises, also on a router that was
    giving a working fallback, the router is left on the primary with the
    fallback flag cleared, and [get_llm()] raises the same error from then
    on. *)
Theorem failed_switch_back_stops_router (r : LLMRouter) (e : exn) :
  (switch_to_primary settings r).2 = inl e ->
  let r' := (switch_to_primary settings r).1 in
  get_llm r' None = inl e /\
  _active_provider r' = llm_provider settings /\ _fallback_used r' = false /\
  models r' = models r.
Proof.
  unfold switch_to_primary, get_primary, get_llm. cbn [fst snd _active_provider].
  intros H. split; [|now repeat split].
  destruct (String.eqb (llm_provider settings) ""); exact H.
Qed.

End Facts.

(** *** Instances *)

Import ExamplesMore.

(** X30: a router on its fallback, switched back to a primary without a
    key. *)
Lemma failed_switch_back_stops_router_witness :
  let r := (switch_to_fallback openai_only (init openai_only)).1 in
  let r' := (switch_to_primary openai_only r).1 in
  get_llm r None = inr (ChatOpenAI "gpt-4o-mini" "sk-test" None (7 # 10)%Q) /\
  (get_llm r' None = inl (NotAvailable "dashscope") /\
   _active_provider r' = "dashscope" /\ _fallback_used r' = false /\
   models r' = models r).
Proof.
  split; [reflexivity|].
  apply (failed_switch_back_stops_router openai_only
           (switch_to_fallback openai_only (init openai_only)).1 (NotAvailable "dashscope")).
  reflexivity.
Defined.

End RouterFacts.

(** ** Properties of the in-memory session store *)

Module SessionFacts.
Import PyDict PyDictFacts Session.

Section Facts.
Variable clock : nat -> Q.

Abbreviation manager := InMemorySessionManager.
Abbreviation clean := (_clean_expired_sessions clock).

(** *** Slices *)

Lemma slice_from_zero {A} (l : list A) : slice_from 0 l = l.
Proof.
  unfold slice_from. cbv zeta. change (0 <? 0) with false. cbv iota.
  replace (Z.to_nat (Z.min 0 (Z.of_nat (length l)))) with 0%nat by lia. reflexivity.
Qed.

Lemma kept_bound (mh : Z) (h : list Message) :
  1 <= mh -> Z.of_nat (length (kept mh h)) <= mh.
Proof.
  intros Hmh. unfold kept. destruct (Z.ltb_spec mh (Z.of_nat (length h))); [|lia].
  unfold slice_from. cbv zeta. destruct (Z.ltb_spec (- mh) 0); [|lia].
  rewrite length_skipn. lia.
Qed.

Lemma kept_last (mh : Z) (h : list Message) (x : Message) :
  1 <= mh -> exists older, kept mh (h ++ [x]) = (older ++ [x])%list.
Proof.
  intros Hmh. unfold kept. destruct (Z.ltb_spec mh (Z.of_nat (length (h ++ [x])))).
  - unfold slice_from. cbv zeta. destruct (Z.ltb_spec (- mh) 0); [|lia].
    rewrite length_app in *. simpl length in *.
    set (k := Z.to_nat (Z.max 0 (Z.of_nat (length h + 1) + - mh))).
    assert (Hk : (k <= length h)%nat) by lia.
    exists (List.skipn k h). rewrite List.skipn_app.
    replace (k - length h)%nat with 0%nat by lia. reflexivity.
  - now exists h.
Qed.

Lemma kept_zero (h : list Message) : kept 0 h = h.
Proof.
  unfold kept. destruct (0 <? Z.of_nat (length h)); [|reflexivity].
  apply slice_from_zero.
Qed.

Lemma kept_short (mh : Z) (h : list Message) :
  Z.of_nat (length h) <= mh -> kept mh h = h.
Proof. intros H. unfold kept. destruct (Z.ltb_spec mh (Z.of_nat (length h))); [lia|reflexivity]. Qed.

(** *** Expiry *)

Lemma is_expired_t (m : manager) s t : (t <= (_is_expired clock m s t).2)%nat.
Proof. unfold _is_expired. destruct (last_activity s); simpl; lia. Qed.

Lemma is_expired_live (m : manager) s t la :
  last_activity s = Some la -> (clock t - la <= ttl m)%Q ->
  _is_expired clock m s t = (false, S t).
Proof.
  intros Hla H. unfold _is_expired. rewrite Hla. f_equal. now apply Qlt_bool_false_iff.
Qed.

Lemma is_expired_dead (m : manager) s t la :
  last_activity s = Some la -> (ttl m < clock t - la)%Q ->
  _is_expired clock m s t = (true, S t).
Proof.
  intros Hla H. unfold _is_expired. rewrite Hla. f_equal. now apply Qlt_bool_iff.
Qed.

Lemma expired_ids_t (m : manager) items :
  forall t, (t <= (expired_ids clock m items t).2)%nat.
Proof.
  induction items as [|[sid s] items IH]; intros t; cbn [expired_ids]; [simpl; lia|].
  pose proof (is_expired_t m s t) as Ht.
  destruct (_is_expired clock m s t) as [b t1]. simpl in Ht.
  specialize (IH t1). destruct (expired_ids clock m items t1) as [ids t2].
  simpl in *. lia.
Qed.

Lemma expired_ids_In (m : manager) items sid : forall t,
  In sid (expired_ids clock m items t).1 ->
  exists s j, In (sid, s) items /\ (t <= j)%nat /\ (_is_expired clock m s j).1 = true.
Proof.
  induction items as [|[k s] items IH]; intros t; cbn [expired_ids]; [simpl; tauto|].
  pose proof (is_expired_t m s t) as Ht.
  destruct (_is_expired clock m s t) as [b t1] eqn:He. simpl in Ht.
  specialize (IH t1). destruct (expired_ids clock m items t1) as [ids t2].
  cbn [fst] in *. intros Hin.
  assert (Hrest : In sid ids ->
            exists s0 j, In (sid, s0) ((k, s) :: items) /\ (t <= j)%nat /\
                         (_is_expired clock m s0 j).1 = true).
  { intros H. destruct (IH H) as (s' & j & H1 & H2 & H3).
    exists s', j. split; [now right|]. split; [lia | assumption]. }
  destruct b; [|now apply Hrest].
  destruct Hin as [->|Hin]; [|now apply Hrest].
  exists s, t. split; [now left|]. split; [lia|]. now rewrite He.
Qed.

Lemma expired_ids_dead (m : manager) items sid s : forall t,
  dict_get sid items = Some s ->
  (forall j, (t <= j)%nat -> (_is_expired clock m s j).1 = true) ->
  In sid (expired_ids clock m items t).1.
Proof.
  unfold dict_get.
  induction items as [|[k s0] items IH]; intros t; cbn [List.find expired_ids fst];
    [discriminate|].
  pose proof (is_expired_t m s0 t) as Ht.
  destruct (String.eqb_spec k sid) as [->|Hne]; cbn [snd].
  - intros [= ->] Hdead. specialize (Hdead t (le_n t)).
    destruct (_is_expired clock m s t) as [b t1]. cbn [fst] in Hdead. subst b.
    destruct (expired_ids clock m items t1) as [ids t2]. now left.
  - intros Hget Hdead.
    destruct (_is_expired clock m s0 t) as [b t1]. cbn [snd] in Ht.
    specialize (IH t1 Hget). destruct (expired_ids clock m items t1) as [ids t2].
    cbn [fst] in *.
    assert (Hin : In sid ids) by (apply IH; intros j Hj; apply Hdead; lia).
    destruct b; [now right | assumption].
Qed.

Lemma dict_get_del_all_gone {V} k ks : forall d : dict V,
  In k ks -> dict_get k (del_all ks d) = None.
Proof.
  intros d Hin. apply dict_get_None. unfold keys. rewrite in_map_iff.
  intros ([k' v] & Hk & Hp). simpl in Hk. subst k'.
  apply In_del_all in Hp as [_ Hp]. now apply Hp.
Qed.

(** *** Cleaning *)

Lemma clean_config (m : manager) t :
  max_history (clean m t).1 = max_history m /\ ttl (clean m t).1 = ttl m.
Proof.
  unfold _clean_expired_sessions. destruct (expired_ids clock m (_sessions m) t). now split.
Qed.

Lemma clean_t (m : manager) t : (t <= (clean m t).2)%nat.
Proof.
  unfold _clean_expired_sessions. pose proof (expired_ids_t m (_sessions m) t) as H.
  destruct (expired_ids clock m (_sessions m) t). exact H.
Qed.

Lemma clean_In (m : manager) t p :
  In p (_sessions (clean m t).1) -> In p (_sessions m).
Proof.
  unfold _clean_expired_sessions. destruct (expired_ids clock m (_sessions m) t).
  cbn [fst _sessions set_sessions]. intros H. now apply In_del_all in H as [H _].
Qed.

Lemma clean_NoDup (m : manager) t :
  List.NoDup (keys (_sessions m)) -> List.NoDup (keys (_sessions (clean m t).1)).
Proof.
  unfold _clean_expired_sessions. destruct (expired_ids clock m (_sessions m) t).
  cbn [fst _sessions set_sessions]. apply NoDup_del_all.
Qed.

Lemma clean_absent (m : manager) t sid :
  dict_get sid (_sessions m) = None -> dict_get sid (_sessions (clean m t).1) = None.
Proof.
  rewrite !dict_get_None. intros Hno Hin. apply Hno.
  unfold keys in *. apply in_map_iff in Hin as (p & Hp & Hin).
  apply in_map_iff. exists p. split; [assumption|]. now apply clean_In in Hin.
Qed.

Lemma clean_keeps (m : manager) t sid s la :
  List.NoDup (keys (_sessions m)) ->
  dict_get sid (_sessions m) = Some s -> last_activity s = Some la ->
  (forall j, (t <= j)%nat -> (clock j - la <= ttl m)%Q) ->
  dict_get sid (_sessions (clean m t).1) = Some s.
Proof.
  intros Hnd Hget Hla Hlive. unfold _clean_expired_sessions.
  pose proof (expired_ids_In m (_sessions m) sid t) as Hin.
  destruct (expired_ids clock m (_sessions m) t) as [expired t1].
  cbn [fst _sessions set_sessions] in *.
  rewrite dict_get_del_all; [assumption|].
  intros Hex. destruct (Hin Hex) as (s' & j & Hs' & Hj & Hdead).
  apply (dict_get_NoDup _ _ _ Hnd) in Hs'. rewrite Hget in Hs'. injection Hs' as <-.
  rewrite (is_expired_live m s j la Hla (Hlive j Hj)) in Hdead. discriminate.
Qed.

Lemma clean_drops (m : manager) t sid s :
  dict_get sid (_sessions m) = Some s ->
  (forall j, (t <= j)%nat -> (_is_expired clock m s j).1 = true) ->
  dict_get sid (_sessions (clean m t).1) = None.
Proof.
  intros Hget Hdead. unfold _clean_expired_sessions.
  pose proof (expired_ids_dead m (_sessions m) sid s t Hget Hdead) as Hin.
  destruct (expired_ids clock m (_sessions m) t) as [expired t1].
  cbn [fst _sessions set_sessions] in *. now apply dict_get_del_all_gone.
Qed.

(** *** [get_session] *)

Lemma get_session_spec (m : manager) sid t :
  let res := get_session clock m sid t in
  res.1.1 = (clean m t).1 /\ ((clean m t).2 <= res.2)%nat /\
  (forall s, res.1.2 = Some s -> dict_get sid (_sessions res.1.1) = Some s).
Proof.
  cbv zeta. unfold get_session. destruct (clean m t) as [m1 t1]. cbn [fst snd].
  destruct (dict_get sid (_sessions m1)) as [s|] eqn:Hget.
  - destruct (nonempty s).
    + pose proof (is_expired_t m1 s t1) as Ht.
      destruct (_is_expired clock m1 s t1) as [b t2]. cbn [fst snd] in *.
      split; [reflexivity|]. split; [exact Ht|].
      intros s0. destruct b; [discriminate|]. now intros [= <-].
    + cbn [fst snd]. split; [reflexivity|]. split; [lia | discriminate].
  - cbn [fst snd]. split; [reflexivity|]. split; [lia | discriminate].
Qed.

Lemma get_session_t (m : manager) sid t : (t <= (get_session clock m sid t).2)%nat.
Proof.
  pose proof (get_session_spec m sid t) as (_ & H & _). pose proof (clean_t m t). lia.
Qed.

Lemma get_session_live (m : manager) sid t s la :
  List.NoDup (keys (_sessions m)) ->
  dict_get sid (_sessions m) = Some s -> last_activity s = Some la ->
  (forall j, (t <= j)%nat -> (clock j - la <= ttl m)%Q) ->
  (get_session clock m sid t).1 = ((clean m t).1, Some s).
Proof.
  intros Hnd Hget Hla Hlive. unfold get_session.
  pose proof (clean_keeps m t sid s la Hnd Hget Hla Hlive) as Hkeep.
  pose proof (clean_t m t) as Ht. pose proof (clean_config m t) as [_ Httl].
  destruct (clean m t) as [m1 t1]. cbn [fst snd] in *. rewrite Hkeep.
  assert (Hne : nonempty s = true).
  { unfold nonempty. rewrite Hla. now destruct (chat_history s), (created_at s). }
  rewrite Hne, (is_expired_live m1 s t1 la Hla).
  - reflexivity.
  - rewrite Httl. apply Hlive. lia.
Qed.

Lemma get_session_absent (m : manager) sid t :
  dict_get sid (_sessions m) = None ->
  (get_session clock m sid t).1 = ((clean m t).1, None).
Proof.
  intros Hget. unfold get_session. pose proof (clean_absent m t sid Hget) as Hno.
  destruct (clean m t) as [m1 t1]. cbn [fst] in *. now rewrite Hno.
Qed.

Lemma get_session_dead (m : manager) sid t s :
  dict_get sid (_sessions m) = Some s ->
  (forall j, (t <= j)%nat -> (_is_expired clock m s j).1 = true) ->
  (get_session clock m sid t).1 = ((clean m t).1, None).
Proof.
  intros Hget Hdead. unfold get_session. pose proof (clean_drops m t sid s Hget Hdead) as Hno.
  destruct (clean m t) as [m1 t1]. cbn [fst] in *. now rewrite Hno.
Qed.

(** *** [add_message] *)

(** [add_message] in terms of what [get_session] finds. *)
Lemma add_message_spec (m : manager) sid role content t :
  let got := get_session clock m sid t in
  let session := match got.1.2 with
                 | Some session => session
                 | None => mkSession (Some []) (Some (clock got.2)) None
                 end in
  let t2 := match got.1.2 with Some _ => got.2 | None => S got.2 end in
  add_message clock m sid role content t
  = match chat_history session with
    | None => (got.1.1, inl (KeyError "chat_history"), t2)
    | Some history =>
        (set_sessions got.1.1
           (dict_set sid
              (mkSession
                 (Some (kept (max_history got.1.1)
                          (history ++ [mkMessage role content (clock t2)])))
                 (created_at session) (Some (clock (S t2))))
              (_sessions got.1.1)),
         inr tt, S (S t2))
    end.
Proof.
  cbv zeta. unfold add_message. destruct (get_session clock m sid t) as [[m1 found] t1].
  cbn [fst snd]. destruct found as [s|]; cbn [chat_history];
    [destruct (chat_history s)|]; reflexivity.
Qed.

(** *** The invariant *)

Lemma sessions_ok_clean (m : manager) t : sessions_ok m -> sessions_ok (clean m t).1.
Proof.
  intros [Hnd Hall]. split; [now apply clean_NoDup|].
  pose proof (clean_config m t) as [Hmh _]. rewrite Hmh.
  apply List.Forall_forall. intros p Hp. apply clean_In in Hp.
  now apply (proj1 (List.Forall_forall _ _) Hall).
Qed.

Lemma sessions_ok_get (m : manager) sid t :
  sessions_ok m -> sessions_ok (get_session clock m sid t).1.1.
Proof.
  intros Hok. pose proof (get_session_spec m sid t) as (-> & _). now apply sessions_ok_clean.
Qed.

Lemma sessions_ok_delete (m : manager) sid : sessions_ok m -> sessions_ok (delete_session m sid).
Proof.
  intros [Hnd Hall]. split; cbn [delete_session set_sessions _sessions max_history].
  - now apply NoDup_dict_del.
  - apply List.Forall_forall. intros p Hp. apply In_dict_del in Hp as [Hp _].
    now apply (proj1 (List.Forall_forall _ _) Hall).
Qed.

Lemma sessions_ok_add (m : manager) sid role content t :
  1 <= max_history m -> sessions_ok m ->
  let res := add_message clock m sid role content t in
  sessions_ok res.1.1 /\ max_history res.1.1 = max_history m /\ ttl res.1.1 = ttl m /\
  res.1.2 = inr tt.
Proof.
  intros Hmh Hok. cbv zeta. rewrite add_message_spec. cbv zeta.
  pose proof (sessions_ok_get m sid t Hok) as [Hnd Hall].
  pose proof (get_session_spec m sid t) as (Hm1 & _ & Hfound). cbv zeta in Hm1, Hfound.
  pose proof (clean_config m t) as [Hmh1 Httl1]. rewrite <- Hm1 in Hmh1, Httl1.
  set (got := get_session clock m sid t) in *. clearbody got.
  destruct got as [[m1 found] t1]. cbn [fst snd] in *.
  assert (Hhist : exists h,
            chat_history match found with
                         | Some session => session
                         | None => mkSession (Some []) (Some (clock t1)) None
                         end = Some h).
  { destruct found as [s|]; [|now exists []].
    specialize (Hfound s eq_refl). apply dict_get_In in Hfound.
    apply (proj1 (List.Forall_forall _ _) Hall) in Hfound as [(h & Hh & _) _].
    now exists h. }
  destruct Hhist as [h ->]. cbn [fst snd set_sessions _sessions max_history ttl].
  split; [|now repeat split].
  split; cbn [_sessions max_history].
  - now apply NoDup_dict_set.
  - apply List.Forall_forall. intros p Hp. apply In_dict_set in Hp as [->|Hp].
    + cbn [snd chat_history last_activity]. split; [|now eexists].
      eexists. split; [reflexivity|]. unfold set_sessions. cbn [max_history].
      apply kept_bound. lia.
    + unfold set_sessions. cbn [max_history].
      now apply (proj1 (List.Forall_forall _ _) Hall).
Qed.

Lemma sessions_ok_step (mt : manager * nat) (op : call) :
  1 <= max_history mt.1 -> sessions_ok mt.1 ->
  sessions_ok (step clock mt op).1 /\
  max_history (step clock mt op).1 = max_history mt.1 /\
  ttl (step clock mt op).1 = ttl mt.1.
Proof.
  destruct mt as [m t]. cbn [fst]. intros Hmh Hok.
  destruct op as [sid role content | sid | sid | sid]; cbn [step].
  - pose proof (sessions_ok_add m sid role content t Hmh Hok) as H. cbv zeta in H.
    destruct (add_message clock m sid role content t) as [[m1 r] t1]. cbn [fst snd] in *.
    tauto.
  - unfold get_chat_history.
    pose proof (sessions_ok_get m sid t Hok) as H.
    pose proof (get_session_spec m sid t) as (Hm1 & _). cbv zeta in Hm1.
    pose proof (clean_config m t) as [Hmh1 Httl1]. rewrite <- Hm1 in Hmh1, Httl1.
    destruct (get_session clock m sid t) as [[m1 r] t1]. cbn [fst snd] in *. tauto.
  - pose proof (sessions_ok_get m sid t Hok) as H.
    pose proof (get_session_spec m sid t) as (Hm1 & _). cbv zeta in Hm1.
    pose proof (clean_config m t) as [Hmh1 Httl1]. rewrite <- Hm1 in Hmh1, Httl1.
    destruct (get_session clock m sid t) as [[m1 r] t1]. cbn [fst snd] in *. tauto.
  - cbn [fst]. split; [now apply sessions_ok_delete | now split].
Qed.

Lemma sessions_ok_run (ops : list call) : forall mt : manager * nat,
  1 <= max_history mt.1 -> sessions_ok mt.1 ->
  sessions_ok (run clock mt ops).1 /\
  max_history (run clock mt ops).1 = max_history mt.1 /\
  ttl (run clock mt ops).1 = ttl mt.1.
Proof.
  unfold run. induction ops as [|op ops IH]; intros mt Hmh Hok; cbn [fold_left]; [tauto|].
  destruct (sessions_ok_step mt op Hmh Hok) as (H1 & H2 & H3).
  destruct (IH (step clock mt op)) as (H4 & H5 & H6); [lia | assumption |].
  split; [assumption|]. split; congruence.
Qed.

Lemma sessions_ok_init (mh ttl_minutes : Z) : sessions_ok (init mh ttl_minutes).
Proof. split; simpl; constructor. Qed.

(** X24.  With [max_history >= 1], whatever messages are added, histories
    read, sessions read and deleted on a new manager, [get_chat_history]
    never returns more than [max_history] messages, and [add_message] never
    raises. *)
Theorem history_stays_bounded (max_history0 ttl_minutes : Z) (t0 : nat) (ops : list call)
    (session_id : string) (t : nat) :
  1 <= max_history0 ->
  let m := (run clock (init max_history0 ttl_minutes, t0) ops).1 in
  Z.of_nat (length (get_chat_history clock m session_id t).1.2) <= max_history0 /\
  (forall role content, (add_message clock m session_id role content t).1.2 = inr tt).
Proof.
  intros Hmh. cbv zeta.
  destruct (sessions_ok_run ops (init max_history0 ttl_minutes, t0) Hmh
              (sessions_ok_init _ _)) as (Hok & Hmh' & _).
  cbn [fst init max_history] in Hmh'.
  set (m := (run clock (init max_history0 ttl_minutes, t0) ops).1) in *. clearbody m.
  split.
  - unfold get_chat_history.
    pose proof (sessions_ok_get m session_id t Hok) as [_ Hall].
    pose proof (get_session_spec m session_id t) as (Hm1 & _ & Hfound).
    cbv zeta in Hm1, Hfound.
    pose proof (clean_config m t) as [Hmh1 _]. rewrite <- Hm1 in Hmh1.
    destruct (get_session clock m session_id t) as [[m1 found] t1]. cbn [fst snd] in *.
    destruct found as [s|]; [|simpl; lia].
    specialize (Hfound s eq_refl). apply dict_get_In in Hfound.
    apply (proj1 (List.Forall_forall _ _) Hall) in Hfound as [(h & Hh & Hlen) _].
    cbn [snd] in Hh. rewrite Hh. lia.
  - intros role content.
    apply (sessions_ok_add m session_id role content t); [lia | assumption].
Qed.

(** A message added to any well-formed store is read back. *)
Lemma add_then_read (m : manager) sid role content t :
  1 <= max_history m -> sessions_ok m ->
  let res := add_message clock m sid role content t in
  (forall j, (res.2 <= j)%nat -> (clock j - clock (pred res.2) <= ttl m)%Q) ->
  exists older,
    (get_chat_history clock res.1.1 sid res.2).1.2
    = (older ++ [mkMessage role content (clock (res.2 - 2))])%list.
Proof.
  intros Hmh Hok. cbv zeta. rewrite add_message_spec. cbv zeta.
  pose proof (sessions_ok_get m sid t Hok) as [Hnd Hall].
  pose proof (get_session_spec m sid t) as (Hm1 & _ & Hfound). cbv zeta in Hm1, Hfound.
  pose proof (clean_config m t) as [Hmh1 Httl1]. rewrite <- Hm1 in Hmh1, Httl1.
  set (got := get_session clock m sid t) in *. clearbody got.
  destruct got as [[m1 found] t1]. cbn [fst snd] in *.
  set (session := match found with
                  | Some session => session
                  | None => mkSession (Some []) (Some (clock t1)) None
                  end).
  set (t2 := match found with Some _ => t1 | None => S t1 end).
  assert (Hhist : exists h, chat_history session = Some h).
  { subst session. destruct found as [s|]; [|now exists []].
    specialize (Hfound s eq_refl). apply dict_get_In in Hfound.
    apply (proj1 (List.Forall_forall _ _) Hall) in Hfound as [(h & Hh & _) _].
    now exists h. }
  destruct Hhist as [h ->]. cbn [fst snd pred].
  replace (S (S t2) - 2)%nat with t2 by lia.
  set (s' := mkSession _ _ _). set (m2 := set_sessions m1 _).
  intros Hlive.
  assert (Hg : (get_session clock m2 sid (S (S t2))).1 = ((clean m2 (S (S t2))).1, Some s')).
  { apply (get_session_live m2 sid (S (S t2)) s' (clock (S t2))).
    - subst m2. cbn [set_sessions _sessions]. now apply NoDup_dict_set.
    - subst m2. cbn [set_sessions _sessions]. apply dict_get_set_eq.
    - reflexivity.
    - intros j Hj. subst m2. cbn [set_sessions ttl]. rewrite Httl1. now apply Hlive. }
  unfold get_chat_history.
  destruct (get_session clock m2 sid (S (S t2))) as [[m3 found3] t3]. cbn [fst snd] in *.
  injection Hg as _ ->. subst s'. cbn [chat_history].
  apply kept_last. lia.
Qed.

(** X25.  A message added is read back: with [max_history >= 1], on a
    manager built from a new one by any calls, the history read right after
    [add_message(id, role, content)], while no clock reading is more than
    the TTL after the one that stamped the session, ends with that message,
    stamped with the reading taken for it. *)
Theorem message_read_back (max_history0 ttl_minutes : Z) (t0 : nat) (ops : list call)
    (session_id role content : string) :
  1 <= max_history0 ->
  let mt := run clock (init max_history0 ttl_minutes, t0) ops in
  let res := add_message clock mt.1 session_id role content mt.2 in
  (forall j, (res.2 <= j)%nat ->
             (clock j - clock (pred res.2) <= inject_Z ttl_minutes * 60)%Q) ->
  exists older,
    (get_chat_history clock res.1.1 session_id res.2).1.2
    = (older ++ [mkMessage role content (clock (res.2 - 2))])%list.
Proof.
  intros Hmh. cbv zeta.
  destruct (sessions_ok_run ops (init max_history0 ttl_minutes, t0) Hmh
              (sessions_ok_init _ _)) as (Hok & Hmh' & Httl').
  cbn [fst init max_history ttl] in Hmh', Httl'.
  intros Hlive. apply add_then_read; [lia | assumption |].
  cbv zeta. rewrite Httl'. exact Hlive.
Qed.

(** *** A manager with [max_history = 0] *)

Section Unbounded.
Variable session_id : string.
Variable ttl0 : Q.
Hypothesis clock_within_ttl : forall i j, (clock j - clock i <= ttl0)%Q.

Abbreviation holds := (Session.holds clock session_id ttl0).

Lemma holds_add (m : manager) acc role content t :
  holds m acc ->
  holds (add_message clock m session_id role content t).1.1 (acc ++ [(role, content)]).
Proof.
  intros (Hmh & Httl & Hnd & Hcase). rewrite add_message_spec. cbv zeta.
  pose proof (clean_config m t) as [Hmh1 Httl1].
  pose proof (clean_NoDup m t Hnd) as Hnd1.
  assert (Hg : exists found h,
            (get_session clock m session_id t).1 = ((clean m t).1, found) /\
            chat_history (match found with
                          | Some session => session
                          | None => mkSession (Some [])
                                      (Some (clock (get_session clock m session_id t).2)) None
                          end) = Some h /\
            map (fun msg => (Session.role msg, Session.content msg)) h = acc).
  { destruct Hcase as [[Hno ->] | (s & h & i & Hget & Hh & Hla & Hacc)].
    - exists None, []. split; [now apply get_session_absent | now split].
    - exists (Some s), h. split; [|now split].
      apply (get_session_live m session_id t s (clock i)); try assumption.
      intros j _. rewrite Httl. apply clock_within_ttl. }
  destruct Hg as (found & h & Hg & Hh & Hacc).
  set (t1 := (get_session clock m session_id t).2) in *. clearbody t1.
  rewrite Hg. cbn [fst snd]. rewrite Hh. cbn [fst snd].
  unfold Session.holds, set_sessions. cbn [max_history ttl _sessions].
  split; [congruence|]. split; [congruence|]. split; [now apply NoDup_dict_set|].
  right. rewrite Hmh1, Hmh, kept_zero. eexists _, _, _.
  split; [apply dict_get_set_eq|]. cbn [chat_history last_activity].
  split; [reflexivity|]. split; [reflexivity|].
  rewrite map_app, Hacc. reflexivity.
Qed.

Lemma holds_run (msgs : list (string * string)) : forall (m : manager) t acc,
  holds m acc ->
  holds (run clock (m, t) (map (fun rc => CallAdd session_id rc.1 rc.2) msgs)).1
    (acc ++ msgs).
Proof.
  unfold run. induction msgs as [|[r c] msgs IH]; intros m t acc H; cbn [map fold_left].
  - now rewrite app_nil_r.
  - cbn [step fst snd]. pose proof (holds_add m acc r c t H) as Hadd.
    destruct (add_message clock m session_id r c t) as [[m1 res] t1]. cbn [fst] in Hadd.
    specialize (IH m1 t1 _ Hadd). rewrite <- app_assoc in IH. exact IH.
Qed.

Lemma holds_read (m : manager) acc t :
  holds m acc ->
  map (fun msg => (role msg, content msg)) (get_chat_history clock m session_id t).1.2 = acc.
Proof.
  intros (Hmh & Httl & Hnd & Hcase). unfold get_chat_history.
  destruct Hcase as [[Hno ->] | (s & h & i & Hget & Hh & Hla & Hacc)].
  - pose proof (get_session_absent m session_id t Hno) as Hg.
    destruct (get_session clock m session_id t) as [[m1 found] t1]. cbn [fst snd] in *.
    now injection Hg as _ ->.
  - assert (Hg : (get_session clock m session_id t).1 = ((clean m t).1, Some s)).
    { apply (get_session_live m session_id t s (clock i)); try assumption.
      intros j _. rewrite Httl. apply clock_within_ttl. }
    destruct (get_session clock m session_id t) as [[m1 found] t1]. cbn [fst snd] in *.
    injection Hg as _ ->. now rewrite Hh.
Qed.

End Unbounded.

(** X26.  [max_history = 0] does not mean that no history is kept: the
    history is never cut ([history[-0:]] is the whole list).  While the
    clock readings stay within the TTL of each other, the messages added to
    a session of a new manager with [max_history = 0] are all read back, in
    order, however many they are. *)
Theorem zero_max_history_keeps_all (ttl_minutes : Z) (t0 : nat) (session_id : string)
    (msgs : list (string * string)) :
  (forall i j, (clock j - clock i <= inject_Z ttl_minutes * 60)%Q) ->
  let mt := run clock (init 0 ttl_minutes, t0)
              (map (fun rc => CallAdd session_id rc.1 rc.2) msgs) in
  map (fun msg => (role msg, content msg)) (get_chat_history clock mt.1 session_id mt.2).1.2
  = msgs.
Proof.
  intros Hclock. cbv zeta.
  apply (holds_read session_id _ Hclock).
  apply (holds_run session_id _ Hclock msgs (init 0 ttl_minutes) t0 []).
  split; [reflexivity|]. split; [reflexivity|]. split; [constructor|]. now left.
Qed.

(** X27.  A message for an expired session starts the session over: when
    the stored session is older than the TTL at every reading from now on
    (and [max_history >= 0]), [add_message] succeeds and leaves a session
    whose history is that one message. *)
Theorem expired_session_starts_over (m : manager) (session_id role content : string)
    (t : nat) (s : SessionData) (la : Q) :
  0 <= max_history m ->
  dict_get session_id (_sessions m) = Some s ->
  last_activity s = Some la ->
  (forall j, (t <= j)%nat -> (ttl m < clock j - la)%Q) ->
  let res := add_message clock m session_id role content t in
  res.1.2 = inr tt /\
  exists created stamp last,
    dict_get session_id (_sessions res.1.1)
    = Some (mkSession (Some [mkMessage role content stamp]) (Some created) (Some last)).
Proof.
  intros Hmh Hget Hla Hdead. cbv zeta. rewrite add_message_spec. cbv zeta.
  assert (Hg : (get_session clock m session_id t).1 = ((clean m t).1, None)).
  { apply (get_session_dead m session_id t s Hget).
    intros j Hj. now rewrite (is_expired_dead m s j la Hla (Hdead j Hj)). }
  pose proof (clean_config m t) as [Hmh1 _].
  set (t1 := (get_session clock m session_id t).2) in *. clearbody t1.
  rewrite Hg. cbn [fst snd chat_history created_at]. split; [reflexivity|].
  unfold set_sessions. cbn [_sessions]. rewrite dict_get_set_eq.
  assert (Hkept : forall x, kept (max_history (clean m t).1) ([] ++ [x]) = [x]).
  { intros x. rewrite Hmh1. destruct (Z.eq_dec (max_history m) 0) as [->|Hne].
    - apply kept_zero.
    - apply kept_short. simpl. lia. }
  rewrite Hkept. now eexists _, _, _.
Qed.

End Facts.

(** *** Instances *)

Import ExamplesMore.
Local Open Scope string_scope.

(** X24 at a manager with [max_history = 2] after three messages. *)
Lemma history_stays_bounded_witness :
  Z.of_nat (length (get_chat_history frozen_clock sessions_three.1 "s1" 9%nat).1.2) <= 2 /\
  (forall role content,
     (add_message frozen_clock sessions_three.1 "s1" role content 9%nat).1.2 = inr tt).
Proof.
  apply (history_stays_bounded frozen_clock 2 60 0%nat
           [CallAdd "s1" "user" "a"; CallAdd "s1" "assistant" "b"; CallAdd "s1" "user" "c"]
           "s1" 9%nat).
  lia.
Defined.

(** X25 at the same manager. *)
Lemma message_read_back_witness :
  let res := add_message frozen_clock sessions_three.1 "s1" "user" "d" sessions_three.2 in
  exists older,
    (get_chat_history frozen_clock res.1.1 "s1" res.2).1.2
    = (older ++ [mkMessage "user" "d" (frozen_clock (res.2 - 2))])%list.
Proof.
  apply (message_read_back frozen_clock 2 60 0%nat
           [CallAdd "s1" "user" "a"; CallAdd "s1" "assistant" "b"; CallAdd "s1" "user" "c"]
           "s1" "user" "d").
  - lia.
  - intros j _. vm_compute. intros H; discriminate H.
Defined.

(** X26: three messages into a manager with [max_history = 0]. *)
Lemma zero_max_history_keeps_all_witness :
  let mt := run frozen_clock (init 0 60, 0%nat)
              (map (fun rc : string * string => CallAdd "s1" rc.1 rc.2)
                 [("user", "a"); ("assistant", "b"); ("user", "c")]) in
  map (fun msg => (role msg, content msg))
    (get_chat_history frozen_clock mt.1 "s1" mt.2).1.2
  = [("user", "a"); ("assistant", "b"); ("user", "c")].
Proof.
  apply (zero_max_history_keeps_all frozen_clock 60 0%nat "s1"
           [("user", "a"); ("assistant", "b"); ("user", "c")]).
  intros i j. vm_compute. intros H; discriminate H.
Defined.

(** X27: a message three hours after the last one. *)
Lemma expired_session_starts_over_witness :
  let res := add_message late_clock sessions_three.1 "s1" "user" "d" sessions_three.2 in
  res.1.2 = inr tt /\
  exists created stamp last,
    dict_get "s1" (_sessions res.1.1)
    = Some (mkSession (Some [mkMessage "user" "d" stamp]) (Some created) (Some last)).
Proof.
  apply (expired_session_starts_over late_clock sessions_three.1 "s1" "user" "d"
           sessions_three.2
           (mkSession (Some [mkMessage "assistant" "b" 0%Q; mkMessage "user" "c" 0%Q])
              (Some 0%Q) (Some 0%Q)) 0%Q).
  - vm_compute. intros H; discriminate H.
  - vm_compute. reflexivity.
  - reflexivity.
  - intros j _. vm_compute. reflexivity.
Defined.

End SessionFacts.
